(** * Zero-downtime deployment: a model of [deployment/aws_helpers.py],
      [deployment/deployment.py] and [scripts/deploy_app.py]

    The Python program talks to a cloud control plane through boto3
    clients, sleeps, and writes log records.  The model is a shallow
    embedding into a state-and-exception monad:

    - the control plane is an oracle, a script of the responses that the
      successive client calls will receive;
    - every client call, every sleep and every log record is appended to
      a trace, in program order;
    - Python exceptions are an outcome of their own, so that [try/except]
      and the [tenacity] retry decorator can be written as the code has
      them. *)

From Stdlib Require Import ZArith List Ascii String Bool Lia DecimalString.
Import ListNotations.

Open Scope Z_scope.
Open Scope string_scope.
Open Scope list_scope.

Set Implicit Arguments.

(** ** Data *)

(** The exceptions that occur in the program.  [ClientError] is
    [botocore.exceptions.ClientError] (with its error code), [RetryError] is
    [tenacity.RetryError] and carries the exception of the last attempt;
    [KeyError] and [IndexError] come from subscripting a response;
    [OtherError] stands for any other subclass of [Exception] a client call
    may raise; [InvalidRegionError] is
    [botocore.exceptions.InvalidRegionError], which the creation of a client
    raises for a region name it does not accept, and which is a subclass of
    [ValueError]. *)
Inductive exn : Type :=
| ClientError (code : string)
| ValueError (message : string)
| KeyError (key : string)
| IndexError
| RetryError (last_attempt : exn)
| OtherError (name : string)
| InvalidRegionError (region_name : string).

(** [asg_details['LaunchTemplate']]: the launch template reference of a
    group. *)
Record launch_template : Type := {
  LaunchTemplateId : string;
  Version : string
}.

(** One entry of [response['AutoScalingGroups']]; the key ['LaunchTemplate']
    is absent for a group that is not built from a launch template. *)
Record asg_details : Type := {
  AutoScalingGroupName : string;
  LaunchTemplate : option launch_template;
  DesiredCapacity : Z;
  MinSize : Z;
  MaxSize : Z
}.

(** One entry of [response['AutoScalingInstances']]. *)
Record instance : Type := {
  InstanceId : string;
  InstanceAutoScalingGroupName : string;
  LifecycleState : string
}.

(** [config['instance_refresh']]. *)
Record instance_refresh_config : Type := {
  min_healthy_percentage : Z;
  max_healthy_percentage : Z;
  instance_warmup : Z;
  skip_matching : bool
}.

(** The parsed [deployment_config.yaml]. *)
Record config : Type := {
  aws_region : string;
  auto_scaling_group : string;
  ami_id : string;
  desired_capacity : Z;
  min_size : Z;
  max_size : Z;
  instance_refresh : instance_refresh_config
}.

(** What [update_auto_scaling_group] returns when it updated the group:
    the integer [VersionNumber] of the version it created, or the string
    version token of the group's launch template. *)
Inductive version_id : Type :=
| VersionNumber (n : Z)
| VersionToken (token : string).

(** The client calls of the program, with their keyword arguments. *)
Inductive request : Type :=
| DescribeAutoScalingGroups (AutoScalingGroupNames : list string)
| DescribeLaunchTemplateVersions (Id : string) (Versions : list string)
| CreateLaunchTemplateVersion (Id SourceVersion ImageId : string)
| UpdateAutoScalingGroup (Name : string) (Desired Min Max : Z)
                         (Template : option launch_template)
| StartInstanceRefresh (Name Strategy : string)
                       (Preferences : instance_refresh_config)
| DescribeInstanceRefreshes (Name : string) (InstanceRefreshIds : list string)
| DescribeAutoScalingInstances
| TerminateInstances (InstanceIds : list string).

(** What the control plane answers.  A response is the dictionary boto3
    returns, reduced to the one key the program reads; [Error e] is a call
    that raises [e].  In [LaunchTemplateVersions] an entry is the ['ImageId']
    of its ['LaunchTemplateData'], when it has one. *)
Inductive response : Type :=
| AutoScalingGroups (groups : list asg_details)
| LaunchTemplateVersions (image_ids : list (option string))
| LaunchTemplateVersion (version_number : Z)
| InstanceRefreshId (id : string)
| InstanceRefreshes (statuses : list string)
| AutoScalingInstances (instances : list instance)
| Empty
| Error (e : exn).

Inductive level : Type := INFO | ERROR.

(** A value interpolated into a log message. *)
Inductive value : Type :=
| VStr (s : string)
| VInt (n : Z)
| VExn (e : exn)
| VGroup (g : asg_details).

(** What the program does to the outside: a client call with the response
    it got, [time.sleep], a log record (level, the message as the source
    writes it, and the interpolated values in order). *)
Inductive event : Type :=
| Call (rq : request) (rs : response)
| Sleep (seconds : Z)
| Log (lvl : level) (message : string) (args : list value).

(** ** The monad *)

Record state : Type := {
  script : list response;   (* responses the next client calls will get *)
  trace : list event        (* what happened so far, oldest first *)
}.

(** [Hang]: the computation does not come back (a call that is never
    answered, a loop that never ends). *)
Inductive outcome (A : Type) : Type :=
| Return (a : A)
| Raise (e : exn)
| Hang.

Arguments Raise {A} e.
Arguments Hang {A}.

Definition M (A : Type) : Type := state -> outcome A * state.

Definition ret {A} (a : A) : M A := fun s => (Return a, s).

Definition raise {A} (e : exn) : M A := fun s => (Raise e, s).

Definition bind {A B} (m : M A) (k : A -> M B) : M B :=
  fun s =>
    match m s with
    | (Return a, s') => k a s'
    | (Raise e, s') => (Raise e, s')
    | (Hang, s') => (Hang, s')
    end.

Declare Scope py_scope.
Delimit Scope py_scope with py.
Notation "x <- m ;; k" := (bind m (fun x => k))
  (at level 61, m at next level, right associativity) : py_scope.
Notation "m ;; k" := (bind m (fun _ => k))
  (at level 61, right associativity) : py_scope.
Open Scope py_scope.

Definition emit (e : event) (s : state) : state :=
  {| script := script s; trace := trace s ++ [e] |}.

Definition log (lvl : level) (message : string) (args : list value) : M unit :=
  fun s => (Return tt, emit (Log lvl message args) s).

Definition sleep (seconds : Z) : M unit :=
  fun s => (Return tt, emit (Sleep seconds) s).

(** A boto3 client call: the next response of the script answers it.  With
    no response left the call never returns. *)
Definition client_call (rq : request) : M response :=
  fun s =>
    match script s with
    | [] => (Hang, s)
    | Error e :: rest =>
        (Raise e, {| script := rest; trace := trace s ++ [Call rq (Error e)] |})
    | rs :: rest =>
        (Return rs, {| script := rest; trace := trace s ++ [Call rq rs] |})
    end.

(** [isinstance(e, cls)] for the three classes the program names. *)
Definition ClientError_class (e : exn) : bool :=
  match e with
  | ClientError _ => true
  | _ => false
  end.

Definition ValueError_class (e : exn) : bool :=
  match e with
  | ValueError _ => true
  | InvalidRegionError _ => true
  | _ => false
  end.

Definition Exception_class (e : exn) : bool := true.

(** [try: body except cls as e: handler(e)]. *)
Definition try_except {A} (body : M A) (cls : exn -> bool)
  (handler : exn -> M A) : M A :=
  fun s =>
    match body s with
    | (Raise e, s') => if cls e then handler e s' else (Raise e, s')
    | r => r
    end.

(** ** The retry decorator

    [@retry(stop=stop_after_attempt(3),
            wait=wait_exponential(multiplier=1, min=2, max=10),
            retry=retry_if_exception_type(ClientError))]
    as [tenacity] runs it: the decorated function is called; a result is
    returned; an exception that is not a [ClientError] is raised again as it
    is; on a [ClientError], when [stop] holds for the attempt number a
    [RetryError] is raised from it ([reraise] is left at its default,
    [False]), otherwise the decorator sleeps [wait(attempt_number)] and calls
    the function again. *)

Definition stop_after_attempt (max_attempt_number attempt_number : nat) : bool :=
  (max_attempt_number <=? attempt_number)%nat.

(** [max(max(0, min), min(multiplier * 2 ** (attempt_number - 1), max))]. *)
Definition wait_exponential (multiplier min max : Z) (attempt_number : nat)
  : Z :=
  Z.max (Z.max 0 min)
        (Z.min (multiplier * 2 ^ (Z.of_nat attempt_number - 1)) max).

Definition retry_if_exception_type (cls : exn -> bool) (e : exn) : bool :=
  cls e.

(** The loop of the decorator, from attempt [attempt_number] on.  [budget]
    bounds the number of further attempts; [retry] starts it at the number
    after which [stop_after_attempt] has stopped the loop anyway. *)
Fixpoint retrying {A} (budget attempt_number : nat) (f : M A) : M A :=
  fun s =>
    match f s with
    | (Raise e, s') =>
        if negb (retry_if_exception_type ClientError_class e) then (Raise e, s')
        else if stop_after_attempt 3 attempt_number
             then (Raise (RetryError e), s')
             else
               match budget with
               | O => (Hang, s')
               | S budget' =>
                   (sleep (wait_exponential 1 2 10 attempt_number) ;;
                    retrying budget' (S attempt_number) f) s'
               end
    | r => r
    end.

Definition retry {A} (f : M A) : M A := retrying 3 1 f.

Arguments stop_after_attempt : simpl never.
Arguments wait_exponential : simpl never.

(** ** [boto3.client]

    Creating a client makes no call to the control plane, but it can raise.
    [botocore] validates the region name first
    ([botocore.utils.validate_region_name]): the name has to match
    [^(?![0-9]+$)(?!-)[a-zA-Z0-9-]{,63}(?<!-)$], a host label of at most 63
    letters, digits and hyphens that is not made of digits only and neither
    starts nor ends with a hyphen; a name that does not match raises
    [InvalidRegionError].  The expression also matches the empty name, and
    Python's [$] also matches before a newline that ends the name; with an
    empty label the endpoint of the service has no valid host name, and
    the creation raises [ValueError].  For every other name, that is for a
    host label that is not empty, the client is created. *)

Definition is_digit (c : ascii) : bool :=
  (48 <=? N_of_ascii c)%N && (N_of_ascii c <=? 57)%N.

Definition is_letter (c : ascii) : bool :=
  ((65 <=? N_of_ascii c)%N && (N_of_ascii c <=? 90)%N)
  || ((97 <=? N_of_ascii c)%N && (N_of_ascii c <=? 122)%N).

(** [[a-zA-Z0-9-]]. *)
Definition label_char (c : ascii) : bool :=
  is_letter c || is_digit c || Ascii.eqb c "-"%char.

(** A host label that is not empty. *)
Definition host_label (name : string) : bool :=
  let chars := list_ascii_of_string name in
  negb (String.eqb name "")
  && (List.length chars <=? 63)%nat
  && forallb label_char chars
  && negb (forallb is_digit chars)
  && negb (Ascii.eqb (hd "a"%char chars) "-"%char)
  && negb (Ascii.eqb (List.last chars "a"%char) "-"%char).

(** The name up to where Python's [$] matches: without the newline that
    ends it, if there is one. *)
Fixpoint before_final_newline (name : string) : string :=
  match name with
  | EmptyString => EmptyString
  | String c rest =>
      match rest with
      | EmptyString => if Ascii.eqb c "010"%char then EmptyString else name
      | String _ _ => String c (before_final_newline rest)
      end
  end.

(** [validate_region_name(region_name)] does not raise. *)
Definition validate_region_name (region_name : string) : bool :=
  let label := before_final_newline region_name in
  String.eqb label "" || host_label label.

(** [boto3.client(service_name, region_name=region_name)]; the client
    itself is not a value of the model. *)
Definition boto3_client (service_name region_name : string) : M unit :=
  if validate_region_name region_name
  then
    if String.eqb (before_final_newline region_name) ""
    then raise (ValueError ("Invalid endpoint: https://" ++ service_name
                            ++ "..amazonaws.com"))
    else ret tt
  else raise (InvalidRegionError region_name).

(** ** [AWSHelper] *)

(** [initialize_aws_sdk], for the region the helper was built with
    ([self.region]). *)
Definition initialize_aws_sdk (region : string) : M unit :=
  log INFO "Initializing AWS SDK" [] ;;
  boto3_client "ec2" region ;;
  boto3_client "autoscaling" region.

Definition get_current_asg_details_body (asg_name : string) : M asg_details :=
  log INFO "Retrieving details for Auto Scaling Group: {asg_name}"
      [VStr asg_name] ;;
  try_except
    (response <- client_call (DescribeAutoScalingGroups [asg_name]) ;;
     match response with
     | AutoScalingGroups (g :: _) => ret g
     | _ => raise (ValueError ("Auto Scaling Group " ++ asg_name ++ " not found"))
     end)
    ClientError_class
    (fun e =>
       log ERROR "ClientError retrieving ASG details: {e}" [VExn e] ;;
       raise e).

Definition get_current_asg_details (asg_name : string) : M asg_details :=
  retry (get_current_asg_details_body asg_name).

Definition get_current_ami_id_body
  (launch_template_id launch_template_version : string) : M string :=
  log INFO "Retrieving current AMI ID from launch template {launch_template_id} version {launch_template_version}"
      [VStr launch_template_id; VStr launch_template_version] ;;
  try_except
    (response <- client_call
                   (DescribeLaunchTemplateVersions launch_template_id
                                                   [launch_template_version]) ;;
     match response with
     | LaunchTemplateVersions (Some image_id :: _) => ret image_id
     | LaunchTemplateVersions (None :: _) => raise (KeyError "ImageId")
     | _ => raise (ValueError ("Launch Template " ++ launch_template_id
                               ++ " version " ++ launch_template_version
                               ++ " not found"))
     end)
    ClientError_class
    (fun e =>
       log ERROR "ClientError retrieving AMI ID: {e}" [VExn e] ;;
       raise e).

Definition get_current_ami_id
  (launch_template_id launch_template_version : string) : M string :=
  retry (get_current_ami_id_body launch_template_id launch_template_version).

(** [str(n)] for a Python integer. *)
Definition str (n : Z) : string := NilZero.string_of_int (Z.to_int n).

(** [asg_details['LaunchTemplate']]. *)
Definition getitem_LaunchTemplate (d : asg_details) : M launch_template :=
  match LaunchTemplate d with
  | Some lt => ret lt
  | None => raise (KeyError "LaunchTemplate")
  end.

(** The comparison of line 59: the four fields that decide "no update". *)
Definition unchanged (d : asg_details) (current_ami_id new_ami_id : string)
  (desired_capacity min_size max_size : Z) : bool :=
  String.eqb current_ami_id new_ami_id
  && Z.eqb (DesiredCapacity d) desired_capacity
  && Z.eqb (MinSize d) min_size
  && Z.eqb (MaxSize d) max_size.

(** The body of [update_auto_scaling_group].  The pair bound to [params]
    is [update_params['LaunchTemplate']] (absent unless the image changed)
    and the local [new_version] (bound only when the image changed, which is
    what ['new_version' in locals()] tests). *)
Definition update_auto_scaling_group_body (d : asg_details)
  (new_ami_id : string) (desired_capacity min_size max_size : Z)
  : M (option version_id) :=
  log INFO "Checking if Auto Scaling Group needs to be updated with new AMI or capacity settings" [] ;;
  try_except
    (launch_template <- getitem_LaunchTemplate d ;;
     let launch_template_id := LaunchTemplateId launch_template in
     let launch_template_version := Version launch_template in
     current_ami_id <- get_current_ami_id launch_template_id
                                          launch_template_version ;;
     if unchanged d current_ami_id new_ami_id desired_capacity min_size max_size
     then
       log INFO "AMI ID, desired capacity, min size, and max size have not changed, no update required" [] ;;
       ret None
     else
       log INFO "Updating Auto Scaling Group with new settings" [] ;;
       params <-
         (if negb (String.eqb current_ami_id new_ami_id)
          then
            log INFO "AMI ID has changed, creating new version of the launch template" [] ;;
            response <- client_call
                          (CreateLaunchTemplateVersion launch_template_id
                             launch_template_version new_ami_id) ;;
            match response with
            | LaunchTemplateVersion new_version =>
                ret (Some {| LaunchTemplateId := launch_template_id;
                             Version := str new_version |},
                     Some new_version)
            | _ => raise (KeyError "LaunchTemplateVersion")
            end
          else ret (None, None)) ;;
       client_call (UpdateAutoScalingGroup (AutoScalingGroupName d)
                      desired_capacity min_size max_size (fst params)) ;;
       ret (Some match snd params with
                 | Some new_version => VersionNumber new_version
                 | None => VersionToken launch_template_version
                 end))
    ClientError_class
    (fun e =>
       log ERROR "ClientError updating Auto Scaling Group: {e}" [VExn e] ;;
       raise e).

Definition update_auto_scaling_group (d : asg_details)
  (new_ami_id : string) (desired_capacity min_size max_size : Z)
  : M (option version_id) :=
  retry (update_auto_scaling_group_body d new_ami_id desired_capacity
                                        min_size max_size).

Definition start_instance_refresh_body (asg_name : string)
  (instance_refresh_config : instance_refresh_config) : M string :=
  log INFO "Starting instance refresh for ASG: {asg_name}" [VStr asg_name] ;;
  try_except
    (response <- client_call
                   (StartInstanceRefresh asg_name "Rolling"
                                         instance_refresh_config) ;;
     match response with
     | InstanceRefreshId id => ret id
     | _ => raise (KeyError "InstanceRefreshId")
     end)
    ClientError_class
    (fun e =>
       log ERROR "ClientError starting instance refresh: {e}" [VExn e] ;;
       raise e).

Definition start_instance_refresh (asg_name : string)
  (instance_refresh_config : instance_refresh_config) : M string :=
  retry (start_instance_refresh_body asg_name instance_refresh_config).

(** [status in ['Successful', 'Failed', 'Cancelled']]. *)
Definition is_terminal (status : string) : bool :=
  existsb (String.eqb status) ["Successful"; "Failed"; "Cancelled"].

(** The [while True] loop of [wait_for_instance_refresh]; [fuel] bounds the
    number of iterations. *)
Fixpoint poll_instance_refresh (fuel : nat)
  (asg_name instance_refresh_id : string) : M unit :=
  match fuel with
  | O => fun s => (Hang, s)
  | S fuel' =>
      response <- client_call
                    (DescribeInstanceRefreshes asg_name [instance_refresh_id]) ;;
      status <- match response with
                | InstanceRefreshes (status :: _) => ret status
                | InstanceRefreshes [] => raise IndexError
                | _ => raise (KeyError "InstanceRefreshes")
                end ;;
      if is_terminal status
      then log INFO "Instance refresh {status}" [VStr status]
      else
        log INFO "Instance refresh in progress..." [] ;;
        sleep 10 ;;
        poll_instance_refresh fuel' asg_name instance_refresh_id
  end.

(** Every iteration of a polling loop makes at least one client call, and a
    call with no response left hangs: the loop makes at most as many
    iterations as the script has responses, plus the one that hangs. *)
Definition enough_fuel (s : state) : nat := S (List.length (script s)).

Definition wait_for_instance_refresh_body
  (asg_name instance_refresh_id : string) : M unit :=
  log INFO "Waiting for instance refresh {instance_refresh_id} to complete for ASG: {asg_name}"
      [VStr instance_refresh_id; VStr asg_name] ;;
  try_except
    (fun s => poll_instance_refresh (enough_fuel s) asg_name
                                    instance_refresh_id s)
    ClientError_class
    (fun e =>
       log ERROR "ClientError waiting for instance refresh: {e}" [VExn e] ;;
       raise e).

Definition wait_for_instance_refresh
  (asg_name instance_refresh_id : string) : M unit :=
  retry (wait_for_instance_refresh_body asg_name instance_refresh_id).

(** The list comprehension of lines 139-143. *)
Definition old_instances (asg_name : string) (instances : list instance)
  : list instance :=
  filter (fun i =>
            String.eqb (InstanceAutoScalingGroupName i) asg_name
            && negb (String.eqb (LifecycleState i) "InService"))
         instances.

(** [for instance in old_instances: terminate_instances(...)]. *)
Fixpoint terminate_each (l : list instance) : M unit :=
  match l with
  | [] => ret tt
  | i :: l' =>
      client_call (TerminateInstances [InstanceId i]) ;;
      terminate_each l'
  end.

(** The [while True] loop of [verify_old_instances_termination]. *)
Fixpoint reap_old_instances (fuel : nat) (asg_name : string) : M unit :=
  match fuel with
  | O => fun s => (Hang, s)
  | S fuel' =>
      response <- client_call DescribeAutoScalingInstances ;;
      instances <- match response with
                   | AutoScalingInstances l => ret l
                   | _ => raise (KeyError "AutoScalingInstances")
                   end ;;
      match old_instances asg_name instances with
      | [] => log INFO "Old instances have been terminated" []
      | old =>
          log INFO "Waiting for old instances to terminate..." [] ;;
          terminate_each old ;;
          sleep 30 ;;
          reap_old_instances fuel' asg_name
      end
  end.

Definition verify_old_instances_termination_body (asg_name : string)
  : M unit :=
  log INFO "Verifying that old instances in ASG: {asg_name} are terminated"
      [VStr asg_name] ;;
  try_except
    (fun s => reap_old_instances (enough_fuel s) asg_name s)
    ClientError_class
    (fun e =>
       log ERROR "ClientError verifying old instances termination: {e}"
           [VExn e] ;;
       raise e).

Definition verify_old_instances_termination (asg_name : string) : M unit :=
  retry (verify_old_instances_termination_body asg_name).

(** ** [Deployment] *)

Definition VVersion (v : version_id) : value :=
  match v with
  | VersionNumber n => VInt n
  | VersionToken t => VStr t
  end.

(** The first [try] block of [run]: [Some] details to go on with, [None]
    when the handler has logged the error and [run] returns. *)
Definition run_retrieve (cfg : config) : M (option asg_details) :=
  try_except
    (current_asg_details <-
       get_current_asg_details (auto_scaling_group cfg) ;;
     log INFO "ASG Details: {current_asg_details}"
         [VGroup current_asg_details] ;;
     ret (Some current_asg_details))
    ValueError_class
    (fun e =>
       log ERROR "Error retrieving ASG details: {e}" [VExn e] ;;
       ret None).

(** The statements under [if new_version is not None]. *)
Definition run_refresh (cfg : config) (new_version : version_id) : M unit :=
  log INFO "ASG updated to use new launch template version: {new_version}"
      [VVersion new_version] ;;
  instance_refresh_id <-
    start_instance_refresh (auto_scaling_group cfg) (instance_refresh cfg) ;;
  log INFO "Started instance refresh with ID: {instance_refresh_id}"
      [VStr instance_refresh_id] ;;
  wait_for_instance_refresh (auto_scaling_group cfg) instance_refresh_id ;;
  log INFO "Instance refresh completed successfully" [] ;;
  verify_old_instances_termination (auto_scaling_group cfg) ;;
  log INFO "Old instances have been terminated" [].

(** The second [try] block of [run], with its [except Exception] handler:
    [true] to go on to the last line, [false] when the handler has logged
    the error and [run] returns. *)
Definition run_update (cfg : config) (current_asg_details : asg_details)
  : M bool :=
  try_except
    (new_version <-
       update_auto_scaling_group current_asg_details (ami_id cfg)
         (desired_capacity cfg) (min_size cfg) (max_size cfg) ;;
     match new_version with
     | Some v => run_refresh cfg v
     | None =>
         log INFO "No update required, AMI ID, desired capacity, min size, and max size have not changed" []
     end ;;
     ret true)
    Exception_class
    (fun e =>
       log ERROR "Error updating ASG with new AMI: {e}" [VExn e] ;;
       ret false).

Definition run (cfg : config) : M unit :=
  log INFO "Starting deployment process" [] ;;
  initialize_aws_sdk (aws_region cfg) ;;
  retrieved <- run_retrieve cfg ;;
  match retrieved with
  | None => ret tt
  | Some current_asg_details =>
      go_on <- run_update cfg current_asg_details ;;
      if go_on : bool
      then log INFO "Deployment process completed successfully" []
      else ret tt
  end.

(** ** [scripts/deploy_app.py] *)

(** [main], from the parsed configuration on. *)
Definition main (cfg : config) : M unit := run cfg.

(** The exit status of the interpreter running [main]: 0 when [main]
    returns, 1 when an exception leaves it; none when it does not end. *)
Definition exit_status (o : outcome unit) : option Z :=
  match o with
  | Return _ => Some 0
  | Raise _ => Some 1
  | Hang => None
  end.

(** ** The configuration as a mapping

    [yaml.safe_load] returns a mapping in which a key may be absent.  The
    model keeps the seven keys the program reads; a value that is present
    has the type the program uses it with. *)

Record config_file : Type := {
  file_aws_region : option string;
  file_auto_scaling_group : option string;
  file_ami_id : option string;
  file_desired_capacity : option Z;
  file_min_size : option Z;
  file_max_size : option Z;
  file_instance_refresh : option instance_refresh_config
}.

(** [config[key]]. *)
Definition getitem {A : Type} (key : string) (entry : option A) : M A :=
  match entry with
  | Some v => ret v
  | None => raise (KeyError key)
  end.

(** The attributes [__init__] sets; [self_region] is
    [self.aws_helper.region]. *)
Record Deployment : Type := {
  self_region : string;
  self_config : config_file;
  self_new_ami_id : string;
  self_desired_capacity : Z;
  self_min_size : Z;
  self_max_size : Z;
  self_instance_refresh_config : instance_refresh_config
}.

(** [setup_logging] configures the root logger and writes no record. *)
Definition setup_logging : M unit := ret tt.

(** [Deployment.__init__]. *)
Definition Deployment_init (config : config_file) : M Deployment :=
  region <- getitem "aws_region" (file_aws_region config) ;;
  new_ami_id <- getitem "ami_id" (file_ami_id config) ;;
  desired_capacity <- getitem "desired_capacity"
                              (file_desired_capacity config) ;;
  min_size <- getitem "min_size" (file_min_size config) ;;
  max_size <- getitem "max_size" (file_max_size config) ;;
  instance_refresh_config <- getitem "instance_refresh"
                                     (file_instance_refresh config) ;;
  setup_logging ;;
  ret {| self_region := region;
         self_config := config;
         self_new_ami_id := new_ami_id;
         self_desired_capacity := desired_capacity;
         self_min_size := min_size;
         self_max_size := max_size;
         self_instance_refresh_config := instance_refresh_config |}.

(** [Deployment.run], with [self.config['auto_scaling_group']] read where
    the code reads it: in each of the four calls that take the name. *)
Definition Deployment_run (self : Deployment) : M unit :=
  log INFO "Starting deployment process" [] ;;
  initialize_aws_sdk (self_region self) ;;
  retrieved <-
    try_except
      (asg_name <- getitem "auto_scaling_group"
                           (file_auto_scaling_group (self_config self)) ;;
       current_asg_details <- get_current_asg_details asg_name ;;
       log INFO "ASG Details: {current_asg_details}"
           [VGroup current_asg_details] ;;
       ret (Some current_asg_details))
      ValueError_class
      (fun e =>
         log ERROR "Error retrieving ASG details: {e}" [VExn e] ;;
         ret None) ;;
  match retrieved with
  | None => ret tt
  | Some current_asg_details =>
      go_on <-
        try_except
          (new_version <-
             update_auto_scaling_group current_asg_details
               (self_new_ami_id self) (self_desired_capacity self)
               (self_min_size self) (self_max_size self) ;;
           match new_version with
           | Some v =>
               log INFO "ASG updated to use new launch template version: {new_version}"
                   [VVersion v] ;;
               asg_name <- getitem "auto_scaling_group"
                             (file_auto_scaling_group (self_config self)) ;;
               instance_refresh_id <-
                 start_instance_refresh asg_name
                   (self_instance_refresh_config self) ;;
               log INFO "Started instance refresh with ID: {instance_refresh_id}"
                   [VStr instance_refresh_id] ;;
               asg_name <- getitem "auto_scaling_group"
                             (file_auto_scaling_group (self_config self)) ;;
               wait_for_instance_refresh asg_name instance_refresh_id ;;
               log INFO "Instance refresh completed successfully" [] ;;
               asg_name <- getitem "auto_scaling_group"
                             (file_auto_scaling_group (self_config self)) ;;
               verify_old_instances_termination asg_name ;;
               log INFO "Old instances have been terminated" []
           | None =>
               log INFO "No update required, AMI ID, desired capacity, min size, and max size have not changed" []
           end ;;
           ret true)
          Exception_class
          (fun e =>
             log ERROR "Error updating ASG with new AMI: {e}" [VExn e] ;;
             ret false) ;;
      if go_on : bool
      then log INFO "Deployment process completed successfully" []
      else ret tt
  end.

(** [main] of [scripts/deploy_app.py], from the loaded mapping on. *)
Definition deploy_app (config : config_file) : M unit :=
  deployment <- Deployment_init config ;;
  Deployment_run deployment.

(** The mapping that has every key of [cfg]. *)
Definition file_of (cfg : config) : config_file :=
  {| file_aws_region := Some (aws_region cfg);
     file_auto_scaling_group := Some (auto_scaling_group cfg);
     file_ami_id := Some (ami_id cfg);
     file_desired_capacity := Some (desired_capacity cfg);
     file_min_size := Some (min_size cfg);
     file_max_size := Some (max_size cfg);
     file_instance_refresh := Some (instance_refresh cfg) |}.

(** [key in config]. *)
Definition present {A : Type} (entry : option A) : bool :=
  match entry with
  | Some _ => true
  | None => false
  end.

(** The keys [__init__] reads, in the order it reads them, each with
    whether the mapping has it. *)
Definition init_keys (config : config_file) : list (string * bool) :=
  [("aws_region", present (file_aws_region config));
   ("ami_id", present (file_ami_id config));
   ("desired_capacity", present (file_desired_capacity config));
   ("min_size", present (file_min_size config));
   ("max_size", present (file_max_size config));
   ("instance_refresh", present (file_instance_refresh config))].

(** The first key of the list that the mapping does not have. *)
Definition first_absent (keys : list (string * bool)) : option string :=
  option_map fst (find (fun entry => negb (snd entry)) keys).

(** ** Reading a trace *)

(** The calls that change something in the control plane. *)
Definition mutating (rq : request) : bool :=
  match rq with
  | CreateLaunchTemplateVersion _ _ _ => true
  | UpdateAutoScalingGroup _ _ _ _ _ => true
  | StartInstanceRefresh _ _ _ => true
  | TerminateInstances _ => true
  | DescribeAutoScalingGroups _ => false
  | DescribeLaunchTemplateVersions _ _ => false
  | DescribeInstanceRefreshes _ _ => false
  | DescribeAutoScalingInstances => false
  end.

Definition is_call (e : event) : bool :=
  match e with
  | Call _ _ => true
  | _ => false
  end.

Definition is_mutating_call (e : event) : bool :=
  match e with
  | Call rq _ => mutating rq
  | _ => false
  end.

Definition is_sleep (e : event) : bool :=
  match e with
  | Sleep _ => true
  | _ => false
  end.

(** The last line of [run]. *)
Definition success_marker : event :=
  Log INFO "Deployment process completed successfully" [].

Definition is_success_marker (e : event) : bool :=
  match e with
  | Log INFO message [] =>
      String.eqb message "Deployment process completed successfully"
  | _ => false
  end.

(** The two look-ups: of the group, and of the image of a launch template
    version. *)
Definition is_lookup_call (e : event) : bool :=
  match e with
  | Call (DescribeAutoScalingGroups _) _ => true
  | Call (DescribeLaunchTemplateVersions _ _) _ => true
  | _ => false
  end.

(** An event of a look-up: if it is a call, it is one of the two look-ups;
    it changes nothing; it is not the last line of [run]. *)
Definition read_only (e : event) : Prop :=
  implb (is_call e) (is_lookup_call e) = true
  /\ is_mutating_call e = false
  /\ is_success_marker e = false.

Definition not_marker (e : event) : Prop := is_success_marker e = false.

(** [s'] is [s] after some more events, all of which satisfy [P]. *)
Definition extends_with (P : event -> Prop) (s s' : state) : Prop :=
  exists evs, trace s' = trace s ++ evs /\ Forall P evs.

(** Whatever its result, [m] only adds events that satisfy [P]. *)
Definition emits (P : event -> Prop) {A} (m : M A) : Prop :=
  forall s, extends_with P s (snd (m s)).

(** The two lines [run] starts with. *)
Definition started (s : state) : state :=
  emit (Log INFO "Initializing AWS SDK" [])
       (emit (Log INFO "Starting deployment process" []) s).

(** ** Log records and pieces of trace, by name *)

Definition checking : event :=
  Log INFO "Checking if Auto Scaling Group needs to be updated with new AMI or capacity settings" [].

(** The helper's "nothing changed" line (line 60 of the helpers). *)
Definition no_change : event :=
  Log INFO "AMI ID, desired capacity, min size, and max size have not changed, no update required" [].

(** The orchestrator's "no update required" line. *)
Definition no_update : event :=
  Log INFO "No update required, AMI ID, desired capacity, min size, and max size have not changed" [].

Definition updating : event :=
  Log INFO "Updating Auto Scaling Group with new settings" [].

Definition image_changed : event :=
  Log INFO "AMI ID has changed, creating new version of the launch template" [].

Definition details_logged (d : asg_details) : event :=
  Log INFO "ASG Details: {current_asg_details}" [VGroup d].

Definition updated_logged (v : version_id) : event :=
  Log INFO "ASG updated to use new launch template version: {new_version}"
      [VVersion v].

Definition starting_refresh (asg_name : string) : event :=
  Log INFO "Starting instance refresh for ASG: {asg_name}" [VStr asg_name].

Definition started_logged (instance_refresh_id : string) : event :=
  Log INFO "Started instance refresh with ID: {instance_refresh_id}"
      [VStr instance_refresh_id].

Definition waiting_logged (asg_name instance_refresh_id : string) : event :=
  Log INFO "Waiting for instance refresh {instance_refresh_id} to complete for ASG: {asg_name}"
      [VStr instance_refresh_id; VStr asg_name].

Definition completed_logged : event :=
  Log INFO "Instance refresh completed successfully" [].

Definition verifying_logged (asg_name : string) : event :=
  Log INFO "Verifying that old instances in ASG: {asg_name} are terminated"
      [VStr asg_name].

Definition old_terminated : event :=
  Log INFO "Old instances have been terminated" [].

(** One attempt of [get_current_asg_details] that meets a [ClientError]. *)
Definition failed_attempt (asg_name code : string) : list event :=
  [Log INFO "Retrieving details for Auto Scaling Group: {asg_name}"
       [VStr asg_name];
   Call (DescribeAutoScalingGroups [asg_name]) (Error (ClientError code));
   Log ERROR "ClientError retrieving ASG details: {e}"
       [VExn (ClientError code)]].

(** One iteration of the polling loop that does not end it. *)
Definition poll_again (asg_name instance_refresh_id : string)
  (statuses : list string) : list event :=
  [Call (DescribeInstanceRefreshes asg_name [instance_refresh_id])
        (InstanceRefreshes statuses);
   Log INFO "Instance refresh in progress..." [];
   Sleep 10].

(** The iteration that ends it. *)
Definition poll_last (asg_name instance_refresh_id status : string)
  (others : list string) : list event :=
  [Call (DescribeInstanceRefreshes asg_name [instance_refresh_id])
        (InstanceRefreshes (status :: others));
   Log INFO "Instance refresh {status}" [VStr status]].

(** The status query meets a [ClientError] after some statuses that are not
    terminal. *)
Definition poll_failed (asg_name instance_refresh_id code : string)
  : list event :=
  [Call (DescribeInstanceRefreshes asg_name [instance_refresh_id])
        (Error (ClientError code));
   Log ERROR "ClientError waiting for instance refresh: {e}"
       [VExn (ClientError code)]].

Definition terminate_calls (l : list instance) : list event :=
  map (fun i => Call (TerminateInstances [InstanceId i]) Empty) l.

(** What the control plane answers in an iteration that finds old
    instances: the listing, and an empty answer to each terminate call. *)
Definition reap_responses (asg_name : string) (listing : list instance)
  : list response :=
  AutoScalingInstances listing
  :: map (fun _ => Empty) (old_instances asg_name listing).

(** One iteration of the reaper that finds old instances. *)
Definition reap_again (asg_name : string) (listing : list instance)
  : list event :=
  [Call DescribeAutoScalingInstances (AutoScalingInstances listing);
   Log INFO "Waiting for old instances to terminate..." []]
  ++ terminate_calls (old_instances asg_name listing)
  ++ [Sleep 30].

(** The iteration that finds none. *)
Definition reap_last (listing : list instance) : list event :=
  [Call DescribeAutoScalingInstances (AutoScalingInstances listing);
   Log INFO "Old instances have been terminated" []].

(** The update of the group was throttled after version [new_version] had
    been created: the state in which the decorator calls the helper again. *)
Definition after_failed_update (d : asg_details) (lt : launch_template)
  (new_ami_id : string) (desired mn mx : Z) (new_version : Z) (code : string)
  (rest : list response) (s1 : state) : state :=
  {| script := rest;
     trace := trace s1 ++
       [updating; image_changed;
        Call (CreateLaunchTemplateVersion (LaunchTemplateId lt) (Version lt)
                new_ami_id)
             (LaunchTemplateVersion new_version);
        Call (UpdateAutoScalingGroup (AutoScalingGroupName d) desired mn mx
                (Some {| LaunchTemplateId := LaunchTemplateId lt;
                         Version := str new_version |}))
             (Error (ClientError code));
        Log ERROR "ClientError updating Auto Scaling Group: {e}"
            [VExn (ClientError code)];
        Sleep 2] |}.

(** ** What the statements speak of *)

Definition is_error (rs : response) : bool :=
  match rs with
  | Error _ => true
  | _ => false
  end.

(** The group is in the response: a non-empty ['AutoScalingGroups']. *)
Definition resolves (rs : response) : bool :=
  match rs with
  | AutoScalingGroups (_ :: _) => true
  | _ => false
  end.

(** A response of the status query whose first refresh is not in a
    terminal status. *)
Definition in_progress (statuses : list string) : bool :=
  match statuses with
  | status :: _ => negb (is_terminal status)
  | [] => false
  end.

Definition is_create_call (e : event) : bool :=
  match e with
  | Call (CreateLaunchTemplateVersion _ _ _) _ => true
  | _ => false
  end.

Definition is_update_call (e : event) : bool :=
  match e with
  | Call (UpdateAutoScalingGroup _ _ _ _ _) _ => true
  | _ => false
  end.

Definition is_terminate_call (e : event) : bool :=
  match e with
  | Call (TerminateInstances _) _ => true
  | _ => false
  end.

Definition is_listing_call (e : event) : bool :=
  match e with
  | Call DescribeAutoScalingInstances _ => true
  | _ => false
  end.

(** Every call among [evs] is one of the two look-ups, and none is a
    mutating call. *)
Definition only_lookups (evs : list event) : Prop :=
  Forall (fun e => is_call e = true -> is_lookup_call e = true) evs
  /\ filter is_mutating_call evs = [].

(** [s'] is [s] after events that satisfy [P], followed by [tail]. *)
Definition ends_in (P : event -> Prop) (tail : list event) (s s' : state)
  : Prop :=
  exists before, Forall P before /\ trace s' = trace s ++ before ++ tail.

(** What is left of [run] after the group was updated to [v]. *)
Definition run_from_refresh (cfg : config) (v : version_id) : M unit :=
  go_on <- try_except
             (run_refresh cfg v ;; ret true)
             Exception_class
             (fun e =>
                log ERROR "Error updating ASG with new AMI: {e}" [VExn e] ;;
                ret false) ;;
  if go_on : bool
  then log INFO "Deployment process completed successfully" []
  else ret tt.

(** [run] ended by logging [e] under [message] at the state [failed_at] in
    which a stage raised it, and returned: the interpreter exits with
    status 0, and the success line is not among the events of the run. *)
Definition halts_logging (cfg : config) (s : state) (message : string)
  (e : exn) (failed_at : state) : Prop :=
  run cfg s = (Return tt, emit (Log ERROR message [VExn e]) failed_at)
  /\ exit_status (fst (main cfg s)) = Some 0
  /\ forall evs,
      trace (snd (run cfg s)) = trace s ++ evs -> ~ In success_marker evs.

(** [run] ended at the state [failed_at] in which a stage raised [e], with
    [e] leaving it: the interpreter exits with status 1. *)
Definition halts_raising (cfg : config) (s : state) (e : exn)
  (failed_at : state) : Prop :=
  run cfg s = (Raise e, failed_at)
  /\ exit_status (fst (main cfg s)) = Some 1
  /\ forall evs,
      trace (snd (run cfg s)) = trace s ++ evs -> ~ In success_marker evs.

(** ** Scenarios *)

Definition fresh (responses : list response) : state :=
  {| script := responses; trace := [] |}.

Definition template_v1 : launch_template :=
  {| LaunchTemplateId := "lt-0abc"; Version := "1" |}.

(** The group of the tests: image v1 behind its template, capacities 1. *)
Definition test_asg : asg_details :=
  {| AutoScalingGroupName := "test-asg";
     LaunchTemplate := Some template_v1;
     DesiredCapacity := 1; MinSize := 1; MaxSize := 1 |}.

Definition preferences : instance_refresh_config :=
  {| min_healthy_percentage := 90; max_healthy_percentage := 100;
     instance_warmup := 300; skip_matching := true |}.

Definition target (image : string) (capacity : Z) : config :=
  {| aws_region := "us-east-1"; auto_scaling_group := "test-asg";
     ami_id := image; desired_capacity := capacity; min_size := capacity;
     max_size := capacity; instance_refresh := preferences |}.

Definition throttled : response := Error (ClientError "Throttling").

(** An instance of the group on its way out, one in service, and an
    instance of another group that is not in service. *)
Definition instance_old : instance :=
  {| InstanceId := "i-old"; InstanceAutoScalingGroupName := "test-asg";
     LifecycleState := "Terminating" |}.

Definition instance_new : instance :=
  {| InstanceId := "i-new"; InstanceAutoScalingGroupName := "test-asg";
     LifecycleState := "InService" |}.

Definition instance_other : instance :=
  {| InstanceId := "i-other"; InstanceAutoScalingGroupName := "other-asg";
     LifecycleState := "Pending" |}.

(** Scenario A: the group is found and its template resolves to image v1. *)
Definition scenario_A : state :=
  fresh [AutoScalingGroups [test_asg]; LaunchTemplateVersions [Some "ami-v1"]].

(** Scenario B, up to the update: image v1 is resolved, version 2 is
    created, the group is updated. *)
Definition scenario_B : state :=
  fresh [LaunchTemplateVersions [Some "ami-v1"]; LaunchTemplateVersion 2;
         Empty].

(** A whole deployment of image v2 with capacities 2 whose refresh ends
    in the status [status]; the reaper finds nothing to do. *)
Definition deployment_ending_in (status : string) : state :=
  fresh [AutoScalingGroups [test_asg]; LaunchTemplateVersions [Some "ami-v1"];
         LaunchTemplateVersion 2; Empty; InstanceRefreshId "refresh-1";
         InstanceRefreshes [status];
         AutoScalingInstances []].

(** A deployment of image v2 in which the status query answers with no
    refresh at all. *)
Definition scenario_no_refresh : state :=
  fresh [AutoScalingGroups [test_asg]; LaunchTemplateVersions [Some "ami-v1"];
         LaunchTemplateVersion 2; Empty; InstanceRefreshId "refresh-1";
         InstanceRefreshes []; Empty].

(** The update of the group is throttled once, after version 2 was
    created; the group's template version is the literal ["1"], which still
    resolves to image v1 when the helper is run again. *)
Definition scenario_throttled_update : state :=
  fresh [LaunchTemplateVersions [Some "ami-v1"]; LaunchTemplateVersion 2;
         throttled;
         LaunchTemplateVersions [Some "ami-v1"]; LaunchTemplateVersion 3;
         Empty].

(** Three status queries are throttled, each one after a query that was
    answered. *)
Definition scenario_throttled_polling : state :=
  fresh [InstanceRefreshes ["Pending"]; throttled;
         InstanceRefreshes ["Pending"]; throttled;
         InstanceRefreshes ["Pending"]; throttled;
         InstanceRefreshes ["Successful"]].

(** ** Further vocabulary: the look-ups and the start of the refresh *)

Definition retrieving_logged (asg_name : string) : event :=
  Log INFO "Retrieving details for Auto Scaling Group: {asg_name}"
      [VStr asg_name].

Definition lookup_logged (launch_template_id launch_template_version : string)
  : event :=
  Log INFO "Retrieving current AMI ID from launch template {launch_template_id} version {launch_template_version}"
      [VStr launch_template_id; VStr launch_template_version].

(** The responses of calls that are throttled, one error code each. *)
Definition throttles (codes : list string) : list response :=
  map (fun code => Error (ClientError code)) codes.

(** One attempt of [get_current_ami_id] that meets a [ClientError]. *)
Definition failed_lookup (launch_template_id launch_template_version
                          code : string) : list event :=
  [lookup_logged launch_template_id launch_template_version;
   Call (DescribeLaunchTemplateVersions launch_template_id
           [launch_template_version])
        (Error (ClientError code));
   Log ERROR "ClientError retrieving AMI ID: {e}" [VExn (ClientError code)]].

(** One attempt of [start_instance_refresh] that meets a [ClientError]. *)
Definition failed_start (asg_name : string) (prefs : instance_refresh_config)
  (code : string) : list event :=
  [starting_refresh asg_name;
   Call (StartInstanceRefresh asg_name "Rolling" prefs)
        (Error (ClientError code));
   Log ERROR "ClientError starting instance refresh: {e}"
       [VExn (ClientError code)]].

(** The attempts that were throttled, each followed by the decorator's
    sleep. *)
Definition throttled_attempts (failed : string -> list event)
  (codes : list string) : list event :=
  flat_map (fun code => failed code ++ [Sleep 2]) codes.

(** ** Further vocabulary: the requests a helper may send *)

(** Every call among the events is a request that [allowed] admits. *)
Definition calls_only (allowed : request -> Prop) (e : event) : Prop :=
  match e with
  | Call rq _ => allowed rq
  | _ => True
  end.

(** The requests of [update_auto_scaling_group] for the group [d] and the
    targets: the look-up of the image of the group's template version, the
    creation of a version from that version with the target image, the
    update of the group, by its own name, with the target capacities and
    either no template or a version of the group's template. *)
Definition update_request (d : asg_details) (new_ami_id : string)
  (desired mn mx : Z) (rq : request) : Prop :=
  match LaunchTemplate d with
  | None => False
  | Some lt =>
      rq = DescribeLaunchTemplateVersions (LaunchTemplateId lt) [Version lt]
      \/ rq = CreateLaunchTemplateVersion (LaunchTemplateId lt) (Version lt)
                new_ami_id
      \/ exists template,
          rq = UpdateAutoScalingGroup (AutoScalingGroupName d) desired mn mx
                 template
          /\ (template = None
              \/ exists new_version,
                  template = Some {| LaunchTemplateId := LaunchTemplateId lt;
                                     Version := str new_version |})
  end.

(** ** Further vocabulary: a trace read by an automaton *)

(** An automaton reads the events one by one from the state [st]; [None]
    is an event it does not admit. *)
Fixpoint reads {St : Type} (step : St -> event -> option St) (st : St)
  (evs : list event) : option St :=
  match evs with
  | [] => Some st
  | e :: evs' =>
      match step st e with
      | Some st' => reads step st' evs'
      | None => None
      end
  end.

(** From any state of the program, and any state of the automaton that
    satisfies [P], the automaton admits the events the computation adds, and
    ends in a state that satisfies [Q] for the outcome of the computation. *)
Definition admits {St A : Type} (step : St -> event -> option St)
  (P : St -> Prop) (m : M A) (Q : outcome A -> St -> Prop) : Prop :=
  forall s st, P st ->
    exists evs st',
      trace (snd (m s)) = trace s ++ evs
      /\ reads step st evs = Some st'
      /\ Q (fst (m s)) st'.

(** What a client call gives its caller for a response. *)
Definition outcome_of (rs : response) : outcome response :=
  match rs with
  | Error e => Raise e
  | _ => Return rs
  end.

(** ** Further vocabulary: what the reaper may terminate *)

(** [i] is an instance of the group that is not in service. *)
Definition stale (asg_name : string) (i : instance) : bool :=
  String.eqb (InstanceAutoScalingGroupName i) asg_name
  && negb (String.eqb (LifecycleState i) "InService").

(** The automaton keeps the instances of the latest listing.  A listing
    replaces them; a terminate call is admitted for one instance id, of a
    stale instance of the latest listing; no other call is admitted. *)
Definition reaper_step (asg_name : string) (listed : list instance)
  (e : event) : option (list instance) :=
  match e with
  | Call DescribeAutoScalingInstances (AutoScalingInstances l) => Some l
  | Call DescribeAutoScalingInstances _ => Some []
  | Call (TerminateInstances [id]) _ =>
      if existsb (fun i => String.eqb (InstanceId i) id && stale asg_name i)
                 listed
      then Some listed
      else None
  | Call _ _ => None
  | _ => Some listed
  end.

(** A postcondition that tells a returned value from the other outcomes. *)
Definition post {St A : Type} (returned : A -> St -> Prop)
  (otherwise : St -> Prop) (o : outcome A) (st : St) : Prop :=
  match o with
  | Return a => returned a st
  | _ => otherwise st
  end.

(** ** Further vocabulary: the order of the calls of a run *)

(** How far a run has come, as its calls and their answers show it. *)
Inductive phase : Type :=
| Looking                   (* no group has been found *)
| Found (d : asg_details)   (* the group was found, with this snapshot *)
| Updated                   (* an update call of the group was answered *)
| Started (id : string)     (* a refresh was started, with this id *)
| Refreshed.                (* a status query showed a terminal status *)

Definition preferences_eqb (p q : instance_refresh_config) : bool :=
  Z.eqb (min_healthy_percentage p) (min_healthy_percentage q)
  && Z.eqb (max_healthy_percentage p) (max_healthy_percentage q)
  && Z.eqb (instance_warmup p) (instance_warmup q)
  && Bool.eqb (skip_matching p) (skip_matching q).

(** The calls a run of [cfg] may make in each phase, and the phase that
    the answer leads to:
    - [Looking]: the look-up of the configured group; an answer with a
      group leads to [Found];
    - [Found d]: look-ups of template versions, creations of a version with
      the configured image, updates of the group named in the snapshot with
      the configured capacities; an update that is answered leads to
      [Updated];
    - [Updated]: starts of a rolling refresh of the configured group with
      the configured preferences; an answer with an id leads to [Started];
    - [Started id]: status queries of that refresh of the configured group;
      an answer with a terminal status leads to [Refreshed];
    - [Refreshed]: listings of instances and terminate calls.
    Log records and sleeps are admitted in every phase. *)
Definition protocol_step (cfg : config) (ph : phase) (e : event)
  : option phase :=
  match e with
  | Call rq rs =>
      match ph, rq with
      | Looking, DescribeAutoScalingGroups [name] =>
          if String.eqb name (auto_scaling_group cfg)
          then Some match rs with
                    | AutoScalingGroups (g :: _) => Found g
                    | _ => Looking
                    end
          else None
      | Found d, DescribeLaunchTemplateVersions _ _ => Some (Found d)
      | Found d, CreateLaunchTemplateVersion _ _ image =>
          if String.eqb image (ami_id cfg) then Some (Found d) else None
      | Found d, UpdateAutoScalingGroup name desired mn mx _ =>
          if String.eqb name (AutoScalingGroupName d)
             && Z.eqb desired (desired_capacity cfg)
             && Z.eqb mn (min_size cfg)
             && Z.eqb mx (max_size cfg)
          then Some match rs with
                    | Error _ => Found d
                    | _ => Updated
                    end
          else None
      | Updated, StartInstanceRefresh name strategy prefs =>
          if String.eqb name (auto_scaling_group cfg)
             && String.eqb strategy "Rolling"
             && preferences_eqb prefs (instance_refresh cfg)
          then Some match rs with
                    | InstanceRefreshId id => Started id
                    | _ => Updated
                    end
          else None
      | Started id, DescribeInstanceRefreshes name [id'] =>
          if String.eqb name (auto_scaling_group cfg) && String.eqb id' id
          then Some match rs with
                    | InstanceRefreshes (status :: _) =>
                        if is_terminal status then Refreshed else Started id
                    | _ => Started id
                    end
          else None
      | Refreshed, DescribeAutoScalingInstances => Some Refreshed
      | Refreshed, TerminateInstances _ => Some Refreshed
      | _, _ => None
      end
  | _ => Some ph
  end.

(** The answers that open the stages of a run, among the events [pre]. *)
Definition group_found (cfg : config) (pre : list event) : Prop :=
  exists g groups,
    In (Call (DescribeAutoScalingGroups [auto_scaling_group cfg])
             (AutoScalingGroups (g :: groups))) pre.

Definition update_answered (pre : list event) : Prop :=
  exists name desired mn mx template rs,
    In (Call (UpdateAutoScalingGroup name desired mn mx template) rs) pre
    /\ is_error rs = false.

Definition refresh_started (cfg : config) (id : string) (pre : list event)
  : Prop :=
  In (Call (StartInstanceRefresh (auto_scaling_group cfg) "Rolling"
                                 (instance_refresh cfg))
           (InstanceRefreshId id)) pre.

Definition terminal_seen (cfg : config) (pre : list event) : Prop :=
  exists id status statuses,
    In (Call (DescribeInstanceRefreshes (auto_scaling_group cfg) [id])
             (InstanceRefreshes (status :: statuses))) pre
    /\ is_terminal status = true.

(** What has been answered when the automaton is in a phase. *)
Definition opened (cfg : config) (ph : phase) (pre : list event) : Prop :=
  match ph with
  | Looking => True
  | Found _ => group_found cfg pre
  | Updated => update_answered pre
  | Started id => refresh_started cfg id pre
  | Refreshed => terminal_seen cfg pre
  end.

(** What must have been answered before a request is sent: a group for the
    requests of the update, an update for the start of a refresh, the start
    of the refresh for its status query, a terminal status for the listing
    and the termination of instances. *)
Definition needs (cfg : config) (rq : request) (pre : list event) : Prop :=
  match rq with
  | DescribeAutoScalingGroups _ => True
  | DescribeLaunchTemplateVersions _ _ => group_found cfg pre
  | CreateLaunchTemplateVersion _ _ _ => group_found cfg pre
  | UpdateAutoScalingGroup _ _ _ _ _ => group_found cfg pre
  | StartInstanceRefresh _ _ _ => update_answered pre
  | DescribeInstanceRefreshes _ ids =>
      exists id, ids = [id] /\ refresh_started cfg id pre
  | DescribeAutoScalingInstances => terminal_seen cfg pre
  | TerminateInstances _ => terminal_seen cfg pre
  end.

(** ** Further vocabulary: how many calls *)

Definition is_group_lookup_call (e : event) : bool :=
  match e with
  | Call (DescribeAutoScalingGroups _) _ => true
  | _ => false
  end.

Definition is_template_lookup_call (e : event) : bool :=
  match e with
  | Call (DescribeLaunchTemplateVersions _ _) _ => true
  | _ => false
  end.

Definition is_start_call (e : event) : bool :=
  match e with
  | Call (StartInstanceRefresh _ _ _) _ => true
  | _ => false
  end.

(** Whatever the state, the computation adds at most [n] events that
    satisfy [f]. *)
Definition at_most {A : Type} (f : event -> bool) (n : nat) (m : M A)
  : Prop :=
  forall s,
    exists evs,
      trace (snd (m s)) = trace s ++ evs
      /\ (List.length (filter f evs) <= n)%nat.

(** The requests of the reaper. *)
Definition reaper_request (rq : request) : Prop :=
  rq = DescribeAutoScalingInstances \/ exists ids, rq = TerminateInstances ids.

(** ** Further vocabulary: what a computation waits for *)

(** A computation that has not ended is waiting for an answer that the
    script does not have: it has read every response there is. *)
Definition blocks_on_call {A : Type} (m : M A) : Prop :=
  forall s, fst (m s) = Hang -> script (snd (m s)) = [].

(** * Proofs *)

(** ** Basic facts *)

Section Monad_facts.

Context {A B : Type}.

Lemma bind_Return (m : M A) (k : A -> M B) s a s' :
  m s = (Return a, s') -> bind m k s = k a s'.
Proof. intros H. unfold bind. now rewrite H. Qed.

Lemma bind_Raise (m : M A) (k : A -> M B) s e s' :
  m s = (Raise e, s') -> bind m k s = (Raise e, s').
Proof. intros H. unfold bind. now rewrite H. Qed.

Lemma bind_Hang (m : M A) (k : A -> M B) s s' :
  m s = (Hang, s') -> bind m k s = (Hang, s').
Proof. intros H. unfold bind. now rewrite H. Qed.

Lemma bind_Return_inv (m : M A) (k : A -> M B) s b s' :
  bind m k s = (Return b, s') ->
  exists a s1, m s = (Return a, s1) /\ k a s1 = (Return b, s').
Proof.
  unfold bind. destruct (m s) as [[a | e |] s1]; intros H; try discriminate.
  now exists a, s1.
Qed.

End Monad_facts.

Section Try_facts.

Context {A : Type} (body : M A) (cls : exn -> bool) (handler : exn -> M A).

Lemma try_Return s a s' :
  body s = (Return a, s') -> try_except body cls handler s = (Return a, s').
Proof. intros H. unfold try_except. now rewrite H. Qed.

Lemma try_Hang s s' :
  body s = (Hang, s') -> try_except body cls handler s = (Hang, s').
Proof. intros H. unfold try_except. now rewrite H. Qed.

Lemma try_caught s e s' :
  body s = (Raise e, s') -> cls e = true ->
  try_except body cls handler s = handler e s'.
Proof. intros H He. unfold try_except. now rewrite H, He. Qed.

Lemma try_passed s e s' :
  body s = (Raise e, s') -> cls e = false ->
  try_except body cls handler s = (Raise e, s').
Proof. intros H He. unfold try_except. now rewrite H, He. Qed.

(** A handler that raises again never turns a failure into a result. *)
Lemma try_Return_inv s a s' :
  (forall e s1 r s2, handler e s1 <> (Return r, s2)) ->
  try_except body cls handler s = (Return a, s') ->
  body s = (Return a, s').
Proof.
  intros Hh. unfold try_except.
  destruct (body s) as [[x | e |] s1]; try discriminate; auto.
  destruct (cls e); try discriminate. intros H. now apply Hh in H.
Qed.

End Try_facts.

(** *** The decorator, attempt by attempt *)

Section Retry_facts.

Context {A : Type} (f : M A).

Lemma retrying_Return budget n s a s' :
  f s = (Return a, s') -> retrying budget n f s = (Return a, s').
Proof. intros H. destruct budget; simpl; now rewrite H. Qed.

Lemma retrying_Hang budget n s s' :
  f s = (Hang, s') -> retrying budget n f s = (Hang, s').
Proof. intros H. destruct budget; simpl; now rewrite H. Qed.

Lemma retrying_other budget n s e s' :
  f s = (Raise e, s') -> retry_if_exception_type ClientError_class e = false ->
  retrying budget n f s = (Raise e, s').
Proof. intros H He. destruct budget; simpl; now rewrite H, He. Qed.

Lemma retrying_again budget n s code s' :
  f s = (Raise (ClientError code), s') -> stop_after_attempt 3 n = false ->
  retrying (S budget) n f s =
  retrying budget (S n) f (emit (Sleep (wait_exponential 1 2 10 n)) s').
Proof. intros H Hn. cbn [retrying]. now rewrite H, Hn. Qed.

Lemma retrying_stop budget n s code s' :
  f s = (Raise (ClientError code), s') -> stop_after_attempt 3 n = true ->
  retrying budget n f s = (Raise (RetryError (ClientError code)), s').
Proof. intros H Hn. destruct budget; cbn [retrying]; now rewrite H, Hn. Qed.

Lemma retry_Return s a s' :
  f s = (Return a, s') -> retry f s = (Return a, s').
Proof. apply retrying_Return. Qed.

Lemma retry_Hang s s' : f s = (Hang, s') -> retry f s = (Hang, s').
Proof. apply retrying_Hang. Qed.

Lemma retry_other s e s' :
  f s = (Raise e, s') -> retry_if_exception_type ClientError_class e = false ->
  retry f s = (Raise e, s').
Proof. apply retrying_other. Qed.

(** The budget [retry] starts with is never the reason to stop: the loop
    run with any larger budget does the same. *)
Lemma retrying_budget budget n s :
  (3 <= budget + n)%nat -> retrying budget n f s = retrying (3 - n) n f s.
Proof.
  revert n s. induction budget as [| budget IH]; intros n s Hn.
  - destruct (3 - n)%nat eqn:E; [reflexivity | lia].
  - destruct (3 - n)%nat as [| k] eqn:E; cbn [retrying];
      destruct (f s) as [[a | e |] s']; try reflexivity;
      destruct (negb _); try reflexivity.
    + replace (stop_after_attempt 3 n) with true; [reflexivity |].
      symmetry. apply Nat.leb_le. lia.
    + destruct (stop_after_attempt 3 n); try reflexivity.
      unfold bind, sleep. rewrite IH by lia.
      replace (3 - S n)%nat with k by lia. reflexivity.
Qed.

Lemma retry_budget budget s :
  (2 <= budget)%nat -> retrying budget 1 f s = retry f s.
Proof.
  intros H. unfold retry.
  rewrite (retrying_budget budget), (retrying_budget 3) by lia. reflexivity.
Qed.

End Retry_facts.

(** *** What a computation adds to the trace *)

Section Extends_facts.

Variable P : event -> Prop.

Lemma extends_refl s : extends_with P s s.
Proof. exists []. split; [now rewrite app_nil_r | constructor]. Qed.

Lemma extends_trans s1 s2 s3 :
  extends_with P s1 s2 -> extends_with P s2 s3 -> extends_with P s1 s3.
Proof.
  intros (e1 & H1 & F1) (e2 & H2 & F2). exists (e1 ++ e2). split.
  - now rewrite H2, H1, app_assoc.
  - apply Forall_app. now split.
Qed.

Lemma extends_emit e s : P e -> extends_with P s (emit e s).
Proof. intros H. exists [e]. split; [reflexivity | now constructor]. Qed.

Lemma extends_emit_r e s s' :
  P e -> extends_with P s s' -> extends_with P s (emit e s').
Proof. intros H H'. eapply extends_trans; eauto using extends_emit. Qed.

Context {A : Type}.

Lemma emits_ret (a : A) : emits P (ret a).
Proof. intros s. apply extends_refl. Qed.

Lemma emits_raise e : emits P (@raise A e).
Proof. intros s. apply extends_refl. Qed.

Lemma emits_hang : emits P (fun s => (@Hang A, s)).
Proof. intros s. apply extends_refl. Qed.

Lemma emits_log lvl message args :
  P (Log lvl message args) -> emits P (log lvl message args).
Proof. intros H s. now apply extends_emit. Qed.

Lemma emits_sleep seconds : P (Sleep seconds) -> emits P (sleep seconds).
Proof. intros H s. now apply extends_emit. Qed.

Lemma emits_client_call rq :
  (forall rs, P (Call rq rs)) -> emits P (client_call rq).
Proof.
  intros H s. unfold client_call.
  destruct (script s) as [| rs rest]; [apply extends_refl |].
  destruct rs; (eexists [_]; split; [reflexivity | constructor; auto]).
Qed.

Lemma emits_bind {B} (m : M A) (k : A -> M B) :
  emits P m -> (forall a, emits P (k a)) -> emits P (bind m k).
Proof.
  intros Hm Hk s. specialize (Hm s). unfold bind.
  destruct (m s) as [[a | e |] s1]; simpl in *; auto.
  eapply extends_trans; [exact Hm | apply Hk].
Qed.

Lemma emits_try (body : M A) cls handler :
  emits P body -> (forall e, emits P (handler e)) ->
  emits P (try_except body cls handler).
Proof.
  intros Hb Hh s. specialize (Hb s). unfold try_except.
  destruct (body s) as [[a | e |] s1]; simpl in *; auto.
  destruct (cls e); simpl; auto.
  eapply extends_trans; [exact Hb | apply Hh].
Qed.

Lemma emits_retrying budget n (f : M A) :
  (forall seconds, P (Sleep seconds)) -> emits P f ->
  emits P (retrying budget n f).
Proof.
  intros Hs Hf. revert n. induction budget as [| budget IH]; intros n s;
    cbn [retrying]; pose proof (Hf s) as H;
    destruct (f s) as [[a | e |] s1]; cbn [snd] in *; auto;
    destruct (negb _); cbn [snd]; auto;
    destruct (stop_after_attempt 3 n); cbn [snd]; auto.
  unfold bind, sleep.
  eapply extends_trans; [exact H |].
  eapply extends_trans; [apply extends_emit, Hs | apply IH].
Qed.

Lemma emits_retry (f : M A) :
  (forall seconds, P (Sleep seconds)) -> emits P f -> emits P (retry f).
Proof. apply emits_retrying. Qed.

(** A loop run with the fuel the state gives. *)
Lemma emits_fuel (loop : nat -> M A) :
  (forall fuel, emits P (loop fuel)) ->
  emits P (fun s => loop (enough_fuel s) s).
Proof. intros H s. apply H. Qed.

End Extends_facts.

Lemma extends_weaken (P Q : event -> Prop) s s' :
  (forall e, P e -> Q e) -> extends_with P s s' -> extends_with Q s s'.
Proof.
  intros HPQ (evs & H & F). exists evs. split; [exact H |].
  eapply Forall_impl; eauto.
Qed.

Lemma emits_weaken (P Q : event -> Prop) {A} (m : M A) :
  (forall e, P e -> Q e) -> emits P m -> emits Q m.
Proof. intros HPQ H s. eapply extends_weaken; eauto. Qed.

Lemma read_only_not_marker e : read_only e -> not_marker e.
Proof. now intros (_ & _ & H). Qed.

(** One step of a proof that a computation only adds events satisfying a
    predicate: follow the structure of the computation. *)
Ltac emits_step :=
  lazymatch goal with
  | |- emits _ (bind _ _) => apply emits_bind; [| intros ?]
  | |- emits _ (ret _) => apply emits_ret
  | |- emits _ (raise _) => apply emits_raise
  | |- emits _ (log _ _ _) => apply emits_log
  | |- emits _ (sleep _) => apply emits_sleep
  | |- emits _ (client_call _) => apply emits_client_call; intros ?
  | |- emits _ (try_except _ _ _) => apply emits_try; [| intros ?]
  | |- emits _ (retry _) => apply emits_retry; [intros ? |]
  | |- emits _ (fun s => (Hang, s)) => apply emits_hang
  | |- emits _ (getitem_LaunchTemplate ?d) =>
      unfold getitem_LaunchTemplate; destruct (LaunchTemplate d)
  | |- emits _ (match ?x with _ => _ end) => destruct x
  | |- read_only _ => repeat split; reflexivity
  | |- not_marker _ => reflexivity
  end.

Ltac emits_auto := repeat emits_step.

(** *** The helpers, one by one *)

Lemma get_current_asg_details_emits asg_name :
  emits read_only (get_current_asg_details asg_name).
Proof.
  unfold get_current_asg_details, get_current_asg_details_body. emits_auto.
Qed.

Lemma get_current_ami_id_emits id version :
  emits read_only (get_current_ami_id id version).
Proof. unfold get_current_ami_id, get_current_ami_id_body. emits_auto. Qed.

Lemma update_auto_scaling_group_emits d new_ami_id desired mn mx :
  emits not_marker (update_auto_scaling_group d new_ami_id desired mn mx).
Proof.
  unfold update_auto_scaling_group, update_auto_scaling_group_body.
  emits_auto.
  eapply emits_weaken;
    [apply read_only_not_marker | apply get_current_ami_id_emits].
Qed.

Lemma start_instance_refresh_emits asg_name prefs :
  emits not_marker (start_instance_refresh asg_name prefs).
Proof.
  unfold start_instance_refresh, start_instance_refresh_body. emits_auto.
Qed.

Lemma poll_instance_refresh_emits fuel asg_name id :
  emits not_marker (poll_instance_refresh fuel asg_name id).
Proof.
  induction fuel as [| fuel IH]; cbn [poll_instance_refresh]; emits_auto.
  exact IH.
Qed.

Lemma wait_for_instance_refresh_emits asg_name id :
  emits not_marker (wait_for_instance_refresh asg_name id).
Proof.
  unfold wait_for_instance_refresh, wait_for_instance_refresh_body.
  emits_auto.
  apply (emits_fuel (fun fuel => poll_instance_refresh fuel _ _)).
  intros fuel. apply poll_instance_refresh_emits.
Qed.

Lemma terminate_each_emits l : emits not_marker (terminate_each l).
Proof. induction l as [| i l IH]; cbn [terminate_each]; emits_auto. exact IH. Qed.

Lemma reap_old_instances_emits fuel asg_name :
  emits not_marker (reap_old_instances fuel asg_name).
Proof.
  induction fuel as [| fuel IH]; cbn [reap_old_instances]; emits_auto;
    try apply terminate_each_emits; exact IH.
Qed.

Lemma verify_old_instances_termination_emits asg_name :
  emits not_marker (verify_old_instances_termination asg_name).
Proof.
  unfold verify_old_instances_termination,
    verify_old_instances_termination_body.
  emits_auto.
  apply (emits_fuel (fun fuel => reap_old_instances fuel _)).
  intros fuel. apply reap_old_instances_emits.
Qed.

Lemma run_refresh_emits cfg v : emits not_marker (run_refresh cfg v).
Proof.
  unfold run_refresh. emits_auto.
  - apply start_instance_refresh_emits.
  - apply wait_for_instance_refresh_emits.
  - apply verify_old_instances_termination_emits.
Qed.

Lemma run_update_emits cfg d : emits not_marker (run_update cfg d).
Proof.
  unfold run_update. emits_auto.
  - apply update_auto_scaling_group_emits.
  - apply run_refresh_emits.
Qed.

Lemma run_retrieve_emits cfg : emits read_only (run_retrieve cfg).
Proof.
  unfold run_retrieve. emits_auto. apply get_current_asg_details_emits.
Qed.

(** *** Client calls on a known script *)

Lemma client_call_answered rq s rs rest :
  script s = rs :: rest -> is_error rs = false ->
  client_call rq s =
  (Return rs, {| script := rest; trace := trace s ++ [Call rq rs] |}).
Proof.
  intros H He. unfold client_call. rewrite H.
  destruct rs; try reflexivity; discriminate.
Qed.

Lemma client_call_failed rq s e rest :
  script s = Error e :: rest ->
  client_call rq s =
  (Raise e, {| script := rest; trace := trace s ++ [Call rq (Error e)] |}).
Proof. intros H. unfold client_call. now rewrite H. Qed.

Lemma unchanged_true d current new desired mn mx :
  unchanged d current new desired mn mx = true <->
  current = new /\ DesiredCapacity d = desired /\ MinSize d = mn
  /\ MaxSize d = mx.
Proof.
  unfold unchanged. rewrite !andb_true_iff, String.eqb_eq, !Z.eqb_eq. tauto.
Qed.

(** *** Running a computation step by step *)

Lemma bind_log {B} lvl message args (k : unit -> M B) s :
  bind (log lvl message args) k s = k tt (emit (Log lvl message args) s).
Proof. reflexivity. Qed.

Lemma bind_sleep {B} seconds (k : unit -> M B) s :
  bind (sleep seconds) k s = k tt (emit (Sleep seconds) s).
Proof. reflexivity. Qed.

Lemma bind_ret {A B} (a : A) (k : A -> M B) s : bind (ret a) k s = k a s.
Proof. reflexivity. Qed.

Lemma bind_raise {A B} e (k : A -> M B) s :
  bind (raise e) k s = (Raise e, s).
Proof. reflexivity. Qed.

Lemma bind_bind {A B C} (m : M A) (k1 : A -> M B) (k2 : B -> M C) s :
  bind (bind m k1) k2 s = bind m (fun a => bind (k1 a) k2) s.
Proof. unfold bind. now destruct (m s) as [[a | e |] s']. Qed.

(** Run the logs, sleeps and returns at the head of a computation. *)
Ltac run_head :=
  repeat first [ progress cbv beta iota
               | rewrite bind_bind | rewrite bind_log | rewrite bind_sleep
               | rewrite bind_ret | rewrite bind_raise ].

(** Two ways to write the same final state. *)
Ltac same_state :=
  unfold emit; cbn [trace script fst snd]; rewrite <- ?app_assoc;
  cbn [app]; rewrite <- ?app_assoc; reflexivity.

(** The next call is answered by [rs], the head of the script. *)
Ltac run_call Hscript Hrs :=
  erewrite bind_Return
    by (apply client_call_answered; [cbn; exact Hscript | exact Hrs]);
  run_head.

(** ** The three cases of [update_auto_scaling_group] *)

Section Update_cases.

Variables (d : asg_details) (lt : launch_template).
Variables (new_ami_id : string) (desired mn mx : Z).
Variables (s s1 : state) (current_ami_id : string).

Hypothesis template : LaunchTemplate d = Some lt.
Hypothesis resolved :
  get_current_ami_id (LaunchTemplateId lt) (Version lt) (emit checking s)
  = (Return current_ami_id, s1).

Lemma update_body_resolved :
  update_auto_scaling_group_body d new_ami_id desired mn mx s =
  try_except
    (if unchanged d current_ami_id new_ami_id desired mn mx
     then log INFO "AMI ID, desired capacity, min size, and max size have not changed, no update required" [] ;;
          ret None
     else
       log INFO "Updating Auto Scaling Group with new settings" [] ;;
       params <-
         (if negb (String.eqb current_ami_id new_ami_id)
          then
            log INFO "AMI ID has changed, creating new version of the launch template" [] ;;
            response <- client_call
                          (CreateLaunchTemplateVersion (LaunchTemplateId lt)
                             (Version lt) new_ami_id) ;;
            match response with
            | LaunchTemplateVersion new_version =>
                ret (Some {| LaunchTemplateId := LaunchTemplateId lt;
                             Version := str new_version |},
                     Some new_version)
            | _ => raise (KeyError "LaunchTemplateVersion")
            end
          else ret (None, None)) ;;
       client_call (UpdateAutoScalingGroup (AutoScalingGroupName d)
                      desired mn mx (fst params)) ;;
       ret (Some match snd params with
                 | Some new_version => VersionNumber new_version
                 | None => VersionToken (Version lt)
                 end))
    ClientError_class
    (fun e =>
       log ERROR "ClientError updating Auto Scaling Group: {e}" [VExn e] ;;
       raise e)
    s1.
Proof.
  unfold update_auto_scaling_group_body. rewrite bind_log.
  unfold try_except at 1 2. unfold getitem_LaunchTemplate.
  rewrite template, bind_ret. cbv zeta.
  unfold checking in resolved. unfold bind at 1. rewrite resolved.
  reflexivity.
Qed.

(** Nothing changed. *)
Lemma update_unchanged :
  unchanged d current_ami_id new_ami_id desired mn mx = true ->
  update_auto_scaling_group d new_ami_id desired mn mx s =
  (Return None, emit no_change s1).
Proof.
  intros H. apply retry_Return. rewrite update_body_resolved.
  apply try_Return. now rewrite H.
Qed.

(** The image changed, and the control plane answers the two calls. *)
Lemma update_body_image_changed new_version rs rest :
  current_ami_id <> new_ami_id ->
  script s1 = LaunchTemplateVersion new_version :: rs :: rest ->
  is_error rs = false ->
  update_auto_scaling_group_body d new_ami_id desired mn mx s =
  (Return (Some (VersionNumber new_version)),
   {| script := rest;
      trace := trace s1 ++
        [updating; image_changed;
         Call (CreateLaunchTemplateVersion (LaunchTemplateId lt)
                 (Version lt) new_ami_id)
              (LaunchTemplateVersion new_version);
         Call (UpdateAutoScalingGroup (AutoScalingGroupName d) desired mn mx
                 (Some {| LaunchTemplateId := LaunchTemplateId lt;
                          Version := str new_version |}))
              rs] |}).
Proof.
  intros Hne Hs Hrs. rewrite update_body_resolved.
  apply try_Return.
  apply String.eqb_neq in Hne.
  replace (unchanged d current_ami_id new_ami_id desired mn mx) with false
    by (unfold unchanged; now rewrite Hne).
  rewrite Hne. cbn [negb]. run_head.
  run_call Hs (eq_refl false). run_head.
  run_call (eq_refl (rs :: rest)) Hrs.
  unfold ret, updating, image_changed. cbn [fst snd script trace emit].
  now rewrite <- !app_assoc.
Qed.

Lemma update_image_changed new_version rs rest :
  current_ami_id <> new_ami_id ->
  script s1 = LaunchTemplateVersion new_version :: rs :: rest ->
  is_error rs = false ->
  update_auto_scaling_group d new_ami_id desired mn mx s =
  (Return (Some (VersionNumber new_version)),
   {| script := rest;
      trace := trace s1 ++
        [updating; image_changed;
         Call (CreateLaunchTemplateVersion (LaunchTemplateId lt)
                 (Version lt) new_ami_id)
              (LaunchTemplateVersion new_version);
         Call (UpdateAutoScalingGroup (AutoScalingGroupName d) desired mn mx
                 (Some {| LaunchTemplateId := LaunchTemplateId lt;
                          Version := str new_version |}))
              rs] |}).
Proof.
  intros Hne Hs Hrs. apply retry_Return.
  now apply update_body_image_changed.
Qed.

(** The image changed, the version is created, and the update of the
    group meets a [ClientError]. *)
Lemma update_body_update_failed new_version code rest :
  current_ami_id <> new_ami_id ->
  script s1 = LaunchTemplateVersion new_version
              :: Error (ClientError code) :: rest ->
  update_auto_scaling_group_body d new_ami_id desired mn mx s =
  (Raise (ClientError code),
   {| script := rest;
      trace := trace s1 ++
        [updating; image_changed;
         Call (CreateLaunchTemplateVersion (LaunchTemplateId lt)
                 (Version lt) new_ami_id)
              (LaunchTemplateVersion new_version);
         Call (UpdateAutoScalingGroup (AutoScalingGroupName d) desired mn mx
                 (Some {| LaunchTemplateId := LaunchTemplateId lt;
                          Version := str new_version |}))
              (Error (ClientError code));
         Log ERROR "ClientError updating Auto Scaling Group: {e}"
             [VExn (ClientError code)]] |}).
Proof.
  intros Hne Hs. rewrite update_body_resolved.
  erewrite try_caught with (e := ClientError code); [| | reflexivity].
  2:{ apply String.eqb_neq in Hne.
      replace (unchanged d current_ami_id new_ami_id desired mn mx)
        with false by (unfold unchanged; now rewrite Hne).
      rewrite Hne. cbn [negb]. run_head.
      run_call Hs (eq_refl false). run_head.
      apply bind_Raise. apply client_call_failed. reflexivity. }
  rewrite bind_log. unfold raise, updating, image_changed. same_state.
Qed.

(** The image is the same, a capacity changed, and the control plane
    answers the call. *)
Lemma update_capacity_changed rs rest :
  current_ami_id = new_ami_id ->
  unchanged d current_ami_id new_ami_id desired mn mx = false ->
  script s1 = rs :: rest ->
  is_error rs = false ->
  update_auto_scaling_group d new_ami_id desired mn mx s =
  (Return (Some (VersionToken (Version lt))),
   {| script := rest;
      trace := trace s1 ++
        [updating;
         Call (UpdateAutoScalingGroup (AutoScalingGroupName d) desired mn mx
                 None)
              rs] |}).
Proof.
  intros Heq Hch Hs Hrs. apply retry_Return. rewrite update_body_resolved.
  apply try_Return. rewrite Hch.
  apply String.eqb_eq in Heq. rewrite Heq. cbn [negb]. run_head.
  run_call Hs Hrs.
  unfold ret, updating. cbn [fst snd script trace emit].
  now rewrite <- !app_assoc.
Qed.

End Update_cases.

(** ** Creating the clients *)

Lemma label_before_final_newline name :
  forallb label_char (list_ascii_of_string name) = true ->
  before_final_newline name = name.
Proof.
  induction name as [| c rest IH]; [reflexivity |].
  cbn [list_ascii_of_string forallb]. intros H.
  apply andb_prop in H as [Hc Hr].
  destruct rest as [| c' rest']; cbn [before_final_newline].
  - destruct (Ascii.eqb c "010"%char) eqn:E; [| reflexivity].
    apply Ascii.eqb_eq in E. subst c. discriminate Hc.
  - f_equal. now apply IH.
Qed.

Lemma host_label_accepted name :
  host_label name = true ->
  validate_region_name name = true
  /\ String.eqb (before_final_newline name) "" = false.
Proof.
  intros H. pose proof H as H'. unfold host_label in H'.
  repeat (apply andb_prop in H' as [H' ?]).
  rewrite negb_true_iff in H'.
  assert (Hb : before_final_newline name = name)
    by now apply label_before_final_newline.
  unfold validate_region_name. rewrite Hb, H, orb_true_r. now split.
Qed.

Lemma boto3_client_created service_name region s :
  host_label region = true ->
  boto3_client service_name region s = (Return tt, s).
Proof.
  intros H. apply host_label_accepted in H as [Hv He].
  unfold boto3_client. now rewrite Hv, He.
Qed.

(** With a host label for a region, the two clients are created. *)
Lemma initialize_aws_sdk_created region s :
  host_label region = true ->
  initialize_aws_sdk region s
  = (Return tt, emit (Log INFO "Initializing AWS SDK" []) s).
Proof.
  intros H. unfold initialize_aws_sdk. rewrite bind_log.
  erewrite bind_Return by (apply boto3_client_created; exact H).
  now apply boto3_client_created.
Qed.

(** Whatever the region, [initialize_aws_sdk] writes its record, makes no
    call, and returns or raises. *)
Lemma initialize_aws_sdk_outcome region s :
  initialize_aws_sdk region s
  = (Return tt, emit (Log INFO "Initializing AWS SDK" []) s)
  \/ exists e,
      initialize_aws_sdk region s
      = (Raise e, emit (Log INFO "Initializing AWS SDK" []) s).
Proof.
  unfold initialize_aws_sdk, boto3_client. rewrite bind_log.
  unfold bind, raise, ret.
  destruct (validate_region_name region); [| right; eauto].
  destruct (String.eqb _ _); [right; eauto | now left].
Qed.

Lemma clients_created cfg s :
  host_label (aws_region cfg) = true ->
  initialize_aws_sdk (aws_region cfg)
    (emit (Log INFO "Starting deployment process" []) s)
  = (Return tt, started s).
Proof. intros H. now apply initialize_aws_sdk_created. Qed.

(** When a client cannot be created, the exception leaves [run] after its
    first two records. *)
Lemma run_not_created cfg s e :
  initialize_aws_sdk (aws_region cfg)
    (emit (Log INFO "Starting deployment process" []) s)
  = (Raise e, started s) ->
  run cfg s = (Raise e, started s).
Proof.
  intros H. unfold run. rewrite bind_log. unfold bind. now rewrite H.
Qed.

(** ** The orchestrator, stage by stage *)

Section Run_stages.

Variables (cfg : config) (s s1 : state) (d : asg_details).

Hypothesis created :
  initialize_aws_sdk (aws_region cfg)
    (emit (Log INFO "Starting deployment process" []) s)
  = (Return tt, started s).

Hypothesis retrieved :
  get_current_asg_details (auto_scaling_group cfg) (started s)
  = (Return d, s1).

Lemma run_retrieved :
  run cfg s =
  (go_on <- run_update cfg d ;;
   if go_on : bool
   then log INFO "Deployment process completed successfully" []
   else ret tt) (emit (details_logged d) s1).
Proof.
  unfold run. rewrite bind_log.
  erewrite bind_Return by exact created.
  unfold run_retrieve, try_except.
  unfold bind at 1 2. now rewrite retrieved.
Qed.

Variable s2 : state.

Lemma run_no_update :
  update_auto_scaling_group d (ami_id cfg) (desired_capacity cfg)
    (min_size cfg) (max_size cfg) (emit (details_logged d) s1)
  = (Return None, s2) ->
  run cfg s = (Return tt, emit success_marker (emit no_update s2)).
Proof.
  intros H. rewrite run_retrieved.
  unfold run_update, try_except. unfold bind at 1 2. now rewrite H.
Qed.

Lemma run_updated v :
  update_auto_scaling_group d (ami_id cfg) (desired_capacity cfg)
    (min_size cfg) (max_size cfg) (emit (details_logged d) s1)
  = (Return (Some v), s2) ->
  run cfg s = run_from_refresh cfg v s2.
Proof.
  intros H. rewrite run_retrieved.
  unfold run_from_refresh, run_update, try_except.
  unfold bind at 1 2. rewrite H. reflexivity.
Qed.

Lemma run_update_failed e :
  update_auto_scaling_group d (ami_id cfg) (desired_capacity cfg)
    (min_size cfg) (max_size cfg) (emit (details_logged d) s1)
  = (Raise e, s2) ->
  run cfg s =
  (Return tt,
   emit (Log ERROR "Error updating ASG with new AMI: {e}" [VExn e]) s2).
Proof.
  intros H. rewrite run_retrieved.
  unfold run_update, try_except. unfold bind at 1 2. now rewrite H.
Qed.

End Run_stages.

(** *** The trace from a point in the middle of a computation on *)

Section Extends_mid.

Variable P : event -> Prop.
Variable x : state.

Lemma bind_extends_mid {A B} (m : M A) (k : A -> M B) s :
  extends_with P x (snd (m s)) -> (forall a, emits P (k a)) ->
  extends_with P x (snd (bind m k s)).
Proof.
  intros Hm Hk. unfold bind.
  destruct (m s) as [[a | e |] s']; cbn [snd] in *; auto.
  eapply extends_trans; [exact Hm | apply Hk].
Qed.

Lemma try_extends_mid {A} (body : M A) cls handler s :
  extends_with P x (snd (body s)) -> (forall e, emits P (handler e)) ->
  extends_with P x (snd (try_except body cls handler s)).
Proof.
  intros Hb Hh. unfold try_except.
  destruct (body s) as [[a | e |] s']; cbn [snd] in *; auto.
  destruct (cls e); cbn [snd]; auto.
  eapply extends_trans; [exact Hb | apply Hh].
Qed.

Lemma retrying_extends_mid {A} budget n (f : M A) s :
  (forall seconds, P (Sleep seconds)) -> emits P f ->
  extends_with P x (snd (f s)) ->
  extends_with P x (snd (retrying budget n f s)).
Proof.
  intros Hs Hf H. destruct budget as [| budget]; cbn [retrying];
    destruct (f s) as [[a | e |] s']; cbn [snd] in *; auto;
    destruct (negb _); cbn [snd]; auto;
    destruct (stop_after_attempt 3 n); cbn [snd]; auto.
  unfold bind, sleep.
  eapply extends_trans; [exact H |].
  eapply extends_trans; [apply extends_emit, Hs |].
  now apply emits_retrying.
Qed.

End Extends_mid.

Lemma client_call_state rq s rs rest :
  script s = rs :: rest ->
  snd (client_call rq s) =
  {| script := rest; trace := trace s ++ [Call rq rs] |}.
Proof. intros H. unfold client_call. rewrite H. now destruct rs. Qed.

(** Whatever the control plane answers, [start_instance_refresh] makes the
    call. *)
Lemma start_instance_refresh_first_call asg_name prefs s rs rest :
  script s = rs :: rest ->
  extends_with not_marker
    {| script := rest;
       trace := trace s ++
         [starting_refresh asg_name;
          Call (StartInstanceRefresh asg_name "Rolling" prefs) rs] |}
    (snd (start_instance_refresh asg_name prefs s)).
Proof.
  intros Hs. unfold start_instance_refresh, retry.
  apply retrying_extends_mid; [reflexivity | |].
  { unfold start_instance_refresh_body. emits_auto. }
  unfold start_instance_refresh_body. rewrite bind_log.
  apply try_extends_mid; [| intros e; emits_auto].
  apply bind_extends_mid; [| intros a; emits_auto].
  erewrite client_call_state by (cbn; exact Hs).
  cbn [emit trace]. rewrite <- app_assoc. apply extends_refl.
Qed.

Lemma run_from_refresh_first_call cfg v s rs rest :
  script s = rs :: rest ->
  extends_with (fun _ => True)
    {| script := rest;
       trace := trace s ++
         [updated_logged v; starting_refresh (auto_scaling_group cfg);
          Call (StartInstanceRefresh (auto_scaling_group cfg) "Rolling"
                  (instance_refresh cfg)) rs] |}
    (snd (run_from_refresh cfg v s)).
Proof.
  intros Hs. unfold run_from_refresh.
  apply bind_extends_mid; [| intros [|]; emits_auto; exact I].
  eapply extends_weaken with (P := not_marker); [intros e _; exact I |].
  apply try_extends_mid; [| intros e; emits_auto].
  apply bind_extends_mid; [| intros a; emits_auto].
  unfold run_refresh. rewrite bind_log.
  apply bind_extends_mid.
  - pose proof (@start_instance_refresh_first_call (auto_scaling_group cfg)
                  (instance_refresh cfg) (emit (updated_logged v) s) rs rest Hs)
      as H.
    cbn [emit trace] in H. rewrite <- app_assoc in H. exact H.
  - intros id. emits_auto.
    + apply wait_for_instance_refresh_emits.
    + apply verify_old_instances_termination_emits.
Qed.

(** ** No update needed *)

Lemma read_only_only_lookups evs : Forall read_only evs -> only_lookups evs.
Proof.
  induction 1 as [| e evs (Hc & Hm & _) _ [IH1 IH2]]; split; auto.
  - constructor; auto. intros H. now rewrite H in Hc.
  - cbn. now rewrite Hm.
Qed.

Lemma extends_only_lookups s s' :
  extends_with read_only s s' ->
  exists evs, trace s' = trace s ++ evs /\ only_lookups evs.
Proof.
  intros (evs & H & F). exists evs. auto using read_only_only_lookups.
Qed.

Lemma only_lookups_app evs1 evs2 :
  only_lookups evs1 -> only_lookups evs2 -> only_lookups (evs1 ++ evs2).
Proof.
  intros [F1 M1] [F2 M2]. split.
  - apply Forall_app. now split.
  - now rewrite filter_app, M1, M2.
Qed.

(** C1.  When the image the group's launch template resolves to is the
    target image and the desired, minimum and maximum capacities are the
    targets, [update_auto_scaling_group] returns [None] and all it did was
    to look up the image; and [run] then writes its two last lines and
    returns: in the whole run every call is a look-up of the group or of the
    image, so there is no mutating call, no refresh start, no status query
    and no termination. *)
Theorem no_update_is_a_no_op :
  (forall d lt new_ami_id desired mn mx s s1,
      LaunchTemplate d = Some lt ->
      get_current_ami_id (LaunchTemplateId lt) (Version lt) (emit checking s)
      = (Return new_ami_id, s1) ->
      DesiredCapacity d = desired -> MinSize d = mn -> MaxSize d = mx ->
      update_auto_scaling_group d new_ami_id desired mn mx s
      = (Return None, emit no_change s1)
      /\ exists evs,
          trace (emit no_change s1) = trace s ++ evs /\ only_lookups evs)
  /\
  (forall cfg d lt s s1 s2,
      get_current_asg_details (auto_scaling_group cfg) (started s)
      = (Return d, s1) ->
      LaunchTemplate d = Some lt ->
      get_current_ami_id (LaunchTemplateId lt) (Version lt)
        (emit checking (emit (details_logged d) s1))
      = (Return (ami_id cfg), s2) ->
      DesiredCapacity d = desired_capacity cfg ->
      MinSize d = min_size cfg ->
      MaxSize d = max_size cfg ->
      (host_label (aws_region cfg) = true ->
       run cfg s
       = (Return tt,
          emit success_marker (emit no_update (emit no_change s2))))
      /\ exists evs,
          trace (snd (run cfg s)) = trace s ++ evs /\ only_lookups evs).
Proof.
  assert (Hupd : forall d lt new_ami_id desired mn mx s s1,
      LaunchTemplate d = Some lt ->
      get_current_ami_id (LaunchTemplateId lt) (Version lt) (emit checking s)
      = (Return new_ami_id, s1) ->
      DesiredCapacity d = desired -> MinSize d = mn -> MaxSize d = mx ->
      update_auto_scaling_group d new_ami_id desired mn mx s
      = (Return None, emit no_change s1)
      /\ extends_with read_only s (emit no_change s1)).
  { intros d lt new_ami_id desired mn mx s s1 Hlt Hami Hd Hmn Hmx. split.
    - eapply update_unchanged; eauto. now apply unchanged_true.
    - apply extends_emit_r; [repeat split |].
      eapply extends_trans with (s2 := emit checking s);
        [apply extends_emit; repeat split |].
      pose proof (get_current_ami_id_emits (LaunchTemplateId lt) (Version lt)
                    (emit checking s)) as H.
      now rewrite Hami in H. }
  split.
  - intros d lt new_ami_id desired mn mx s s1 Hlt Hami Hd Hmn Hmx.
    destruct (Hupd d lt new_ami_id desired mn mx s s1) as [H1 H2]; auto.
    split; [exact H1 | now apply extends_only_lookups].
  - intros cfg d lt s s1 s2 Hget Hlt Hami Hd Hmn Hmx.
    destruct (Hupd d lt (ami_id cfg) (desired_capacity cfg) (min_size cfg)
                (max_size cfg) (emit (details_logged d) s1) s2)
      as [H1 H2]; auto.
    assert (Hrun : initialize_aws_sdk (aws_region cfg)
                     (emit (Log INFO "Starting deployment process" []) s)
                   = (Return tt, started s) ->
                   run cfg s = (Return tt,
                     emit success_marker (emit no_update (emit no_change s2))))
      by (intros Hc; eapply run_no_update; eauto).
    split; [intros Hregion; now apply Hrun, clients_created |].
    destruct (initialize_aws_sdk_outcome (aws_region cfg)
                (emit (Log INFO "Starting deployment process" []) s))
      as [Hc | [e Hc]].
    2:{ rewrite (@run_not_created cfg s e Hc). cbn [snd].
        exists [Log INFO "Starting deployment process" [];
                Log INFO "Initializing AWS SDK" []].
        split; [unfold started; cbn [emit trace]; now rewrite <- app_assoc |].
        split; [repeat constructor; discriminate | reflexivity]. }
    rewrite (Hrun Hc). cbn [snd].
    assert (E : extends_with read_only s (emit no_update (emit no_change s2))).
    { apply extends_emit_r; [repeat split |].
      eapply extends_trans; [| exact H2].
      apply extends_emit_r; [repeat split |].
      eapply extends_trans with (s2 := started s).
      - unfold started. apply extends_emit_r; [repeat split |].
        apply extends_emit. repeat split.
      - pose proof (get_current_asg_details_emits (auto_scaling_group cfg)
                      (started s)) as H.
        now rewrite Hget in H. }
    destruct (extends_only_lookups E) as (evs & Ht & Hl).
    exists (evs ++ [success_marker]). split.
    + cbn [emit trace] in *. rewrite Ht. now rewrite <- !app_assoc.
    + apply only_lookups_app; [exact Hl |].
      split; [constructor; [discriminate | constructor] | reflexivity].
Qed.

(** Scenario A: the group runs image v1 with capacities 1, and that is the
    target. *)
Lemma no_update_is_a_no_op_witness :
  run (target "ami-v1" 1) scenario_A
  = (Return tt,
     {| script := [];
        trace :=
          [Log INFO "Starting deployment process" [];
           Log INFO "Initializing AWS SDK" [];
           Log INFO "Retrieving details for Auto Scaling Group: {asg_name}"
               [VStr "test-asg"];
           Call (DescribeAutoScalingGroups ["test-asg"])
                (AutoScalingGroups [test_asg]);
           details_logged test_asg;
           checking;
           Log INFO "Retrieving current AMI ID from launch template {launch_template_id} version {launch_template_version}"
               [VStr "lt-0abc"; VStr "1"];
           Call (DescribeLaunchTemplateVersions "lt-0abc" ["1"])
                (LaunchTemplateVersions [Some "ami-v1"]);
           no_change; no_update; success_marker] |})
  /\ exists evs,
      trace (snd (run (target "ami-v1" 1) scenario_A))
      = trace scenario_A ++ evs
      /\ only_lookups evs.
Proof.
  destruct (proj2 no_update_is_a_no_op (target "ami-v1" 1) test_asg
              template_v1 scenario_A _ _
              eq_refl eq_refl eq_refl eq_refl eq_refl eq_refl) as [Hrun Hev].
  split; [exact (Hrun eq_refl) | exact Hev].
Defined.

(** ** The image changed *)

(** C2, amended.  When the image the group's launch template resolves to
    is not the target image, and the control plane answers the two calls
    that follow,
    [update_auto_scaling_group] creates one launch template version, from
    the group's current version and with the target image as its only data,
    then updates the group once, with the target capacities and the new
    version as its template version, and returns the new version number.
    These two are its only mutating calls.  Nothing is asked of the
    capacities: they may be unchanged. *)
Theorem image_change_creates_one_version :
  forall d lt new_ami_id desired mn mx s s1 current_ami_id new_version rs rest,
    LaunchTemplate d = Some lt ->
    get_current_ami_id (LaunchTemplateId lt) (Version lt) (emit checking s)
    = (Return current_ami_id, s1) ->
    current_ami_id <> new_ami_id ->
    script s1 = LaunchTemplateVersion new_version :: rs :: rest ->
    is_error rs = false ->
    let create :=
      Call (CreateLaunchTemplateVersion (LaunchTemplateId lt) (Version lt)
              new_ami_id)
           (LaunchTemplateVersion new_version) in
    let update :=
      Call (UpdateAutoScalingGroup (AutoScalingGroupName d) desired mn mx
              (Some {| LaunchTemplateId := LaunchTemplateId lt;
                       Version := str new_version |}))
           rs in
    update_auto_scaling_group d new_ami_id desired mn mx s
    = (Return (Some (VersionNumber new_version)),
       {| script := rest;
          trace := trace s1 ++ [updating; image_changed; create; update] |})
    /\ exists evs,
        trace s1 ++ [updating; image_changed; create; update] = trace s ++ evs
        /\ filter is_mutating_call evs = [create; update]
        /\ filter is_create_call evs = [create]
        /\ filter is_update_call evs = [update].
Proof.
  intros d lt new_ami_id desired mn mx s s1 current_ami_id new_version rs rest
         Hlt Hami Hne Hs Hrs create update.
  split; [eapply update_image_changed; eauto |].
  assert (E : extends_with read_only s s1).
  { eapply extends_trans with (s2 := emit checking s);
      [apply extends_emit; repeat split |].
    pose proof (get_current_ami_id_emits (LaunchTemplateId lt) (Version lt)
                  (emit checking s)) as H.
    now rewrite Hami in H. }
  destruct E as (evs & Ht & F).
  exists (evs ++ [updating; image_changed; create; update]).
  rewrite Ht, <- app_assoc. split; [reflexivity |].
  rewrite !filter_app.
  assert (Hm : filter is_mutating_call evs = []
               /\ filter is_create_call evs = []
               /\ filter is_update_call evs = []).
  { clear Ht. induction F as [| e evs (Hc & Hm & _) _ (IH1 & IH2 & IH3)];
      [auto |].
    cbn [filter]. rewrite Hm, IH1, IH2, IH3.
    destruct e as [[] ? | |]; cbn in *; auto; discriminate. }
  destruct Hm as (-> & -> & ->). auto.
Qed.

(** Scenario B: image v1 and capacities 1, target image v2 and capacities
    2; and the same change of image with the capacities left at 1. *)
Lemma image_change_creates_one_version_witness :
  update_auto_scaling_group test_asg "ami-v2" 2 2 2 scenario_B
  = (Return (Some (VersionNumber 2)),
     {| script := [];
        trace :=
          [checking;
           Log INFO "Retrieving current AMI ID from launch template {launch_template_id} version {launch_template_version}"
               [VStr "lt-0abc"; VStr "1"];
           Call (DescribeLaunchTemplateVersions "lt-0abc" ["1"])
                (LaunchTemplateVersions [Some "ami-v1"]);
           updating; image_changed;
           Call (CreateLaunchTemplateVersion "lt-0abc" "1" "ami-v2")
                (LaunchTemplateVersion 2);
           Call (UpdateAutoScalingGroup "test-asg" 2 2 2
                   (Some {| LaunchTemplateId := "lt-0abc"; Version := "2" |}))
                Empty] |})
  /\ fst (update_auto_scaling_group test_asg "ami-v2" 1 1 1 scenario_B)
     = Return (Some (VersionNumber 2)).
Proof.
  split.
  - exact (proj1 (@image_change_creates_one_version test_asg template_v1
                    "ami-v2" 2 2 2 scenario_B _ "ami-v1" 2 Empty []
                    eq_refl eq_refl ltac:(discriminate) eq_refl eq_refl)).
  - exact (f_equal fst
             (proj1 (@image_change_creates_one_version test_asg template_v1
                       "ami-v2" 1 1 1 scenario_B _ "ami-v1" 2 Empty []
                       eq_refl eq_refl ltac:(discriminate) eq_refl eq_refl))).
Defined.

(** C2 as stated fails: the image is not the target and the update of the
    group is throttled once.  The helper creates two versions, sends two
    update calls, and returns the number of the second version. *)
Lemma image_change_with_throttled_update_creates_two_versions :
  fst (get_current_ami_id "lt-0abc" "1"
         (emit checking scenario_throttled_update))
  = Return "ami-v1"
  /\ "ami-v1" <> "ami-v2"
  /\ fst (update_auto_scaling_group test_asg "ami-v2" 2 2 2
            scenario_throttled_update)
     = Return (Some (VersionNumber 3))
  /\ List.length
       (filter is_create_call
          (trace (snd (update_auto_scaling_group test_asg "ami-v2" 2 2 2
                         scenario_throttled_update))))
     = 2%nat
  /\ List.length
       (filter is_update_call
          (trace (snd (update_auto_scaling_group test_asg "ami-v2" 2 2 2
                         scenario_throttled_update))))
     = 2%nat.
Proof. split; [reflexivity | split; [discriminate | repeat split]]. Qed.

(** ** Only a capacity changed *)

Lemma unchanged_false_capacity d image desired mn mx :
  DesiredCapacity d <> desired \/ MinSize d <> mn \/ MaxSize d <> mx ->
  unchanged d image image desired mn mx = false.
Proof.
  intros H. destruct (unchanged d image image desired mn mx) eqn:E; auto.
  apply unchanged_true in E. tauto.
Qed.

(** C6, amended.  When the image the group's launch template resolves to is the
    target image and one of the capacities differs from its target (and the
    control plane answers the update), [update_auto_scaling_group] creates
    no version, updates the group once, with the target capacities and no
    template, and returns the version token of the group's template, which
    is not [None]; and [run], once its clients are created, is sent by this
    result into the refresh branch: it goes on to log the version and to
    start an instance refresh. *)
Theorem capacity_change_updates_and_refreshes :
  (forall d lt new_ami_id desired mn mx s s1 rs rest,
      LaunchTemplate d = Some lt ->
      get_current_ami_id (LaunchTemplateId lt) (Version lt) (emit checking s)
      = (Return new_ami_id, s1) ->
      DesiredCapacity d <> desired \/ MinSize d <> mn \/ MaxSize d <> mx ->
      script s1 = rs :: rest ->
      is_error rs = false ->
      let update :=
        Call (UpdateAutoScalingGroup (AutoScalingGroupName d) desired mn mx
                None) rs in
      update_auto_scaling_group d new_ami_id desired mn mx s
      = (Return (Some (VersionToken (Version lt))),
         {| script := rest; trace := trace s1 ++ [updating; update] |})
      /\ exists evs,
          trace s1 ++ [updating; update] = trace s ++ evs
          /\ filter is_mutating_call evs = [update]
          /\ filter is_create_call evs = [])
  /\
  (forall cfg d lt s s1 s2 rs rs' rest,
      host_label (aws_region cfg) = true ->
      get_current_asg_details (auto_scaling_group cfg) (started s)
      = (Return d, s1) ->
      LaunchTemplate d = Some lt ->
      get_current_ami_id (LaunchTemplateId lt) (Version lt)
        (emit checking (emit (details_logged d) s1))
      = (Return (ami_id cfg), s2) ->
      DesiredCapacity d <> desired_capacity cfg
      \/ MinSize d <> min_size cfg \/ MaxSize d <> max_size cfg ->
      script s2 = rs :: rs' :: rest ->
      is_error rs = false ->
      exists evs,
        trace (snd (run cfg s))
        = trace s2 ++
          [updating;
           Call (UpdateAutoScalingGroup (AutoScalingGroupName d)
                   (desired_capacity cfg) (min_size cfg) (max_size cfg) None)
                rs;
           updated_logged (VersionToken (Version lt));
           starting_refresh (auto_scaling_group cfg);
           Call (StartInstanceRefresh (auto_scaling_group cfg) "Rolling"
                   (instance_refresh cfg)) rs']
          ++ evs).
Proof.
  split.
  - intros d lt new_ami_id desired mn mx s s1 rs rest Hlt Hami Hcap Hs Hrs
           update.
    split.
    { eapply update_capacity_changed; eauto.
      now apply unchanged_false_capacity. }
    assert (E : extends_with read_only s s1).
    { eapply extends_trans with (s2 := emit checking s);
        [apply extends_emit; repeat split |].
      pose proof (get_current_ami_id_emits (LaunchTemplateId lt) (Version lt)
                    (emit checking s)) as H.
      now rewrite Hami in H. }
    destruct E as (evs & Ht & F).
    exists (evs ++ [updating; update]).
    rewrite Ht, <- app_assoc. split; [reflexivity |].
    rewrite !filter_app.
    assert (Hm : filter is_mutating_call evs = []
                 /\ filter is_create_call evs = []).
    { clear Ht. induction F as [| e evs (Hc & Hm & _) _ (IH1 & IH2)];
        [auto |].
      cbn [filter]. rewrite Hm, IH1, IH2.
      destruct e as [[] ? | |]; cbn in *; auto; discriminate. }
    destruct Hm as (-> & ->). auto.
  - intros cfg d lt s s1 s2 rs rs' rest Hregion Hget Hlt Hami Hcap Hs Hrs.
    pose proof (clients_created cfg s Hregion) as Hcreated.
    pose proof (@update_capacity_changed d lt (ami_id cfg)
                  (desired_capacity cfg) (min_size cfg) (max_size cfg)
                  (emit (details_logged d) s1) s2 (ami_id cfg) Hlt Hami
                  rs (rs' :: rest) eq_refl
                  (unchanged_false_capacity d (ami_id cfg) Hcap) Hs Hrs)
      as Hupd.
    erewrite run_updated by eassumption.
    match goal with
    | |- context [run_from_refresh ?c ?v ?st] =>
        destruct (@run_from_refresh_first_call c v st rs' rest eq_refl)
          as (evs & Ht & _)
    end.
    exists evs. rewrite Ht. cbn [trace]. now rewrite <- !app_assoc.
Qed.

(** The group of the tests, target image v1 with capacities 2: the update
    carries no template, returns the token ["1"], and the refresh is
    started. *)
Lemma capacity_change_updates_and_refreshes_witness :
  update_auto_scaling_group test_asg "ami-v1" 2 2 2
    (fresh [LaunchTemplateVersions [Some "ami-v1"]; Empty])
  = (Return (Some (VersionToken "1")),
     {| script := [];
        trace :=
          [checking;
           Log INFO "Retrieving current AMI ID from launch template {launch_template_id} version {launch_template_version}"
               [VStr "lt-0abc"; VStr "1"];
           Call (DescribeLaunchTemplateVersions "lt-0abc" ["1"])
                (LaunchTemplateVersions [Some "ami-v1"]);
           updating;
           Call (UpdateAutoScalingGroup "test-asg" 2 2 2 None) Empty] |})
  /\ exists evs,
      trace (snd (run (target "ami-v1" 2)
                      (fresh [AutoScalingGroups [test_asg];
                              LaunchTemplateVersions [Some "ami-v1"];
                              Empty; InstanceRefreshId "refresh-1"])))
      = [Log INFO "Starting deployment process" [];
         Log INFO "Initializing AWS SDK" [];
         Log INFO "Retrieving details for Auto Scaling Group: {asg_name}"
             [VStr "test-asg"];
         Call (DescribeAutoScalingGroups ["test-asg"])
              (AutoScalingGroups [test_asg]);
         details_logged test_asg;
         checking;
         Log INFO "Retrieving current AMI ID from launch template {launch_template_id} version {launch_template_version}"
             [VStr "lt-0abc"; VStr "1"];
         Call (DescribeLaunchTemplateVersions "lt-0abc" ["1"])
              (LaunchTemplateVersions [Some "ami-v1"])]
        ++ [updating;
            Call (UpdateAutoScalingGroup "test-asg" 2 2 2 None) Empty;
            updated_logged (VersionToken "1");
            starting_refresh "test-asg";
            Call (StartInstanceRefresh "test-asg" "Rolling" preferences)
                 (InstanceRefreshId "refresh-1")]
        ++ evs.
Proof.
  assert (Hcap : forall image,
             DesiredCapacity test_asg <> desired_capacity (target image 2)
             \/ MinSize test_asg <> min_size (target image 2)
             \/ MaxSize test_asg <> max_size (target image 2))
    by (intros image; left; cbn; lia).
  split.
  - exact (proj1 (proj1 capacity_change_updates_and_refreshes test_asg
                    template_v1 "ami-v1" 2 2 2
                    (fresh [LaunchTemplateVersions [Some "ami-v1"]; Empty])
                    _ Empty [] eq_refl eq_refl (Hcap "ami-v1")
                    eq_refl eq_refl)).
  - pose (s := fresh [AutoScalingGroups [test_asg];
                      LaunchTemplateVersions [Some "ami-v1"];
                      Empty; InstanceRefreshId "refresh-1"]).
    pose (s1 := snd (get_current_asg_details "test-asg" (started s))).
    pose (s2 := snd (get_current_ami_id "lt-0abc" "1"
                       (emit checking (emit (details_logged test_asg) s1)))).
    exact (proj2 capacity_change_updates_and_refreshes (target "ami-v1" 2)
             test_asg template_v1 s s1 s2 Empty
             (InstanceRefreshId "refresh-1") []
             eq_refl eq_refl eq_refl eq_refl (Hcap "ami-v1") eq_refl
             eq_refl).
Defined.

(** C6 as stated fails: the image is the target, the capacities are not,
    and the update of the group is throttled once.  The helper sends two
    update calls before it returns the version token. *)
Lemma capacity_change_with_throttled_update_sends_two_updates :
  fst (update_auto_scaling_group test_asg "ami-v1" 2 2 2
         (fresh [LaunchTemplateVersions [Some "ami-v1"]; throttled;
                 LaunchTemplateVersions [Some "ami-v1"]; Empty]))
  = Return (Some (VersionToken "1"))
  /\ filter is_update_call
       (trace (snd (update_auto_scaling_group test_asg "ami-v1" 2 2 2
                      (fresh [LaunchTemplateVersions [Some "ami-v1"];
                              throttled;
                              LaunchTemplateVersions [Some "ami-v1"];
                              Empty]))))
     = [Call (UpdateAutoScalingGroup "test-asg" 2 2 2 None) throttled;
        Call (UpdateAutoScalingGroup "test-asg" 2 2 2 None) Empty]
  /\ filter is_create_call
       (trace (snd (update_auto_scaling_group test_asg "ami-v1" 2 2 2
                      (fresh [LaunchTemplateVersions [Some "ami-v1"];
                              throttled;
                              LaunchTemplateVersions [Some "ami-v1"];
                              Empty]))))
     = [].
Proof. repeat split. Qed.

(** ** The retry policy *)

Lemma wait_exponential_clipped n :
  (1 <= n)%nat ->
  wait_exponential 1 2 10 n = Z.min 10 (Z.max 2 (2 ^ (Z.of_nat n - 1)))
  /\ 2 <= wait_exponential 1 2 10 n <= 10.
Proof.
  intros Hn. unfold wait_exponential.
  assert (0 < 2 ^ (Z.of_nat n - 1)) by (apply Z.pow_pos_nonneg; lia).
  lia.
Qed.

Lemma retry_exhausted {A} (f : M A) s c1 s1 c2 s2 c3 s3 :
  f s = (Raise (ClientError c1), s1) ->
  f (emit (Sleep 2) s1) = (Raise (ClientError c2), s2) ->
  f (emit (Sleep 2) s2) = (Raise (ClientError c3), s3) ->
  retry f s = (Raise (RetryError (ClientError c3)), s3).
Proof.
  intros H1 H2 H3. unfold retry.
  erewrite retrying_again by (eassumption || reflexivity).
  unfold bind, sleep.
  erewrite retrying_again by (eassumption || reflexivity).
  unfold bind, sleep.
  erewrite retrying_stop by (eassumption || reflexivity).
  reflexivity.
Qed.

Lemma get_current_asg_details_body_ClientError asg_name s code rest :
  script s = Error (ClientError code) :: rest ->
  get_current_asg_details_body asg_name s =
  (Raise (ClientError code),
   {| script := rest; trace := trace s ++ failed_attempt asg_name code |}).
Proof.
  intros Hs. unfold get_current_asg_details_body. rewrite bind_log.
  erewrite try_caught with (e := ClientError code); [| | reflexivity].
  2:{ apply bind_Raise. apply client_call_failed. cbn. exact Hs. }
  rewrite bind_log. unfold raise, failed_attempt. same_state.
Qed.

Lemma get_current_asg_details_body_other asg_name s e rest :
  script s = Error e :: rest -> ClientError_class e = false ->
  get_current_asg_details_body asg_name s =
  (Raise e,
   {| script := rest;
      trace := trace s ++
        [Log INFO "Retrieving details for Auto Scaling Group: {asg_name}"
             [VStr asg_name];
         Call (DescribeAutoScalingGroups [asg_name]) (Error e)] |}).
Proof.
  intros Hs He. unfold get_current_asg_details_body. rewrite bind_log.
  erewrite try_passed with (e := e); [| | exact He].
  2:{ apply bind_Raise. apply client_call_failed. cbn. exact Hs. }
  same_state.
Qed.

Lemma get_current_asg_details_body_not_found asg_name s rs rest :
  script s = rs :: rest -> is_error rs = false -> resolves rs = false ->
  get_current_asg_details_body asg_name s =
  (Raise (ValueError ("Auto Scaling Group " ++ asg_name ++ " not found")),
   {| script := rest;
      trace := trace s ++
        [Log INFO "Retrieving details for Auto Scaling Group: {asg_name}"
             [VStr asg_name];
         Call (DescribeAutoScalingGroups [asg_name]) rs] |}).
Proof.
  intros Hs He Hr. unfold get_current_asg_details_body. rewrite bind_log.
  erewrite try_passed
    with (e := ValueError ("Auto Scaling Group " ++ asg_name ++ " not found"));
    [| | reflexivity].
  2:{ erewrite bind_Return
        by (apply client_call_answered; [cbn; exact Hs | exact He]).
      destruct rs as [[| g gs] | | | | | | |]; try discriminate; reflexivity. }
  same_state.
Qed.

(** C3, amended.  A function under the decorator that fails with a
    [ClientError] each time it is run is run three times, with a sleep of
    [min(10, max(2, 2^(attempt-1)))] after the first and after the second
    attempt (2 and 2, always within [2,10]); then the decorator raises a
    [RetryError] that carries the last [ClientError].  A failure with any
    other exception is raised again as it is after this one attempt.  For
    [get_current_asg_details] that is three describe calls, or one. *)
Theorem retry_three_attempts_then_RetryError :
  (forall A (f : M A) s c1 s1 c2 s2 c3 s3,
      f s = (Raise (ClientError c1), s1) ->
      f (emit (Sleep (Z.min 10 (Z.max 2 (2 ^ (1 - 1))))) s1)
      = (Raise (ClientError c2), s2) ->
      f (emit (Sleep (Z.min 10 (Z.max 2 (2 ^ (2 - 1))))) s2)
      = (Raise (ClientError c3), s3) ->
      retry f s = (Raise (RetryError (ClientError c3)), s3))
  /\ (forall n, (1 <= n)%nat ->
        wait_exponential 1 2 10 n = Z.min 10 (Z.max 2 (2 ^ (Z.of_nat n - 1)))
        /\ 2 <= wait_exponential 1 2 10 n <= 10)
  /\ (forall A (f : M A) s e s1,
        f s = (Raise e, s1) -> ClientError_class e = false ->
        retry f s = (Raise e, s1))
  /\ (forall asg_name s c1 c2 c3 rest,
        script s = Error (ClientError c1) :: Error (ClientError c2)
                   :: Error (ClientError c3) :: rest ->
        get_current_asg_details asg_name s
        = (Raise (RetryError (ClientError c3)),
           {| script := rest;
              trace := trace s ++ failed_attempt asg_name c1 ++ [Sleep 2]
                       ++ failed_attempt asg_name c2 ++ [Sleep 2]
                       ++ failed_attempt asg_name c3 |}))
  /\ (forall asg_name s e rest,
        script s = Error e :: rest -> ClientError_class e = false ->
        get_current_asg_details asg_name s
        = (Raise e,
           {| script := rest;
              trace := trace s ++
                [Log INFO "Retrieving details for Auto Scaling Group: {asg_name}"
                     [VStr asg_name];
                 Call (DescribeAutoScalingGroups [asg_name]) (Error e)] |}))
  /\ (forall asg_name s rs rest,
        script s = rs :: rest -> is_error rs = false -> resolves rs = false ->
        get_current_asg_details asg_name s
        = (Raise (ValueError ("Auto Scaling Group " ++ asg_name
                              ++ " not found")),
           {| script := rest;
              trace := trace s ++
                [Log INFO "Retrieving details for Auto Scaling Group: {asg_name}"
                     [VStr asg_name];
                 Call (DescribeAutoScalingGroups [asg_name]) rs] |})).
Proof.
  split; [| split; [| split; [| split; [| split]]]].
  - intros A f s c1 s1 c2 s2 c3 s3. apply retry_exhausted.
  - apply wait_exponential_clipped.
  - intros A f s e s1. apply retry_other.
  - intros asg_name s c1 c2 c3 rest Hs.
    unfold get_current_asg_details.
    erewrite retry_exhausted.
    + reflexivity.
    + apply get_current_asg_details_body_ClientError. exact Hs.
    + apply get_current_asg_details_body_ClientError. reflexivity.
    + rewrite (@get_current_asg_details_body_ClientError asg_name _ c3 rest)
        by reflexivity.
      same_state.
  - intros asg_name s e rest Hs He.
    apply retry_other; [| exact He].
    now apply get_current_asg_details_body_other.
  - intros asg_name s rs rest Hs He Hr.
    apply retry_other; [| reflexivity].
    now apply get_current_asg_details_body_not_found.
Qed.

(** Three throttled describe calls; a group that is not there. *)
Lemma retry_three_attempts_then_RetryError_witness :
  get_current_asg_details "test-asg" (fresh [throttled; throttled; throttled])
  = (Raise (RetryError (ClientError "Throttling")),
     {| script := [];
        trace := failed_attempt "test-asg" "Throttling" ++ [Sleep 2]
                 ++ failed_attempt "test-asg" "Throttling" ++ [Sleep 2]
                 ++ failed_attempt "test-asg" "Throttling" |})
  /\ get_current_asg_details "test-asg" (fresh [AutoScalingGroups []])
     = (Raise (ValueError "Auto Scaling Group test-asg not found"),
        {| script := [];
           trace :=
             [Log INFO "Retrieving details for Auto Scaling Group: {asg_name}"
                  [VStr "test-asg"];
              Call (DescribeAutoScalingGroups ["test-asg"])
                   (AutoScalingGroups [])] |})
  /\ get_current_asg_details "test-asg"
       (fresh [Error (OtherError "EndpointConnectionError")])
     = (Raise (OtherError "EndpointConnectionError"),
        {| script := [];
           trace :=
             [Log INFO "Retrieving details for Auto Scaling Group: {asg_name}"
                  [VStr "test-asg"];
              Call (DescribeAutoScalingGroups ["test-asg"])
                   (Error (OtherError "EndpointConnectionError"))] |}).
Proof.
  destruct retry_three_attempts_then_RetryError
    as (_ & _ & _ & Hthree & Hother & Hnotfound).
  split; [| split].
  - exact (Hthree "test-asg" (fresh [throttled; throttled; throttled])
             "Throttling" "Throttling" "Throttling" [] eq_refl).
  - exact (Hnotfound "test-asg" (fresh [AutoScalingGroups []])
             (AutoScalingGroups []) [] eq_refl eq_refl eq_refl).
  - exact (Hother "test-asg"
             (fresh [Error (OtherError "EndpointConnectionError")])
             (OtherError "EndpointConnectionError") [] eq_refl eq_refl).
Defined.

(** C3 as stated fails: after the third throttled attempt the caller does
    not get the [ClientError] but a [RetryError]. *)
Lemma exhausted_retries_raise_RetryError :
  fst (get_current_asg_details "test-asg"
         (fresh [throttled; throttled; throttled]))
  = Raise (RetryError (ClientError "Throttling"))
  /\ fst (get_current_asg_details "test-asg"
            (fresh [throttled; throttled; throttled]))
     <> Raise (ClientError "Throttling").
Proof. split; [reflexivity | discriminate]. Qed.

(** ** Waiting for the refresh *)

Lemma poll_until_terminal asg_name id status others rest pending :
  is_terminal status = true ->
  Forall (fun statuses => in_progress statuses = true) pending ->
  forall fuel s,
    script s = map InstanceRefreshes pending
               ++ InstanceRefreshes (status :: others) :: rest ->
    (List.length pending < fuel)%nat ->
    poll_instance_refresh fuel asg_name id s
    = (Return tt,
       {| script := rest;
          trace := trace s ++ flat_map (poll_again asg_name id) pending
                   ++ poll_last asg_name id status others |}).
Proof.
  intros Ht. induction 1 as [| statuses pending Hp _ IH]; intros fuel s Hs Hf;
    (destruct fuel as [| fuel]; [cbn in Hf; lia |]);
    cbn [poll_instance_refresh].
  - run_call Hs (eq_refl false). rewrite Ht. unfold log, poll_last.
    same_state.
  - run_call Hs (eq_refl false).
    destruct statuses as [| st tl]; [discriminate |].
    unfold in_progress in Hp. apply negb_true_iff in Hp.
    run_head. rewrite Hp. run_head.
    rewrite IH by (reflexivity || (cbn in Hf; lia)).
    cbn [flat_map poll_again]. same_state.
Qed.

Lemma wait_body_until_terminal asg_name id pending status others rest s :
  Forall (fun statuses => in_progress statuses = true) pending ->
  is_terminal status = true ->
  script s = map InstanceRefreshes pending
             ++ InstanceRefreshes (status :: others) :: rest ->
  wait_for_instance_refresh_body asg_name id s
  = (Return tt,
     {| script := rest;
        trace := trace s ++ [waiting_logged asg_name id]
                 ++ flat_map (poll_again asg_name id) pending
                 ++ poll_last asg_name id status others |}).
Proof.
  intros Hp Ht Hs. unfold wait_for_instance_refresh_body.
  rewrite bind_log. apply try_Return.
  erewrite poll_until_terminal; eauto.
  - same_state.
  - unfold enough_fuel, emit. cbn [script]. rewrite Hs, length_app.
    rewrite length_map. cbn. lia.
Qed.

Lemma poll_until_error asg_name id code rest pending :
  Forall (fun statuses => in_progress statuses = true) pending ->
  forall fuel s,
    script s = map InstanceRefreshes pending
               ++ Error (ClientError code) :: rest ->
    (List.length pending < fuel)%nat ->
    poll_instance_refresh fuel asg_name id s
    = (Raise (ClientError code),
       {| script := rest;
          trace := trace s ++ flat_map (poll_again asg_name id) pending
                   ++ [Call (DescribeInstanceRefreshes asg_name [id])
                            (Error (ClientError code))] |}).
Proof.
  induction 1 as [| statuses pending Hp _ IH]; intros fuel s Hs Hf;
    (destruct fuel as [| fuel]; [cbn in Hf; lia |]);
    cbn [poll_instance_refresh].
  - apply bind_Raise. apply client_call_failed. exact Hs.
  - run_call Hs (eq_refl false).
    destruct statuses as [| st tl]; [discriminate |].
    unfold in_progress in Hp. apply negb_true_iff in Hp.
    run_head. rewrite Hp. run_head.
    rewrite IH by (reflexivity || (cbn in Hf; lia)).
    cbn [flat_map poll_again]. same_state.
Qed.

Lemma wait_body_until_error asg_name id pending code rest s :
  Forall (fun statuses => in_progress statuses = true) pending ->
  script s = map InstanceRefreshes pending
             ++ Error (ClientError code) :: rest ->
  wait_for_instance_refresh_body asg_name id s
  = (Raise (ClientError code),
     {| script := rest;
        trace := trace s ++ [waiting_logged asg_name id]
                 ++ flat_map (poll_again asg_name id) pending
                 ++ poll_failed asg_name id code |}).
Proof.
  intros Hp Hs. unfold wait_for_instance_refresh_body.
  rewrite bind_log.
  erewrite try_caught with (e := ClientError code); [| | reflexivity].
  2:{ eapply poll_until_error; eauto.
      unfold enough_fuel, emit. cbn [script]. rewrite Hs, length_app.
      rewrite length_map. cbn. lia. }
  rewrite bind_log. unfold raise, poll_failed, waiting_logged. same_state.
Qed.

(** C4.  Whatever statuses the status query returns, up to the first
    terminal one: [wait_for_instance_refresh] queries, logs and sleeps 10 for
    each status that is not terminal, queries once more, logs the terminal
    status and returns; the responses that come after it in the script are
    left unread, so no status query follows. *)
Theorem wait_polls_until_first_terminal_status :
  forall asg_name id pending status others rest s,
    Forall (fun statuses => in_progress statuses = true) pending ->
    is_terminal status = true ->
    script s = map InstanceRefreshes pending
               ++ InstanceRefreshes (status :: others) :: rest ->
    wait_for_instance_refresh asg_name id s
    = (Return tt,
       {| script := rest;
          trace := trace s ++ [waiting_logged asg_name id]
                   ++ flat_map (poll_again asg_name id) pending
                   ++ poll_last asg_name id status others |}).
Proof.
  intros asg_name id pending status others rest s Hp Ht Hs.
  apply retry_Return. unfold wait_for_instance_refresh_body.
  rewrite bind_log. apply try_Return.
  erewrite poll_until_terminal; eauto.
  - same_state.
  - unfold enough_fuel, emit. cbn [script].
    rewrite Hs, length_app, length_map. cbn. lia.
Qed.

(** Pending, InProgress, then Failed, with one more response in the script
    that is never asked for. *)
Lemma wait_polls_until_first_terminal_status_witness :
  wait_for_instance_refresh "test-asg" "refresh-1"
    (fresh [InstanceRefreshes ["Pending"]; InstanceRefreshes ["InProgress"];
            InstanceRefreshes ["Failed"]; InstanceRefreshes ["Successful"]])
  = (Return tt,
     {| script := [InstanceRefreshes ["Successful"]];
        trace :=
          [waiting_logged "test-asg" "refresh-1";
           Call (DescribeInstanceRefreshes "test-asg" ["refresh-1"])
                (InstanceRefreshes ["Pending"]);
           Log INFO "Instance refresh in progress..." [];
           Sleep 10;
           Call (DescribeInstanceRefreshes "test-asg" ["refresh-1"])
                (InstanceRefreshes ["InProgress"]);
           Log INFO "Instance refresh in progress..." [];
           Sleep 10;
           Call (DescribeInstanceRefreshes "test-asg" ["refresh-1"])
                (InstanceRefreshes ["Failed"]);
           Log INFO "Instance refresh {status}" [VStr "Failed"]] |}).
Proof.
  apply (@wait_polls_until_first_terminal_status "test-asg" "refresh-1"
           [["Pending"]; ["InProgress"]] "Failed" []
           [InstanceRefreshes ["Successful"]]).
  - repeat constructor.
  - reflexivity.
  - reflexivity.
Defined.

(** ** The reaper *)

Lemma terminate_each_answered l : forall s rest,
  script s = map (fun _ => Empty) l ++ rest ->
  terminate_each l s
  = (Return tt,
     {| script := rest; trace := trace s ++ terminate_calls l |}).
Proof.
  induction l as [| i l IH]; intros s rest Hs; cbn [terminate_each].
  - unfold ret. destruct s as [sc tr]. cbn in *. subst sc.
    now rewrite app_nil_r.
  - run_call Hs (eq_refl false). rewrite (IH _ rest) by reflexivity.
    cbn [terminate_calls map]. same_state.
Qed.

Lemma length_flat_map_reap asg_name (listings : list (list instance)) :
  (List.length listings
   <= List.length (flat_map (reap_responses asg_name) listings))%nat.
Proof.
  induction listings as [| l listings IH]; cbn; [lia |].
  rewrite length_app. lia.
Qed.

Lemma reap_until_clean asg_name last rest stale :
  old_instances asg_name last = [] ->
  Forall (fun listing => old_instances asg_name listing <> []) stale ->
  forall fuel s,
    script s = flat_map (reap_responses asg_name) stale
               ++ AutoScalingInstances last :: rest ->
    (List.length stale < fuel)%nat ->
    reap_old_instances fuel asg_name s
    = (Return tt,
       {| script := rest;
          trace := trace s ++ flat_map (reap_again asg_name) stale
                   ++ reap_last last |}).
Proof.
  intros Hl. induction 1 as [| listing stale Ho _ IH]; intros fuel s Hs Hf;
    (destruct fuel as [| fuel]; [cbn in Hf; lia |]);
    cbn [reap_old_instances].
  - run_call Hs (eq_refl false). rewrite Hl. unfold log, reap_last.
    same_state.
  - cbn [flat_map] in Hs. unfold reap_responses at 1 in Hs.
    rewrite <- app_assoc, <- app_comm_cons in Hs.
    run_call Hs (eq_refl false).
    destruct (old_instances asg_name listing) as [| i old] eqn:E;
      [congruence |].
    run_head.
    erewrite bind_Return
      by (apply terminate_each_answered; cbn [script]; reflexivity).
    run_head.
    rewrite IH by (reflexivity || (cbn in Hf; lia)).
    cbn [flat_map]. unfold reap_again. rewrite E. same_state.
Qed.

(** C5, amended.  Whatever the listings are, up to the first one without
    old instances of the group, and with every terminate call answered:
    [verify_old_instances_termination] lists, and while the listing has
    instances of the group that are not ['InService'] it sends one terminate
    call for each of them, sleeps 30 and lists again; at the first listing
    without any it logs and returns.  If that is the first listing, it has
    made no terminate call and has not slept. *)
Theorem reaper_terminates_old_instances_until_none :
  forall asg_name stale last rest s,
    Forall (fun listing => old_instances asg_name listing <> []) stale ->
    old_instances asg_name last = [] ->
    script s = flat_map (reap_responses asg_name) stale
               ++ AutoScalingInstances last :: rest ->
    verify_old_instances_termination asg_name s
    = (Return tt,
       {| script := rest;
          trace := trace s ++ [verifying_logged asg_name]
                   ++ flat_map (reap_again asg_name) stale
                   ++ reap_last last |})
    /\ (stale = [] ->
        snd (verify_old_instances_termination asg_name s)
        = {| script := rest;
             trace := trace s ++
               [verifying_logged asg_name;
                Call DescribeAutoScalingInstances (AutoScalingInstances last);
                Log INFO "Old instances have been terminated" []] |}
        /\ filter is_terminate_call
             (verifying_logged asg_name :: reap_last last) = []
        /\ filter is_sleep
             (verifying_logged asg_name :: reap_last last) = []).
Proof.
  intros asg_name stale last rest s Hst Hl Hs.
  assert (H : verify_old_instances_termination asg_name s
    = (Return tt,
       {| script := rest;
          trace := trace s ++ [verifying_logged asg_name]
                   ++ flat_map (reap_again asg_name) stale
                   ++ reap_last last |})).
  { apply retry_Return. unfold verify_old_instances_termination_body.
    rewrite bind_log. apply try_Return.
    erewrite reap_until_clean; eauto.
    - same_state.
    - unfold enough_fuel, emit. cbn [script]. rewrite Hs, length_app.
      pose proof (length_flat_map_reap asg_name stale). cbn. lia. }
  split; [exact H |].
  intros ->. rewrite H. repeat split.
Qed.

(** Two instances of the group, one of them terminating; then both in
    service. *)
Lemma reaper_terminates_old_instances_until_none_witness :
  verify_old_instances_termination "test-asg"
    (fresh [AutoScalingInstances [instance_old; instance_new; instance_other];
            Empty;
            AutoScalingInstances [instance_new; instance_other]])
  = (Return tt,
     {| script := [];
        trace :=
          [verifying_logged "test-asg";
           Call DescribeAutoScalingInstances
                (AutoScalingInstances
                   [instance_old; instance_new; instance_other]);
           Log INFO "Waiting for old instances to terminate..." [];
           Call (TerminateInstances ["i-old"]) Empty;
           Sleep 30;
           Call DescribeAutoScalingInstances
                (AutoScalingInstances [instance_new; instance_other]);
           Log INFO "Old instances have been terminated" []] |}).
Proof.
  apply (@reaper_terminates_old_instances_until_none "test-asg"
           [[instance_old; instance_new; instance_other]]
           [instance_new; instance_other] []).
  - repeat constructor. discriminate.
  - reflexivity.
  - reflexivity.
Defined.

(** C5 as stated fails: the listing shows two old instances and the first
    terminate call is throttled.  The second instance gets no terminate
    call in this iteration and the 30 seconds are not slept; the reaper
    starts over and ends on the next listing. *)
Lemma throttled_terminate_skips_an_old_instance_and_the_sleep :
  let terminating := {| InstanceId := "i-terminating";
                        InstanceAutoScalingGroupName := "test-asg";
                        LifecycleState := "Terminating:Wait" |} in
  let listing := [instance_old; terminating; instance_new] in
  let s := fresh [AutoScalingInstances listing; throttled;
                  AutoScalingInstances [instance_new]] in
  old_instances "test-asg" listing = [instance_old; terminating]
  /\ fst (verify_old_instances_termination "test-asg" s) = Return tt
  /\ filter is_terminate_call
       (trace (snd (verify_old_instances_termination "test-asg" s)))
     = [Call (TerminateInstances ["i-old"]) throttled]
  /\ filter is_sleep
       (trace (snd (verify_old_instances_termination "test-asg" s)))
     = [Sleep 2].
Proof. repeat split. Qed.

(** ** What the caller of the wait gets *)

(** Whatever the control plane answers, [verify_old_instances_termination]
    lists the instances. *)
Lemma verify_first_call asg_name s rs rest :
  script s = rs :: rest ->
  extends_with not_marker
    {| script := rest;
       trace := trace s ++
         [verifying_logged asg_name; Call DescribeAutoScalingInstances rs] |}
    (snd (verify_old_instances_termination asg_name s)).
Proof.
  intros Hs. unfold verify_old_instances_termination, retry.
  assert (He : emits not_marker
                 (verify_old_instances_termination_body asg_name)).
  { unfold verify_old_instances_termination_body. emits_auto.
    apply (emits_fuel (fun fuel => reap_old_instances fuel _)).
    intros fuel. apply reap_old_instances_emits. }
  apply retrying_extends_mid; [reflexivity | exact He |].
  unfold verify_old_instances_termination_body. rewrite bind_log.
  apply try_extends_mid; [| intros e; emits_auto].
  unfold enough_fuel. cbn [reap_old_instances].
  apply bind_extends_mid.
  - erewrite client_call_state by (cbn; exact Hs).
    unfold verifying_logged. cbn [emit trace]. rewrite <- app_assoc.
    apply extends_refl.
  - intros a. emits_auto; try apply terminate_each_emits;
      apply reap_old_instances_emits.
Qed.

(** C7, amended.  On a terminal status, whichever it is and after
    however many statuses that are not terminal,
    [wait_for_instance_refresh] logs the status and returns no value; the
    status does not reach the caller.  [run] then logs that the refresh
    completed successfully and goes on to the reaper, for ['Failed'] and
    ['Cancelled'] as for ['Successful']. *)
Theorem wait_logs_the_terminal_status_and_returns_None :
  (forall asg_name id pending status others rest s,
      Forall (fun statuses => in_progress statuses = true) pending ->
      is_terminal status = true ->
      script s = map InstanceRefreshes pending
                 ++ InstanceRefreshes (status :: others) :: rest ->
      wait_for_instance_refresh asg_name id s
      = (Return tt,
         {| script := rest;
            trace := trace s
                     ++ [waiting_logged asg_name id]
                     ++ flat_map (poll_again asg_name id) pending
                     ++ [Call (DescribeInstanceRefreshes asg_name [id])
                              (InstanceRefreshes (status :: others));
                         Log INFO "Instance refresh {status}"
                             [VStr status]] |}))
  /\
  (forall cfg s d s1 v s2 id s3 pending status others rs rest,
      host_label (aws_region cfg) = true ->
      get_current_asg_details (auto_scaling_group cfg) (started s)
      = (Return d, s1) ->
      update_auto_scaling_group d (ami_id cfg) (desired_capacity cfg)
        (min_size cfg) (max_size cfg) (emit (details_logged d) s1)
      = (Return (Some v), s2) ->
      start_instance_refresh (auto_scaling_group cfg) (instance_refresh cfg)
        (emit (updated_logged v) s2)
      = (Return id, s3) ->
      Forall (fun statuses => in_progress statuses = true) pending ->
      is_terminal status = true ->
      script s3 = map InstanceRefreshes pending
                  ++ InstanceRefreshes (status :: others) :: rs :: rest ->
      exists evs,
        trace (snd (run cfg s))
        = trace s3 ++
          [Log INFO "Started instance refresh with ID: {instance_refresh_id}"
               [VStr id];
           waiting_logged (auto_scaling_group cfg) id]
          ++ flat_map (poll_again (auto_scaling_group cfg) id) pending
          ++ [Call (DescribeInstanceRefreshes (auto_scaling_group cfg) [id])
                   (InstanceRefreshes (status :: others));
              Log INFO "Instance refresh {status}" [VStr status];
              Log INFO "Instance refresh completed successfully" [];
              verifying_logged (auto_scaling_group cfg);
              Call DescribeAutoScalingInstances rs]
          ++ evs).
Proof.
  assert (Hwait : forall asg_name id pending status others rest s,
      Forall (fun statuses => in_progress statuses = true) pending ->
      is_terminal status = true ->
      script s = map InstanceRefreshes pending
                 ++ InstanceRefreshes (status :: others) :: rest ->
      wait_for_instance_refresh asg_name id s
      = (Return tt,
         {| script := rest;
            trace := trace s
                     ++ [waiting_logged asg_name id]
                     ++ flat_map (poll_again asg_name id) pending
                     ++ [Call (DescribeInstanceRefreshes asg_name [id])
                              (InstanceRefreshes (status :: others));
                         Log INFO "Instance refresh {status}"
                             [VStr status]] |})).
  { intros asg_name id pending status others rest s Hp Ht Hs.
    apply retry_Return.
    exact (@wait_body_until_terminal asg_name id pending status others rest s
             Hp Ht Hs). }
  split; [exact Hwait |].
  intros cfg s d s1 v s2 id s3 pending status others rs rest
         Hregion Hget Hupd Hstart Hp Ht Hs.
  pose proof (clients_created cfg s Hregion) as Hcreated.
  erewrite run_updated by eassumption.
  enough (E : extends_with (fun _ => True)
                {| script := rest;
                   trace := trace s3 ++
                     [Log INFO "Started instance refresh with ID: {instance_refresh_id}"
                          [VStr id];
                      waiting_logged (auto_scaling_group cfg) id]
                     ++ flat_map (poll_again (auto_scaling_group cfg) id)
                          pending
                     ++ [Call (DescribeInstanceRefreshes
                                 (auto_scaling_group cfg) [id])
                              (InstanceRefreshes (status :: others));
                         Log INFO "Instance refresh {status}" [VStr status];
                         Log INFO "Instance refresh completed successfully" [];
                         verifying_logged (auto_scaling_group cfg);
                         Call DescribeAutoScalingInstances rs] |}
                (snd (run_from_refresh cfg v s2))).
  { destruct E as (evs & E & _). exists evs. rewrite E. cbn [trace].
    now rewrite <- !app_assoc. }
  unfold run_from_refresh.
  apply bind_extends_mid; [| intros [|]; emits_auto; exact I].
  eapply extends_weaken with (P := not_marker); [intros e _; exact I |].
  apply try_extends_mid; [| intros e; emits_auto].
  apply bind_extends_mid; [| intros a; emits_auto].
  unfold run_refresh. rewrite bind_log.
  erewrite bind_Return by exact Hstart. rewrite bind_log.
  erewrite bind_Return by (apply Hwait; [exact Hp | exact Ht | cbn; exact Hs]).
  rewrite bind_log.
  apply bind_extends_mid; [| intros a; emits_auto].
  match goal with
  | |- extends_with _ _ (snd (verify_old_instances_termination ?a ?st)) =>
      pose proof (@verify_first_call a st rs rest eq_refl) as H
  end.
  cbn [emit trace] in H |- *.
  match type of H with
  | extends_with _ ?x _ =>
      match goal with
      | |- extends_with _ ?y _ => replace y with x; [exact H |]
      end
  end.
  f_equal. rewrite <- !app_assoc. reflexivity.
Qed.

(** A refresh that ends in ['Failed']: the wait returns [None], and [run]
    logs the refresh as completed successfully and lists the instances. *)
Lemma wait_logs_the_terminal_status_and_returns_None_witness :
  wait_for_instance_refresh "test-asg" "refresh-1"
    (fresh [InstanceRefreshes ["InProgress"]; InstanceRefreshes ["Failed"]])
  = (Return tt,
     {| script := [];
        trace :=
          [waiting_logged "test-asg" "refresh-1";
           Call (DescribeInstanceRefreshes "test-asg" ["refresh-1"])
                (InstanceRefreshes ["InProgress"]);
           Log INFO "Instance refresh in progress..." [];
           Sleep 10;
           Call (DescribeInstanceRefreshes "test-asg" ["refresh-1"])
                (InstanceRefreshes ["Failed"]);
           Log INFO "Instance refresh {status}" [VStr "Failed"]] |})
  /\ exists evs,
      skipn 15 (trace (snd (run (target "ami-v2" 2)
                                (deployment_ending_in "Failed"))))
      = [Log INFO "Started instance refresh with ID: {instance_refresh_id}"
             [VStr "refresh-1"];
         waiting_logged "test-asg" "refresh-1";
         Call (DescribeInstanceRefreshes "test-asg" ["refresh-1"])
              (InstanceRefreshes ["Failed"]);
         Log INFO "Instance refresh {status}" [VStr "Failed"];
         Log INFO "Instance refresh completed successfully" [];
         verifying_logged "test-asg";
         Call DescribeAutoScalingInstances (AutoScalingInstances [])]
        ++ evs.
Proof.
  assert (Hp : Forall (fun statuses => in_progress statuses = true)
                 [["InProgress"]])
    by (constructor; [reflexivity | constructor]).
  split.
  - exact (proj1 wait_logs_the_terminal_status_and_returns_None
             "test-asg" "refresh-1" [["InProgress"]] "Failed" [] []
             (fresh [InstanceRefreshes ["InProgress"];
                     InstanceRefreshes ["Failed"]])
             Hp eq_refl eq_refl).
  - pose (cfg := target "ami-v2" 2).
    pose (s := deployment_ending_in "Failed").
    pose (s1 := snd (get_current_asg_details "test-asg" (started s))).
    pose (s2 := snd (update_auto_scaling_group test_asg "ami-v2" 2 2 2
                       (emit (details_logged test_asg) s1))).
    pose (s3 := snd (start_instance_refresh "test-asg" preferences
                       (emit (updated_logged (VersionNumber 2)) s2))).
    destruct (proj2 wait_logs_the_terminal_status_and_returns_None
                cfg s test_asg s1 (VersionNumber 2) s2 "refresh-1" s3
                [] "Failed" [] (AutoScalingInstances []) []
                eq_refl eq_refl eq_refl eq_refl (Forall_nil _) eq_refl
                eq_refl) as [evs H].
    exists evs. fold cfg s. rewrite H. reflexivity.
Defined.

(** C7 as stated fails: the wait returns the same value, [None], for a
    refresh that failed and for one that succeeded, and [run] logs both as
    completed successfully and then as a successful deployment. *)
Lemma wait_returns_None_for_Failed_and_Successful :
  fst (wait_for_instance_refresh "test-asg" "refresh-1"
         (fresh [InstanceRefreshes ["Failed"]]))
  = Return tt
  /\ fst (wait_for_instance_refresh "test-asg" "refresh-1"
            (fresh [InstanceRefreshes ["Successful"]]))
     = Return tt
  /\ skipn 19 (trace (snd (run (target "ami-v2" 2)
                               (deployment_ending_in "Failed"))))
     = [Log INFO "Instance refresh completed successfully" [];
        verifying_logged "test-asg";
        Call DescribeAutoScalingInstances (AutoScalingInstances []);
        Log INFO "Old instances have been terminated" [];
        Log INFO "Old instances have been terminated" [];
        success_marker].
Proof. repeat split. Qed.

(** ** When the success line is written *)

Section Ends_in_facts.

Variable P : event -> Prop.

Lemma ends_in_extends tail s x s' :
  extends_with P s x -> ends_in P tail x s' -> ends_in P tail s s'.
Proof.
  intros (e1 & H1 & F1) (e2 & F2 & H2). exists (e1 ++ e2). split.
  - apply Forall_app. now split.
  - now rewrite H2, H1, <- !app_assoc.
Qed.

Lemma ends_in_emit tail s s' e :
  ends_in P tail s s' -> ends_in P (tail ++ [e]) s (emit e s').
Proof.
  intros (before & F & H). exists before. split; [exact F |].
  cbn [emit trace]. now rewrite H, <- !app_assoc.
Qed.

Lemma ends_in_tail tail s s' :
  trace s' = trace s ++ tail -> ends_in P tail s s'.
Proof. intros H. exists []. split; [constructor | exact H]. Qed.

End Ends_in_facts.

Lemma client_call_Return_inv rq s rs s' :
  client_call rq s = (Return rs, s') ->
  exists rest,
    script s = rs :: rest
    /\ s' = {| script := rest; trace := trace s ++ [Call rq rs] |}.
Proof.
  unfold client_call. destruct (script s) as [| r rest]; [discriminate |].
  destruct r; intros H; inversion H; subst; eauto.
Qed.

Lemma retrying_Return_inv (P : event -> Prop) {A} (f : M A) :
  (forall seconds, P (Sleep seconds)) -> emits P f ->
  forall budget n s a s',
    retrying budget n f s = (Return a, s') ->
    exists s0, extends_with P s s0 /\ f s0 = (Return a, s').
Proof.
  intros Hs Hf. induction budget as [| budget IH]; intros n s a s';
    cbn [retrying]; pose proof (Hf s) as H;
    destruct (f s) as [[x | e |] s1] eqn:E; cbn [snd] in H;
    try discriminate;
    try (intros Hr; inversion Hr; subst; exists s; split;
         [apply extends_refl | exact E]);
    destruct (negb _); try discriminate;
    destruct (stop_after_attempt 3 n); try discriminate.
  unfold bind, sleep. intros Hr. apply IH in Hr as (s0 & H0 & Hf0).
  exists s0. split; [| exact Hf0].
  eapply extends_trans; [exact H |].
  eapply extends_trans; [apply extends_emit, Hs | exact H0].
Qed.

Lemma reap_Return_inv asg_name fuel : forall s s',
  reap_old_instances fuel asg_name s = (Return tt, s') ->
  exists listing,
    old_instances asg_name listing = []
    /\ ends_in not_marker (reap_last listing) s s'.
Proof.
  induction fuel as [| fuel IH]; intros s s' H; cbn [reap_old_instances] in H;
    [discriminate |].
  apply bind_Return_inv in H as (rs & s1 & Hc & H).
  apply client_call_Return_inv in Hc as (rest & Hs & ->).
  apply bind_Return_inv in H as (l & s2 & Hm & H).
  destruct rs; try discriminate. inversion Hm; subst; clear Hm.
  destruct (old_instances asg_name l) as [| i old] eqn:E.
  - inversion H; subst. exists l. split; [exact E |].
    apply ends_in_tail. unfold reap_last. same_state.
  - rewrite bind_log in H. apply bind_Return_inv in H as (u & s3 & Ht & H).
    rewrite bind_sleep in H. apply IH in H as (listing & Hl & He).
    exists listing. split; [exact Hl |].
    eapply ends_in_extends; [| exact He].
    apply extends_emit_r; [reflexivity |].
    pose proof (terminate_each_emits (i :: old) (emit
      (Log INFO "Waiting for old instances to terminate..." [])
      {| script := rest;
         trace := trace s ++ [Call DescribeAutoScalingInstances
                                   (AutoScalingInstances l)] |})) as Hte.
    rewrite Ht in Hte. cbn [snd] in Hte.
    eapply extends_trans; [| exact Hte].
    apply extends_emit_r; [reflexivity |].
    exists [Call DescribeAutoScalingInstances (AutoScalingInstances l)].
    split; [reflexivity | repeat constructor].
Qed.

Lemma verify_Return_inv asg_name s s' :
  verify_old_instances_termination asg_name s = (Return tt, s') ->
  exists listing,
    old_instances asg_name listing = []
    /\ ends_in not_marker (reap_last listing) s s'.
Proof.
  intros H. unfold verify_old_instances_termination, retry in H.
  apply (@retrying_Return_inv not_marker) in H as (s0 & H0 & H);
    [| reflexivity |].
  - unfold verify_old_instances_termination_body in H.
    rewrite bind_log in H. apply try_Return_inv in H; [| discriminate].
    apply reap_Return_inv in H as (listing & Hl & He).
    exists listing. split; [exact Hl |].
    eapply ends_in_extends; [| exact He].
    apply extends_emit_r; [reflexivity | exact H0].
  - unfold verify_old_instances_termination_body. emits_auto.
    apply (emits_fuel (fun fuel => reap_old_instances fuel _)).
    intros fuel. apply reap_old_instances_emits.
Qed.

Lemma run_refresh_Return_inv cfg v s s' :
  run_refresh cfg v s = (Return tt, s') ->
  exists listing,
    old_instances (auto_scaling_group cfg) listing = []
    /\ ends_in not_marker (reap_last listing ++ [old_terminated]) s s'.
Proof.
  unfold run_refresh. intros H. rewrite bind_log in H.
  apply bind_Return_inv in H as (id & s1 & Hst & H).
  rewrite bind_log in H. apply bind_Return_inv in H as (u & s2 & Hw & H).
  rewrite bind_log in H. apply bind_Return_inv in H as (u' & s3 & Hv & H).
  inversion H; subst; clear H. destruct u, u'.
  apply verify_Return_inv in Hv as (listing & Hl & He).
  exists listing. split; [exact Hl |].
  apply ends_in_emit. eapply ends_in_extends; [| exact He].
  apply extends_emit_r; [reflexivity |].
  pose proof (wait_for_instance_refresh_emits (auto_scaling_group cfg) id
    (emit (Log INFO "Started instance refresh with ID: {instance_refresh_id}"
               [VStr id]) s1)) as H2.
  rewrite Hw in H2. eapply extends_trans; [| exact H2].
  apply extends_emit_r; [reflexivity |].
  pose proof (start_instance_refresh_emits (auto_scaling_group cfg)
    (instance_refresh cfg) (emit (updated_logged v) s)) as H1.
  unfold updated_logged in H1. rewrite Hst in H1.
  eapply extends_trans; [| exact H1].
  apply extends_emit. reflexivity.
Qed.

(** [run_update] goes on to the last line only after "no update" or after
    the reaper found no old instance. *)
Lemma run_update_true_inv cfg d s s' :
  run_update cfg d s = (Return true, s') ->
  ends_in not_marker [no_update] s s'
  \/ exists listing,
      old_instances (auto_scaling_group cfg) listing = []
      /\ ends_in not_marker (reap_last listing ++ [old_terminated]) s s'.
Proof.
  unfold run_update, try_except.
  match goal with
  | |- context [match ?m s with _ => _ end] =>
      destruct (m s) as [[b | e |] s1] eqn:E
  end; cbn; try discriminate.
  intros H. inversion H; subst; clear H.
  apply bind_Return_inv in E as (nv & s1 & Hu & H).
  pose proof (update_auto_scaling_group_emits d (ami_id cfg)
                (desired_capacity cfg) (min_size cfg) (max_size cfg) s) as Hx.
  rewrite Hu in Hx. cbn [snd] in Hx.
  apply bind_Return_inv in H as (u & s2 & Hk & H).
  inversion H; subst; clear H. destruct u.
  destruct nv as [v |].
  - right. apply run_refresh_Return_inv in Hk as (listing & Hl & He).
    exists listing. split; [exact Hl |].
    eapply ends_in_extends; eauto.
  - left. inversion Hk; subst.
    eapply ends_in_extends; [exact Hx |].
    apply ends_in_tail. reflexivity.
Qed.

Lemma not_marker_not_In l : Forall not_marker l -> ~ In success_marker l.
Proof.
  intros F H. rewrite Forall_forall in F. apply F in H. discriminate.
Qed.

(** The three ways [run] can end: without the success line; with it right
    after "no update"; with it right after a listing without old instances
    and the two lines that follow it. *)
Lemma run_structure cfg s :
  extends_with not_marker s (snd (run cfg s))
  \/ (fst (run cfg s) = Return tt
      /\ (ends_in not_marker [no_update; success_marker] s (snd (run cfg s))
          \/ exists listing,
              old_instances (auto_scaling_group cfg) listing = []
              /\ ends_in not_marker
                   (reap_last listing ++ [old_terminated; success_marker])
                   s (snd (run cfg s)))).
Proof.
  assert (H0 : extends_with not_marker s (started s))
    by (unfold started; apply extends_emit_r; [reflexivity |];
        apply extends_emit; reflexivity).
  destruct (initialize_aws_sdk_outcome (aws_region cfg)
              (emit (Log INFO "Starting deployment process" []) s))
    as [Hc | [e Hc]].
  2:{ left. now rewrite (@run_not_created cfg s e Hc). }
  unfold run. rewrite bind_log. erewrite bind_Return by exact Hc.
  fold (started s).
  pose proof (run_retrieve_emits cfg (started s)) as H1.
  apply (@extends_weaken _ not_marker _ _ read_only_not_marker) in H1.
  unfold bind.
  destruct (run_retrieve cfg (started s)) as [[[d |] | e |] s1];
    cbn [snd fst] in *;
    try (left; eapply extends_trans; eassumption).
  pose proof (run_update_emits cfg d s1) as H2.
  destruct (run_update cfg d s1) as [[[|] | e |] s2] eqn:E2;
    cbn [snd fst] in *;
    try (left; eapply extends_trans; [exact H0 |];
         eapply extends_trans; eassumption).
  right. split; [reflexivity |].
  assert (H01 : extends_with not_marker s s1)
    by (eapply extends_trans; eassumption).
  apply run_update_true_inv in E2 as [He | (listing & Hl & He)].
  - left. eapply ends_in_extends; [exact H01 |].
    apply (ends_in_emit success_marker He).
  - right. exists listing. split; [exact Hl |].
    eapply ends_in_extends; [exact H01 |].
    apply (ends_in_emit success_marker) in He.
    unfold reap_last in *. exact He.
Qed.

(** C8, amended.  When the success line is among the events of a run, the
    run has returned, the line is its last event, and right before it comes
    either the "no update required" line, or a listing in which no instance
    of the group is out of service, with the two "old instances have been
    terminated" lines. *)
Theorem success_line_follows_no_update_or_clean_listing :
  forall cfg s evs,
    trace (snd (run cfg s)) = trace s ++ evs ->
    In success_marker evs ->
    fst (run cfg s) = Return tt
    /\ ((exists before,
            evs = before ++ [no_update; success_marker]
            /\ ~ In success_marker before)
        \/ (exists before listing,
              old_instances (auto_scaling_group cfg) listing = []
              /\ evs = before ++
                   [Call DescribeAutoScalingInstances
                         (AutoScalingInstances listing);
                    old_terminated; old_terminated; success_marker]
              /\ ~ In success_marker before)).
Proof.
  intros cfg s evs Ht Hin.
  destruct (run_structure cfg s)
    as [(evs' & Ht' & F) | (Ho & [(b & F & Hb) | (l & Hl & b & F & Hb)])];
    rewrite Ht in *.
  - apply app_inv_head in Ht'. subst evs'.
    now apply not_marker_not_In in F.
  - apply app_inv_head in Hb. split; [exact Ho |]. left. exists b.
    split; [exact Hb | now apply not_marker_not_In].
  - apply app_inv_head in Hb. split; [exact Ho |]. right. exists b, l.
    split; [exact Hl |]. split; [exact Hb | now apply not_marker_not_In].
Qed.

(** The two cases: scenario A, and a whole deployment of image v2. *)
Lemma success_line_follows_no_update_or_clean_listing_witness :
  (exists before,
      trace (snd (run (target "ami-v1" 1) scenario_A))
      = before ++ [no_update; success_marker])
  /\ (exists before,
        trace (snd (run (target "ami-v2" 2)
                        (deployment_ending_in "Successful")))
        = before ++
          [Call DescribeAutoScalingInstances (AutoScalingInstances []);
           old_terminated; old_terminated; success_marker]).
Proof.
  split.
  - destruct (@success_line_follows_no_update_or_clean_listing
                (target "ami-v1" 1) scenario_A
                (trace (snd (run (target "ami-v1" 1) scenario_A))) eq_refl)
      as (_ & [(before & H & _) | (before & l & _ & H & _)]).
    + cbn. tauto.
    + exists before. exact H.
    + exfalso. apply (f_equal (fun l => nth 1 (rev l) success_marker)) in H.
      rewrite rev_app_distr in H. discriminate H.
  - destruct (@success_line_follows_no_update_or_clean_listing
                (target "ami-v2" 2) (deployment_ending_in "Successful")
                (trace (snd (run (target "ami-v2" 2)
                                 (deployment_ending_in "Successful"))))
                eq_refl)
      as (_ & [(before & H & _) | (before & l & Hl & H & _)]).
    + cbn. tauto.
    + exfalso. apply (f_equal (fun l => nth 1 (rev l) success_marker)) in H.
      rewrite rev_app_distr in H. discriminate H.
    + exists before. rewrite H. repeat f_equal.
      apply (f_equal (fun l => nth 3 (rev l) success_marker)) in H.
      rewrite rev_app_distr in H. cbn in H. congruence.
Defined.

(** C8 as stated fails: in scenario A the success line is written and the
    instances were never listed. *)
Lemma success_line_without_any_listing :
  fst (run (target "ami-v1" 1) scenario_A) = Return tt
  /\ In success_marker (trace (snd (run (target "ami-v1" 1) scenario_A)))
  /\ filter is_listing_call
       (trace (snd (run (target "ami-v1" 1) scenario_A))) = [].
Proof. split; [reflexivity | split; [cbn; tauto | reflexivity]]. Qed.

(** ** Failing fast *)

Lemma success_line_is_last cfg s evs :
  trace (snd (run cfg s)) = trace s ++ evs ->
  In success_marker evs ->
  fst (run cfg s) = Return tt
  /\ exists before, evs = before ++ [success_marker].
Proof.
  intros Ht Hin.
  destruct (run_structure cfg s)
    as [(evs' & Ht' & F) | (Ho & [(b & F & Hb) | (l & Hl & b & F & Hb)])];
    rewrite Ht in *.
  - apply app_inv_head in Ht'. subst evs'.
    now apply not_marker_not_In in F.
  - apply app_inv_head in Hb. split; [exact Ho |].
    exists (b ++ [no_update]). now rewrite Hb, <- app_assoc.
  - apply app_inv_head in Hb. split; [exact Ho |].
    exists (b ++ reap_last l ++ [old_terminated]).
    rewrite Hb. unfold reap_last. now rewrite <- !app_assoc.
Qed.

Lemma halts_logging_intro cfg s message e failed_at :
  run cfg s = (Return tt, emit (Log ERROR message [VExn e]) failed_at) ->
  halts_logging cfg s message e failed_at.
Proof.
  intros H. split; [exact H |]. split; [unfold main; now rewrite H |].
  intros evs Ht Hin.
  destruct (@success_line_is_last cfg s evs Ht Hin) as (_ & before & ->).
  rewrite H in Ht. cbn [snd emit trace] in Ht.
  rewrite app_assoc in Ht. apply app_inj_tail in Ht as [_ Ht].
  discriminate Ht.
Qed.

Lemma halts_raising_intro cfg s e failed_at :
  run cfg s = (Raise e, failed_at) -> halts_raising cfg s e failed_at.
Proof.
  intros H. split; [exact H |]. split; [unfold main; now rewrite H |].
  intros evs Ht Hin.
  destruct (@success_line_is_last cfg s evs Ht Hin) as (Ho & _).
  rewrite H in Ho. discriminate Ho.
Qed.

Lemma run_retrieve_failed cfg s e s1 :
  host_label (aws_region cfg) = true ->
  get_current_asg_details (auto_scaling_group cfg) (started s)
  = (Raise e, s1) ->
  run cfg s
  = if ValueError_class e
    then (Return tt,
          emit (Log ERROR "Error retrieving ASG details: {e}" [VExn e]) s1)
    else (Raise e, s1).
Proof.
  intros Hregion H. unfold run. rewrite bind_log.
  erewrite bind_Return by (apply clients_created; exact Hregion).
  unfold run_retrieve, try_except.
  unfold bind at 1 2. rewrite H. now destruct (ValueError_class e).
Qed.

Lemma run_from_refresh_failed cfg v s e failed_at :
  run_refresh cfg v s = (Raise e, failed_at) ->
  run_from_refresh cfg v s
  = (Return tt,
     emit (Log ERROR "Error updating ASG with new AMI: {e}" [VExn e])
          failed_at).
Proof.
  intros H. unfold run_from_refresh, try_except. unfold bind at 1 2.
  now rewrite H.
Qed.

(** C9, amended.  Once the clients are created, when a stage of [run]
    raises (an error the decorator does not retry, or its [RetryError]),
    [run] ends there: no later stage is
    started and the success line is not written.  For a [ValueError] of the
    retrieval of the group, and for any exception of the update, of the
    start of the refresh, of the wait and of the reaper, [run] logs the
    error and returns, so that the interpreter exits with status 0 as after
    a success; any other exception of the retrieval leaves [run] and the
    interpreter exits with status 1.  When the group is not in the
    response, the describe call is the only call of the run. *)
Theorem run_fails_fast :
  forall cfg s,
    host_label (aws_region cfg) = true ->
    (forall e s1,
        get_current_asg_details (auto_scaling_group cfg) (started s)
        = (Raise e, s1) ->
        (ValueError_class e = true ->
         halts_logging cfg s "Error retrieving ASG details: {e}" e s1)
        /\ (ValueError_class e = false -> halts_raising cfg s e s1))
    /\ (forall d s1,
          get_current_asg_details (auto_scaling_group cfg) (started s)
          = (Return d, s1) ->
          (forall e s2,
              update_auto_scaling_group d (ami_id cfg) (desired_capacity cfg)
                (min_size cfg) (max_size cfg) (emit (details_logged d) s1)
              = (Raise e, s2) ->
              halts_logging cfg s "Error updating ASG with new AMI: {e}" e s2)
          /\ (forall v s2,
                update_auto_scaling_group d (ami_id cfg)
                  (desired_capacity cfg) (min_size cfg) (max_size cfg)
                  (emit (details_logged d) s1)
                = (Return (Some v), s2) ->
                (forall e s3,
                    start_instance_refresh (auto_scaling_group cfg)
                      (instance_refresh cfg) (emit (updated_logged v) s2)
                    = (Raise e, s3) ->
                    halts_logging cfg s
                      "Error updating ASG with new AMI: {e}" e s3)
                /\ (forall id s3,
                      start_instance_refresh (auto_scaling_group cfg)
                        (instance_refresh cfg) (emit (updated_logged v) s2)
                      = (Return id, s3) ->
                      (forall e s4,
                          wait_for_instance_refresh (auto_scaling_group cfg)
                            id (emit (started_logged id) s3)
                          = (Raise e, s4) ->
                          halts_logging cfg s
                            "Error updating ASG with new AMI: {e}" e s4)
                      /\ (forall s4 e s5,
                            wait_for_instance_refresh
                              (auto_scaling_group cfg) id
                              (emit (started_logged id) s3)
                            = (Return tt, s4) ->
                            verify_old_instances_termination
                              (auto_scaling_group cfg)
                              (emit completed_logged s4)
                            = (Raise e, s5) ->
                            halts_logging cfg s
                              "Error updating ASG with new AMI: {e}" e s5))))
    /\ (forall rs rest,
          script s = rs :: rest -> is_error rs = false ->
          resolves rs = false ->
          run cfg s
          = (Return tt,
             {| script := rest;
                trace := trace s ++
                  [Log INFO "Starting deployment process" [];
                   Log INFO "Initializing AWS SDK" [];
                   Log INFO "Retrieving details for Auto Scaling Group: {asg_name}"
                       [VStr (auto_scaling_group cfg)];
                   Call (DescribeAutoScalingGroups [auto_scaling_group cfg])
                        rs;
                   Log ERROR "Error retrieving ASG details: {e}"
                       [VExn (ValueError ("Auto Scaling Group "
                                          ++ auto_scaling_group cfg
                                          ++ " not found"))]] |})).
Proof.
  intros cfg s Hregion.
  pose proof (clients_created cfg s Hregion) as Hcreated.
  split; [| split].
  - intros e s1 Hget.
    pose proof (@run_retrieve_failed cfg s e s1 Hregion Hget) as H.
    split; intros He; rewrite He in H.
    + now apply halts_logging_intro.
    + now apply halts_raising_intro.
  - intros d s1 Hget. split.
    { intros e s2 Hupd. apply halts_logging_intro.
      eapply run_update_failed; eassumption. }
    intros v s2 Hupd.
    assert (Hrun : run cfg s = run_from_refresh cfg v s2)
      by (eapply run_updated; eassumption).
    split.
    { intros e s3 Hst. apply halts_logging_intro. rewrite Hrun.
      apply run_from_refresh_failed. unfold run_refresh.
      rewrite bind_log. now apply bind_Raise. }
    intros id s3 Hst. split.
    { intros e s4 Hw. apply halts_logging_intro. rewrite Hrun.
      apply run_from_refresh_failed. unfold run_refresh.
      rewrite bind_log. erewrite bind_Return by exact Hst.
      rewrite bind_log. now apply bind_Raise. }
    intros s4 e s5 Hw Hv. apply halts_logging_intro. rewrite Hrun.
    apply run_from_refresh_failed. unfold run_refresh.
    rewrite bind_log. erewrite bind_Return by exact Hst.
    rewrite bind_log. erewrite bind_Return by exact Hw.
    rewrite bind_log. now apply bind_Raise.
  - intros rs rest Hs He Hr.
    erewrite run_retrieve_failed
      with (e := ValueError ("Auto Scaling Group " ++ auto_scaling_group cfg
                             ++ " not found")); [| exact Hregion |].
    2:{ apply retry_other; [| reflexivity].
        apply get_current_asg_details_body_not_found;
          [cbn; exact Hs | exact He | exact Hr]. }
    cbn [ValueError_class]. unfold started. f_equal. same_state.
Qed.

(** A group that is not there; a retrieval throttled three times; a
    launch template version that is not there; a status query that answers
    with no refresh. *)
Lemma run_fails_fast_witness :
  run (target "ami-v2" 2) (fresh [AutoScalingGroups []; Empty])
  = (Return tt,
     {| script := [Empty];
        trace :=
          [Log INFO "Starting deployment process" [];
           Log INFO "Initializing AWS SDK" [];
           Log INFO "Retrieving details for Auto Scaling Group: {asg_name}"
               [VStr "test-asg"];
           Call (DescribeAutoScalingGroups ["test-asg"])
                (AutoScalingGroups []);
           Log ERROR "Error retrieving ASG details: {e}"
               [VExn (ValueError "Auto Scaling Group test-asg not found")]] |})
  /\ halts_raising (target "ami-v2" 2)
       (fresh [throttled; throttled; throttled; Empty])
       (RetryError (ClientError "Throttling"))
       (snd (get_current_asg_details "test-asg"
               (started (fresh [throttled; throttled; throttled; Empty]))))
  /\ halts_logging (target "ami-v2" 2)
       (fresh [AutoScalingGroups [test_asg]; LaunchTemplateVersions []; Empty])
       "Error updating ASG with new AMI: {e}"
       (ValueError "Launch Template lt-0abc version 1 not found")
       {| script := [Empty];
          trace :=
            [Log INFO "Starting deployment process" [];
             Log INFO "Initializing AWS SDK" [];
             Log INFO "Retrieving details for Auto Scaling Group: {asg_name}"
                 [VStr "test-asg"];
             Call (DescribeAutoScalingGroups ["test-asg"])
                  (AutoScalingGroups [test_asg]);
             details_logged test_asg;
             checking;
             Log INFO "Retrieving current AMI ID from launch template {launch_template_id} version {launch_template_version}"
                 [VStr "lt-0abc"; VStr "1"];
             Call (DescribeLaunchTemplateVersions "lt-0abc" ["1"])
                  (LaunchTemplateVersions [])] |}
  /\ exists failed_at,
      halts_logging (target "ami-v2" 2) scenario_no_refresh
        "Error updating ASG with new AMI: {e}" IndexError failed_at.
Proof.
  split; [| split; [| split]].
  - exact (proj2 (proj2 (run_fails_fast (target "ami-v2" 2)
                           (fresh [AutoScalingGroups []; Empty]) eq_refl))
             (AutoScalingGroups []) [Empty] eq_refl eq_refl eq_refl).
  - exact (proj2 (proj1 (run_fails_fast (target "ami-v2" 2)
                           (fresh [throttled; throttled; throttled; Empty])
                           eq_refl)
                    (RetryError (ClientError "Throttling")) _ eq_refl)
             eq_refl).
  - exact (proj1 (proj1 (proj2 (run_fails_fast (target "ami-v2" 2)
                                  (fresh [AutoScalingGroups [test_asg];
                                          LaunchTemplateVersions []; Empty])
                                  eq_refl))
                    test_asg _ eq_refl)
             (ValueError "Launch Template lt-0abc version 1 not found") _
             eq_refl).
  - destruct (run_fails_fast (target "ami-v2" 2) scenario_no_refresh
                eq_refl)
      as (_ & Hretrieved & _).
    edestruct Hretrieved as (_ & Hupdated); [reflexivity |].
    edestruct Hupdated as (_ & Hstarted); [reflexivity |].
    edestruct Hstarted as (Hwait & _); [reflexivity |].
    eexists. apply Hwait. reflexivity.
Defined.

(** C9 as stated fails: a run that ends on the error of a group that is not
    there, or of a template version that is not there, returns like a
    successful run, and the interpreter exits with status 0 in all three. *)
Lemma failed_run_exits_with_status_zero :
  main (target "ami-v2" 2) (fresh [AutoScalingGroups []])
  = (Return tt,
     {| script := [];
        trace :=
          [Log INFO "Starting deployment process" [];
           Log INFO "Initializing AWS SDK" [];
           Log INFO "Retrieving details for Auto Scaling Group: {asg_name}"
               [VStr "test-asg"];
           Call (DescribeAutoScalingGroups ["test-asg"])
                (AutoScalingGroups []);
           Log ERROR "Error retrieving ASG details: {e}"
               [VExn (ValueError "Auto Scaling Group test-asg not found")]] |})
  /\ exit_status (fst (main (target "ami-v2" 2) (fresh [AutoScalingGroups []])))
     = Some 0
  /\ exit_status
       (fst (main (target "ami-v2" 2)
               (fresh [AutoScalingGroups [test_asg];
                       LaunchTemplateVersions []])))
     = Some 0
  /\ exit_status (fst (main (target "ami-v1" 1) scenario_A)) = Some 0.
Proof. repeat split. Qed.

(** ** What the decorator runs again *)

Lemma retry_second_attempt {A} (f : M A) s code s1 a s2 :
  f s = (Raise (ClientError code), s1) ->
  f (emit (Sleep 2) s1) = (Return a, s2) ->
  retry f s = (Return a, s2).
Proof.
  intros H1 H2. unfold retry.
  erewrite retrying_again by (eassumption || reflexivity).
  unfold bind, sleep. now apply retrying_Return.
Qed.

(** C10, amended.  The decorator wraps each helper as a whole.  When a
    helper fails with a [ClientError], the decorator sleeps and runs the
    helper again from its first statement, calls that had succeeded
    included.  After a throttled update of the group,
    [update_auto_scaling_group] looks the image up again and, when it still
    is not the target, creates a second launch template version; after a
    throttled status query, [wait_for_instance_refresh] starts over: it
    logs its first line again and polls from there. *)
Theorem retry_runs_the_whole_helper_again :
  (forall A (f : M A) s code s1 a s2,
      f s = (Raise (ClientError code), s1) ->
      f (emit (Sleep 2) s1) = (Return a, s2) ->
      retry f s = (Return a, s2))
  /\
  (forall d lt new_ami_id desired mn mx s s1 current v1 code rest
          s2 current' v2 rs rest',
      LaunchTemplate d = Some lt ->
      get_current_ami_id (LaunchTemplateId lt) (Version lt) (emit checking s)
      = (Return current, s1) ->
      current <> new_ami_id ->
      script s1 = LaunchTemplateVersion v1 :: Error (ClientError code)
                  :: rest ->
      get_current_ami_id (LaunchTemplateId lt) (Version lt)
        (emit checking
           (after_failed_update d lt new_ami_id desired mn mx v1 code rest s1))
      = (Return current', s2) ->
      current' <> new_ami_id ->
      script s2 = LaunchTemplateVersion v2 :: rs :: rest' ->
      is_error rs = false ->
      update_auto_scaling_group d new_ami_id desired mn mx s
      = (Return (Some (VersionNumber v2)),
         {| script := rest';
            trace := trace s2 ++
              [updating; image_changed;
               Call (CreateLaunchTemplateVersion (LaunchTemplateId lt)
                       (Version lt) new_ami_id)
                    (LaunchTemplateVersion v2);
               Call (UpdateAutoScalingGroup (AutoScalingGroupName d)
                       desired mn mx
                       (Some {| LaunchTemplateId := LaunchTemplateId lt;
                                Version := str v2 |}))
                    rs] |}))
  /\
  (forall asg_name id before code pending status others rest s,
      Forall (fun statuses => in_progress statuses = true) before ->
      Forall (fun statuses => in_progress statuses = true) pending ->
      is_terminal status = true ->
      script s = map InstanceRefreshes before
                 ++ Error (ClientError code)
                 :: map InstanceRefreshes pending
                 ++ InstanceRefreshes (status :: others) :: rest ->
      wait_for_instance_refresh asg_name id s
      = (Return tt,
         {| script := rest;
            trace := trace s ++ [waiting_logged asg_name id]
                     ++ flat_map (poll_again asg_name id) before
                     ++ poll_failed asg_name id code
                     ++ [Sleep 2; waiting_logged asg_name id]
                     ++ flat_map (poll_again asg_name id) pending
                     ++ poll_last asg_name id status others |})).
Proof.
  split; [| split].
  - intros A f s code s1 a s2. apply retry_second_attempt.
  - intros d lt new_ami_id desired mn mx s s1 current v1 code rest
           s2 current' v2 rs rest' Hlt Hami Hne Hs Hami' Hne' Hs' Hrs.
    unfold update_auto_scaling_group.
    eapply retry_second_attempt.
    + eapply update_body_update_failed; eassumption.
    + eapply update_body_image_changed
        with (s1 := s2) (current_ami_id := current'); try eassumption.
      match goal with
      | |- get_current_ami_id _ _ (emit checking ?st) = _ =>
          replace st
            with (after_failed_update d lt new_ami_id desired mn mx v1 code
                    rest s1)
            by (unfold after_failed_update; same_state)
      end.
      exact Hami'.
  - intros asg_name id before code pending status others rest s
           Hb Hp Ht Hs.
    unfold wait_for_instance_refresh.
    eapply retry_second_attempt.
    + apply wait_body_until_error with (pending := before); eassumption.
    + erewrite wait_body_until_terminal
        with (pending := pending) (status := status) (others := others)
             (rest := rest);
        [same_state | exact Hp | exact Ht | reflexivity].
Qed.

(** A throttled update of the group, and a throttled status query. *)
Lemma retry_runs_the_whole_helper_again_witness :
  update_auto_scaling_group test_asg "ami-v2" 2 2 2 scenario_throttled_update
  = (Return (Some (VersionNumber 3)),
     {| script := [];
        trace :=
          [checking;
           Log INFO "Retrieving current AMI ID from launch template {launch_template_id} version {launch_template_version}"
               [VStr "lt-0abc"; VStr "1"];
           Call (DescribeLaunchTemplateVersions "lt-0abc" ["1"])
                (LaunchTemplateVersions [Some "ami-v1"]);
           updating; image_changed;
           Call (CreateLaunchTemplateVersion "lt-0abc" "1" "ami-v2")
                (LaunchTemplateVersion 2);
           Call (UpdateAutoScalingGroup "test-asg" 2 2 2
                   (Some {| LaunchTemplateId := "lt-0abc"; Version := "2" |}))
                throttled;
           Log ERROR "ClientError updating Auto Scaling Group: {e}"
               [VExn (ClientError "Throttling")];
           Sleep 2;
           checking;
           Log INFO "Retrieving current AMI ID from launch template {launch_template_id} version {launch_template_version}"
               [VStr "lt-0abc"; VStr "1"];
           Call (DescribeLaunchTemplateVersions "lt-0abc" ["1"])
                (LaunchTemplateVersions [Some "ami-v1"]);
           updating; image_changed;
           Call (CreateLaunchTemplateVersion "lt-0abc" "1" "ami-v2")
                (LaunchTemplateVersion 3);
           Call (UpdateAutoScalingGroup "test-asg" 2 2 2
                   (Some {| LaunchTemplateId := "lt-0abc"; Version := "3" |}))
                Empty] |})
  /\ wait_for_instance_refresh "test-asg" "refresh-1"
       (fresh [InstanceRefreshes ["Pending"]; throttled;
               InstanceRefreshes ["Successful"]])
     = (Return tt,
        {| script := [];
           trace :=
             [waiting_logged "test-asg" "refresh-1";
              Call (DescribeInstanceRefreshes "test-asg" ["refresh-1"])
                   (InstanceRefreshes ["Pending"]);
              Log INFO "Instance refresh in progress..." [];
              Sleep 10;
              Call (DescribeInstanceRefreshes "test-asg" ["refresh-1"])
                   throttled;
              Log ERROR "ClientError waiting for instance refresh: {e}"
                  [VExn (ClientError "Throttling")];
              Sleep 2;
              waiting_logged "test-asg" "refresh-1";
              Call (DescribeInstanceRefreshes "test-asg" ["refresh-1"])
                   (InstanceRefreshes ["Successful"]);
              Log INFO "Instance refresh {status}" [VStr "Successful"]] |}).
Proof.
  destruct retry_runs_the_whole_helper_again as (_ & Hupdate & Hwait).
  split.
  - pose (s1 := snd (get_current_ami_id "lt-0abc" "1"
                       (emit checking scenario_throttled_update))).
    pose (s2 := snd (get_current_ami_id "lt-0abc" "1"
                       (emit checking
                          (after_failed_update test_asg template_v1 "ami-v2"
                             2 2 2 2 "Throttling"
                             [LaunchTemplateVersions [Some "ami-v1"];
                              LaunchTemplateVersion 3; Empty] s1)))).
    assert (Hne : "ami-v1" <> "ami-v2") by discriminate.
    exact (Hupdate test_asg template_v1 "ami-v2" 2 2 2
             scenario_throttled_update s1 "ami-v1" 2 "Throttling"
             [LaunchTemplateVersions [Some "ami-v1"];
              LaunchTemplateVersion 3; Empty]
             s2 "ami-v1" 3 Empty [] eq_refl eq_refl Hne eq_refl eq_refl Hne
             eq_refl eq_refl).
  - apply (Hwait "test-asg" "refresh-1" [["Pending"]] "Throttling" []
             "Successful" [] []).
    + repeat constructor.
    + constructor.
    + reflexivity.
    + reflexivity.
Defined.

(** C10 as stated fails.  A throttled update of the group makes the helper
    create a second launch template version; and three throttled status
    queries, each of them right after an answered one, end the wait with a
    [RetryError] although a fourth query would have been answered. *)
Lemma throttled_update_creates_a_second_version :
  fst (update_auto_scaling_group test_asg "ami-v2" 2 2 2
         scenario_throttled_update)
  = Return (Some (VersionNumber 3))
  /\ filter is_create_call
       (trace (snd (update_auto_scaling_group test_asg "ami-v2" 2 2 2
                      scenario_throttled_update)))
     = [Call (CreateLaunchTemplateVersion "lt-0abc" "1" "ami-v2")
             (LaunchTemplateVersion 2);
        Call (CreateLaunchTemplateVersion "lt-0abc" "1" "ami-v2")
             (LaunchTemplateVersion 3)]
  /\ wait_for_instance_refresh "test-asg" "refresh-1"
       scenario_throttled_polling
     = (Raise (RetryError (ClientError "Throttling")),
        {| script := [InstanceRefreshes ["Successful"]];
           trace :=
             [waiting_logged "test-asg" "refresh-1"]
             ++ poll_again "test-asg" "refresh-1" ["Pending"]
             ++ poll_failed "test-asg" "refresh-1" "Throttling"
             ++ [Sleep 2; waiting_logged "test-asg" "refresh-1"]
             ++ poll_again "test-asg" "refresh-1" ["Pending"]
             ++ poll_failed "test-asg" "refresh-1" "Throttling"
             ++ [Sleep 2; waiting_logged "test-asg" "refresh-1"]
             ++ poll_again "test-asg" "refresh-1" ["Pending"]
             ++ poll_failed "test-asg" "refresh-1" "Throttling" |}).
Proof. repeat split. Qed.

(** ** The fuel of the polling loops

    The loops are run with [enough_fuel]: more fuel than the script has
    responses.  With that much fuel a loop never stops for lack of fuel:
    any other such amount gives the same run. *)

Lemma poll_instance_refresh_fuel asg_name id : forall fuel fuel' s,
  (List.length (script s) < fuel)%nat ->
  (List.length (script s) < fuel')%nat ->
  poll_instance_refresh fuel asg_name id s
  = poll_instance_refresh fuel' asg_name id s.
Proof.
  induction fuel as [| fuel IH]; intros fuel' s H H'; [lia |].
  destruct fuel' as [| fuel']; [lia |].
  cbn [poll_instance_refresh].
  destruct (client_call (DescribeInstanceRefreshes asg_name [id]) s)
    as [[rs | e |] s1] eqn:Ec.
  - assert (Hb : forall k : response -> M unit,
               bind (client_call (DescribeInstanceRefreshes asg_name [id])) k s
               = k rs s1)
      by (intros k; apply bind_Return; exact Ec).
    rewrite !Hb. clear Hb.
    apply client_call_Return_inv in Ec as (rest & Hs & ->).
    rewrite Hs in H, H'. cbn [List.length] in H, H'.
    destruct rs as [| | | | statuses | | |]; try reflexivity.
    destruct statuses as [| status others]; [reflexivity |].
    rewrite !bind_ret.
    destruct (is_terminal status); [reflexivity |].
    rewrite !bind_log, !bind_sleep. apply IH; cbn [emit script]; lia.
  - unfold bind. now rewrite Ec.
  - unfold bind. now rewrite Ec.
Qed.

Lemma terminate_each_script l : forall s,
  (List.length (script (snd (terminate_each l s)))
   <= List.length (script s))%nat.
Proof.
  induction l as [| i l IH]; intros s; cbn [terminate_each]; [cbn; lia |].
  unfold bind, client_call.
  destruct (script s) as [| rs rest] eqn:E; [cbn; rewrite E; cbn; lia |].
  destruct rs;
    try (etransitivity; [apply IH | cbn; lia]);
    cbn; lia.
Qed.

Lemma reap_old_instances_fuel asg_name : forall fuel fuel' s,
  (List.length (script s) < fuel)%nat ->
  (List.length (script s) < fuel')%nat ->
  reap_old_instances fuel asg_name s = reap_old_instances fuel' asg_name s.
Proof.
  induction fuel as [| fuel IH]; intros fuel' s H H'; [lia |].
  destruct fuel' as [| fuel']; [lia |].
  cbn [reap_old_instances].
  destruct (client_call DescribeAutoScalingInstances s)
    as [[rs | e |] s1] eqn:Ec.
  - assert (Hb : forall k : response -> M unit,
               bind (client_call DescribeAutoScalingInstances) k s = k rs s1)
      by (intros k; apply bind_Return; exact Ec).
    rewrite !Hb. clear Hb.
    apply client_call_Return_inv in Ec as (rest & Hs & ->).
    rewrite Hs in H, H'. cbn [List.length] in H, H'.
    destruct rs as [| | | | | listing | |]; try reflexivity.
    rewrite !bind_ret.
    destruct (old_instances asg_name listing) as [| i old]; [reflexivity |].
    rewrite !bind_log.
    match goal with
    | |- context [bind (terminate_each ?l) _ ?st] =>
        pose proof (terminate_each_script l st) as Hle;
        destruct (terminate_each l st) as [[u | e |] s3] eqn:Et;
        [assert (Hb : forall k : unit -> M unit,
                    bind (terminate_each l) k st = k u s3)
           by (intros k; apply bind_Return; exact Et) | |]
    end.
    + rewrite !Hb, !bind_sleep. clear Hb.
      cbn [snd emit script] in Hle.
      apply IH; cbn [emit script]; lia.
    + unfold bind at 1 3. now rewrite Et.
    + unfold bind at 1 3. now rewrite Et.
  - unfold bind. now rewrite Ec.
  - unfold bind. now rewrite Ec.
Qed.

(** The fuel the helpers give their loops is such an amount. *)
Lemma enough_fuel_is_enough s : (List.length (script s) < enough_fuel s)%nat.
Proof. unfold enough_fuel. lia. Qed.

(** * Further properties of the helpers and of the orchestrator *)

(** ** Throttled attempts that the decorator absorbs *)

Lemma retrying_final {A} (f : M A) budget n s o s' :
  f s = (o, s') -> (forall code, o <> Raise (ClientError code)) ->
  retrying budget n f s = (o, s').
Proof.
  intros H Ho. destruct o as [a | e |].
  - now apply retrying_Return.
  - apply retrying_other; [exact H |].
    destruct e; try reflexivity. now contradiction (Ho code).
  - now apply retrying_Hang.
Qed.

Lemma state_eta s : {| script := script s; trace := trace s ++ [] |} = s.
Proof. destruct s as [sc tr]. cbn. now rewrite app_nil_r. Qed.

(** A helper whose attempts fail as [failed] tells when the call is
    throttled: up to two throttled attempts change nothing to what the next
    attempt gives, unless that is a [ClientError] again. *)
Lemma retry_absorbs {A} (f : M A) (failed : string -> list event) :
  (forall s code rest,
      script s = Error (ClientError code) :: rest ->
      f s = (Raise (ClientError code),
             {| script := rest; trace := trace s ++ failed code |})) ->
  forall codes s rest o s',
    (List.length codes <= 2)%nat ->
    script s = throttles codes ++ rest ->
    f {| script := rest;
         trace := trace s ++ throttled_attempts failed codes |} = (o, s') ->
    (forall code, o <> Raise (ClientError code)) ->
    retry f s = (o, s').
Proof.
  intros Hf codes s rest o s' Hlen Hs Hlast Ho. unfold retry.
  destruct codes as [| c1 [| c2 [| c3 codes]]]; cbn in Hlen; try lia;
    cbn [throttles map app throttled_attempts flat_map] in Hs, Hlast.
  - apply retrying_final; [| exact Ho].
    rewrite <- Hlast. f_equal. rewrite <- Hs. symmetry. apply state_eta.
  - erewrite retrying_again by (eauto || reflexivity).
    unfold bind, sleep. apply retrying_final; [| exact Ho].
    rewrite <- Hlast. f_equal. unfold emit. cbn [script trace].
    now rewrite app_nil_r, <- app_assoc.
  - erewrite retrying_again by (eauto || reflexivity).
    unfold bind, sleep.
    erewrite retrying_again; [| apply Hf; reflexivity | reflexivity].
    unfold bind, sleep. apply retrying_final; [| exact Ho].
    rewrite <- Hlast. f_equal. unfold emit. cbn [script trace].
    now rewrite app_nil_r, <- !app_assoc.
Qed.

Lemma get_current_ami_id_body_ClientError id version s code rest :
  script s = Error (ClientError code) :: rest ->
  get_current_ami_id_body id version s =
  (Raise (ClientError code),
   {| script := rest; trace := trace s ++ failed_lookup id version code |}).
Proof.
  intros Hs. unfold get_current_ami_id_body. rewrite bind_log.
  erewrite try_caught with (e := ClientError code); [| | reflexivity].
  2:{ apply bind_Raise. apply client_call_failed. cbn. exact Hs. }
  rewrite bind_log. unfold raise, failed_lookup, lookup_logged. same_state.
Qed.

Lemma get_current_ami_id_body_answered id version s rs rest :
  script s = rs :: rest -> is_error rs = false ->
  get_current_ami_id_body id version s =
  (match rs with
   | LaunchTemplateVersions (Some image_id :: _) => Return image_id
   | LaunchTemplateVersions (None :: _) => Raise (KeyError "ImageId")
   | _ => Raise (ValueError ("Launch Template " ++ id ++ " version "
                             ++ version ++ " not found"))
   end,
   {| script := rest;
      trace := trace s ++
        [lookup_logged id version;
         Call (DescribeLaunchTemplateVersions id [version]) rs] |}).
Proof.
  intros Hs He. unfold get_current_ami_id_body. rewrite bind_log.
  unfold try_except.
  erewrite bind_Return
    by (apply client_call_answered; [cbn; exact Hs | exact He]).
  destruct rs as [| [| [img |] more] | | | | | |]; try discriminate;
    unfold ret, raise, lookup_logged; cbn [ClientError_class];
    f_equal; same_state.
Qed.

Lemma get_current_asg_details_body_found asg_name s g more rest :
  script s = AutoScalingGroups (g :: more) :: rest ->
  get_current_asg_details_body asg_name s =
  (Return g,
   {| script := rest;
      trace := trace s ++
        [retrieving_logged asg_name;
         Call (DescribeAutoScalingGroups [asg_name])
              (AutoScalingGroups (g :: more))] |}).
Proof.
  intros Hs. unfold get_current_asg_details_body. rewrite bind_log.
  apply try_Return.
  erewrite bind_Return
    by (apply client_call_answered; [cbn; exact Hs | reflexivity]).
  unfold ret, retrieving_logged. f_equal. same_state.
Qed.

Lemma start_instance_refresh_body_ClientError asg_name prefs s code rest :
  script s = Error (ClientError code) :: rest ->
  start_instance_refresh_body asg_name prefs s =
  (Raise (ClientError code),
   {| script := rest; trace := trace s ++ failed_start asg_name prefs code |}).
Proof.
  intros Hs. unfold start_instance_refresh_body. rewrite bind_log.
  erewrite try_caught with (e := ClientError code); [| | reflexivity].
  2:{ apply bind_Raise. apply client_call_failed. cbn. exact Hs. }
  rewrite bind_log. unfold raise, failed_start, starting_refresh. same_state.
Qed.

Lemma start_instance_refresh_body_answered asg_name prefs s rs rest :
  script s = rs :: rest -> is_error rs = false ->
  start_instance_refresh_body asg_name prefs s =
  (match rs with
   | InstanceRefreshId id => Return id
   | _ => Raise (KeyError "InstanceRefreshId")
   end,
   {| script := rest;
      trace := trace s ++
        [starting_refresh asg_name;
         Call (StartInstanceRefresh asg_name "Rolling" prefs) rs] |}).
Proof.
  intros Hs He. unfold start_instance_refresh_body. rewrite bind_log.
  unfold try_except.
  erewrite bind_Return
    by (apply client_call_answered; [cbn; exact Hs | exact He]).
  destruct rs; try discriminate;
    unfold ret, raise, starting_refresh; cbn [ClientError_class];
    f_equal; same_state.
Qed.

(** X1.  [get_current_asg_details] absorbs up to two throttled describe
    calls: when the next one answers with a non-empty list of groups, the
    helper returns the first group of the list, having slept 2 after each
    throttled attempt and made no call beyond the answered one. *)
Theorem get_current_asg_details_recovers :
  forall asg_name codes g more rest s,
    (List.length codes <= 2)%nat ->
    script s = throttles codes ++ AutoScalingGroups (g :: more) :: rest ->
    get_current_asg_details asg_name s
    = (Return g,
       {| script := rest;
          trace := trace s
                   ++ throttled_attempts (failed_attempt asg_name) codes
                   ++ [retrieving_logged asg_name;
                       Call (DescribeAutoScalingGroups [asg_name])
                            (AutoScalingGroups (g :: more))] |}).
Proof.
  intros asg_name codes g more rest s Hlen Hs.
  unfold get_current_asg_details.
  eapply retry_absorbs with (failed := failed_attempt asg_name);
    [| exact Hlen | exact Hs | | discriminate].
  - intros s0 code rest0. apply get_current_asg_details_body_ClientError.
  - erewrite get_current_asg_details_body_found by reflexivity.
    f_equal. same_state.
Qed.

Lemma get_current_asg_details_recovers_witness :
  get_current_asg_details "test-asg"
    (fresh [throttled; throttled; AutoScalingGroups [test_asg]; Empty])
  = (Return test_asg,
     {| script := [Empty];
        trace := failed_attempt "test-asg" "Throttling" ++ [Sleep 2]
                 ++ failed_attempt "test-asg" "Throttling" ++ [Sleep 2]
                 ++ [retrieving_logged "test-asg";
                     Call (DescribeAutoScalingGroups ["test-asg"])
                          (AutoScalingGroups [test_asg])] |}).
Proof.
  apply (@get_current_asg_details_recovers "test-asg"
           ["Throttling"; "Throttling"] test_asg [] [Empty]).
  - cbn. lia.
  - reflexivity.
Defined.

(** X2.  [get_current_ami_id], after up to two throttled describe calls:
    an answer whose first version has an image gives that image; an answer
    whose first version has no ['ImageId'] raises [KeyError]; an answer
    with no version raises [ValueError] "... not found".  The two errors
    are not retried: the answered call is the last call. *)
Theorem get_current_ami_id_outcomes :
  forall id version codes rest s,
    (List.length codes <= 2)%nat ->
    let final rs :=
      {| script := rest;
         trace := trace s
                  ++ throttled_attempts (failed_lookup id version) codes
                  ++ [lookup_logged id version;
                      Call (DescribeLaunchTemplateVersions id [version])
                           rs] |} in
    (forall image_id more,
        script s = throttles codes
                   ++ LaunchTemplateVersions (Some image_id :: more) :: rest ->
        get_current_ami_id id version s
        = (Return image_id,
           final (LaunchTemplateVersions (Some image_id :: more))))
    /\ (forall more,
          script s = throttles codes
                     ++ LaunchTemplateVersions (None :: more) :: rest ->
          get_current_ami_id id version s
          = (Raise (KeyError "ImageId"),
             final (LaunchTemplateVersions (None :: more))))
    /\ (script s = throttles codes ++ LaunchTemplateVersions [] :: rest ->
        get_current_ami_id id version s
        = (Raise (ValueError ("Launch Template " ++ id ++ " version "
                              ++ version ++ " not found")),
           final (LaunchTemplateVersions []))).
Proof.
  intros id version codes rest s Hlen final.
  assert (H : forall rs o,
             is_error rs = false ->
             (forall code, o <> Raise (ClientError code)) ->
             o = match rs with
                 | LaunchTemplateVersions (Some image_id :: _) =>
                     Return image_id
                 | LaunchTemplateVersions (None :: _) =>
                     Raise (KeyError "ImageId")
                 | _ => Raise (ValueError ("Launch Template " ++ id
                                           ++ " version " ++ version
                                           ++ " not found"))
                 end ->
             script s = throttles codes ++ rs :: rest ->
             get_current_ami_id id version s = (o, final rs)).
  { intros rs o He Ho -> Hs. unfold get_current_ami_id.
    eapply retry_absorbs with (failed := failed_lookup id version);
      [| exact Hlen | exact Hs | | exact Ho].
    - intros s0 code rest0. apply get_current_ami_id_body_ClientError.
    - erewrite get_current_ami_id_body_answered by (reflexivity || exact He).
      f_equal. unfold final. same_state. }
  split; [| split].
  - intros image_id more. apply H; (reflexivity || discriminate).
  - intros more. apply H; (reflexivity || discriminate).
  - apply H; (reflexivity || discriminate).
Qed.

Lemma get_current_ami_id_outcomes_witness :
  get_current_ami_id "lt-0abc" "1"
    (fresh [throttled; LaunchTemplateVersions [Some "ami-v1"; Some "ami-v0"]])
  = (Return "ami-v1",
     {| script := [];
        trace := failed_lookup "lt-0abc" "1" "Throttling" ++ [Sleep 2]
                 ++ [lookup_logged "lt-0abc" "1";
                     Call (DescribeLaunchTemplateVersions "lt-0abc" ["1"])
                          (LaunchTemplateVersions
                             [Some "ami-v1"; Some "ami-v0"])] |})
  /\ fst (get_current_ami_id "lt-0abc" "7"
            (fresh [LaunchTemplateVersions []; Empty]))
     = Raise (ValueError "Launch Template lt-0abc version 7 not found").
Proof.
  split.
  - apply (proj1 (@get_current_ami_id_outcomes "lt-0abc" "1" ["Throttling"]
                    []
                    (fresh [throttled;
                            LaunchTemplateVersions
                              [Some "ami-v1"; Some "ami-v0"]])
                    ltac:(cbn; lia))).
    reflexivity.
  - apply (f_equal fst
             (proj2 (proj2 (@get_current_ami_id_outcomes "lt-0abc" "7" []
                              [Empty]
                              (fresh [LaunchTemplateVersions []; Empty])
                              ltac:(cbn; lia)))
                eq_refl)).
Defined.

(** X3.  [start_instance_refresh], after up to two throttled start calls:
    an answer with a refresh id gives that id; any other answer raises
    [KeyError] and is not retried.  Every attempt sends the same request:
    the group, the strategy ['Rolling'] and the caller's preferences as
    they are. *)
Theorem start_instance_refresh_outcomes :
  forall asg_name prefs codes rest s,
    (List.length codes <= 2)%nat ->
    let final rs :=
      {| script := rest;
         trace := trace s
                  ++ throttled_attempts (failed_start asg_name prefs) codes
                  ++ [starting_refresh asg_name;
                      Call (StartInstanceRefresh asg_name "Rolling" prefs)
                           rs] |} in
    (forall id,
        script s = throttles codes ++ InstanceRefreshId id :: rest ->
        start_instance_refresh asg_name prefs s
        = (Return id, final (InstanceRefreshId id)))
    /\ (forall rs,
          script s = throttles codes ++ rs :: rest ->
          is_error rs = false ->
          (forall id, rs <> InstanceRefreshId id) ->
          start_instance_refresh asg_name prefs s
          = (Raise (KeyError "InstanceRefreshId"), final rs)).
Proof.
  intros asg_name prefs codes rest s Hlen final.
  assert (H : forall rs o,
             is_error rs = false ->
             (forall code, o <> Raise (ClientError code)) ->
             o = match rs with
                 | InstanceRefreshId id => Return id
                 | _ => Raise (KeyError "InstanceRefreshId")
                 end ->
             script s = throttles codes ++ rs :: rest ->
             start_instance_refresh asg_name prefs s = (o, final rs)).
  { intros rs o He Ho -> Hs. unfold start_instance_refresh.
    eapply retry_absorbs with (failed := failed_start asg_name prefs);
      [| exact Hlen | exact Hs | | exact Ho].
    - intros s0 code rest0. apply start_instance_refresh_body_ClientError.
    - erewrite start_instance_refresh_body_answered
        by (reflexivity || exact He).
      f_equal. unfold final. same_state. }
  split.
  - intros id. apply H; (reflexivity || discriminate).
  - intros rs Hs He Hid. apply H; try assumption.
    + destruct rs; discriminate.
    + destruct rs; try reflexivity. now contradiction (Hid id).
Qed.

Lemma start_instance_refresh_outcomes_witness :
  start_instance_refresh "test-asg" preferences
    (fresh [throttled; throttled; InstanceRefreshId "refresh-1"])
  = (Return "refresh-1",
     {| script := [];
        trace := failed_start "test-asg" preferences "Throttling" ++ [Sleep 2]
                 ++ failed_start "test-asg" preferences "Throttling"
                 ++ [Sleep 2]
                 ++ [starting_refresh "test-asg";
                     Call (StartInstanceRefresh "test-asg" "Rolling"
                             preferences)
                          (InstanceRefreshId "refresh-1")] |})
  /\ fst (start_instance_refresh "test-asg" preferences (fresh [Empty]))
     = Raise (KeyError "InstanceRefreshId").
Proof.
  split.
  - apply (proj1 (@start_instance_refresh_outcomes "test-asg" preferences
                    ["Throttling"; "Throttling"] []
                    (fresh [throttled; throttled;
                            InstanceRefreshId "refresh-1"])
                    ltac:(cbn; lia))).
    reflexivity.
  - apply (f_equal fst
             (proj2 (@start_instance_refresh_outcomes "test-asg" preferences
                       [] [] (fresh [Empty]) ltac:(cbn; lia))
                Empty eq_refl eq_refl ltac:(discriminate))).
Defined.

(** ** Errors on the way to the update *)

Lemma update_body_lookup_raised d lt new_ami_id desired mn mx s e s1 :
  LaunchTemplate d = Some lt ->
  get_current_ami_id (LaunchTemplateId lt) (Version lt) (emit checking s)
  = (Raise e, s1) ->
  ClientError_class e = false ->
  update_auto_scaling_group d new_ami_id desired mn mx s = (Raise e, s1).
Proof.
  intros Hlt Hami He. apply retry_other; [| exact He].
  unfold update_auto_scaling_group_body. rewrite bind_log.
  apply try_passed; [| exact He].
  unfold getitem_LaunchTemplate. rewrite Hlt, bind_ret. cbv zeta.
  now apply bind_Raise.
Qed.

(** X4.  On a group without the ['LaunchTemplate'] key,
    [update_auto_scaling_group] raises [KeyError] right after its first
    log line, without any call; [run], when it has created its clients and
    retrieved such a group, then logs the error and returns (exit status
    0): after the retrieval of the group the run makes no call. *)
Theorem update_without_launch_template :
  (forall d new_ami_id desired mn mx s,
      LaunchTemplate d = None ->
      update_auto_scaling_group d new_ami_id desired mn mx s
      = (Raise (KeyError "LaunchTemplate"), emit checking s))
  /\
  (forall cfg s d s1,
      host_label (aws_region cfg) = true ->
      get_current_asg_details (auto_scaling_group cfg) (started s)
      = (Return d, s1) ->
      LaunchTemplate d = None ->
      halts_logging cfg s "Error updating ASG with new AMI: {e}"
        (KeyError "LaunchTemplate")
        (emit checking (emit (details_logged d) s1))).
Proof.
  assert (H : forall d new_ami_id desired mn mx s,
      LaunchTemplate d = None ->
      update_auto_scaling_group d new_ami_id desired mn mx s
      = (Raise (KeyError "LaunchTemplate"), emit checking s)).
  { intros d new_ami_id desired mn mx s Hlt.
    apply retry_other; [| reflexivity].
    unfold update_auto_scaling_group_body. rewrite bind_log.
    apply try_passed; [| reflexivity].
    unfold getitem_LaunchTemplate. rewrite Hlt. reflexivity. }
  split; [exact H |].
  intros cfg s d s1 Hregion Hget Hlt. apply halts_logging_intro.
  eapply run_update_failed;
    [apply clients_created; exact Hregion | exact Hget |].
  now apply H.
Qed.

Lemma update_without_launch_template_witness :
  run (target "ami-v2" 2)
    (fresh [AutoScalingGroups
              [{| AutoScalingGroupName := "test-asg"; LaunchTemplate := None;
                  DesiredCapacity := 1; MinSize := 1; MaxSize := 1 |}];
            Empty])
  = (Return tt,
     {| script := [Empty];
        trace :=
          [Log INFO "Starting deployment process" [];
           Log INFO "Initializing AWS SDK" [];
           retrieving_logged "test-asg";
           Call (DescribeAutoScalingGroups ["test-asg"])
                (AutoScalingGroups
                   [{| AutoScalingGroupName := "test-asg";
                       LaunchTemplate := None;
                       DesiredCapacity := 1; MinSize := 1; MaxSize := 1 |}]);
           details_logged
             {| AutoScalingGroupName := "test-asg"; LaunchTemplate := None;
                DesiredCapacity := 1; MinSize := 1; MaxSize := 1 |};
           checking;
           Log ERROR "Error updating ASG with new AMI: {e}"
               [VExn (KeyError "LaunchTemplate")]] |}).
Proof.
  exact (proj1 (proj2 update_without_launch_template (target "ami-v2" 2)
                  (fresh [AutoScalingGroups
                            [{| AutoScalingGroupName := "test-asg";
                                LaunchTemplate := None;
                                DesiredCapacity := 1; MinSize := 1;
                                MaxSize := 1 |}];
                          Empty])
                  _ _ eq_refl eq_refl eq_refl)).
Defined.

(** X5.  An error of the image look-up leaves [update_auto_scaling_group]
    as it is, without the helper's own error log, without a second run of
    the helper and without any mutating call.  When the look-up is
    throttled three times, its [RetryError] is not a [ClientError] for the
    outer decorator: the describe call was made three times in all, not
    nine.  When the version is not there, the [ValueError] follows the one
    describe call. *)
Theorem image_lookup_errors_are_not_retried_again :
  forall d lt new_ami_id desired mn mx s,
    LaunchTemplate d = Some lt ->
    let id := LaunchTemplateId lt in
    let version := Version lt in
    (forall c1 c2 c3 rest,
        script s = throttles [c1; c2; c3] ++ rest ->
        update_auto_scaling_group d new_ami_id desired mn mx s
        = (Raise (RetryError (ClientError c3)),
           {| script := rest;
              trace := trace s ++ [checking]
                       ++ failed_lookup id version c1 ++ [Sleep 2]
                       ++ failed_lookup id version c2 ++ [Sleep 2]
                       ++ failed_lookup id version c3 |}))
    /\ (forall rest,
          script s = LaunchTemplateVersions [] :: rest ->
          update_auto_scaling_group d new_ami_id desired mn mx s
          = (Raise (ValueError ("Launch Template " ++ id ++ " version "
                                ++ version ++ " not found")),
             {| script := rest;
                trace := trace s ++
                  [checking; lookup_logged id version;
                   Call (DescribeLaunchTemplateVersions id [version])
                        (LaunchTemplateVersions [])] |})).
Proof.
  intros d lt new_ami_id desired mn mx s Hlt id version. split.
  - intros c1 c2 c3 rest Hs.
    eapply update_body_lookup_raised; [exact Hlt | | reflexivity].
    unfold get_current_ami_id. erewrite retry_exhausted.
    + reflexivity.
    + apply get_current_ami_id_body_ClientError. cbn. exact Hs.
    + apply get_current_ami_id_body_ClientError. reflexivity.
    + rewrite (@get_current_ami_id_body_ClientError id version _ c3 rest)
        by reflexivity.
      unfold checking. f_equal. same_state.
  - intros rest Hs.
    eapply update_body_lookup_raised; [exact Hlt | | reflexivity].
    unfold get_current_ami_id.
    erewrite retry_other; [| |].
    + reflexivity.
    + erewrite get_current_ami_id_body_answered
        by ((cbn; exact Hs) || reflexivity).
      unfold checking. f_equal. same_state.
    + reflexivity.
Qed.

Lemma image_lookup_errors_are_not_retried_again_witness :
  update_auto_scaling_group test_asg "ami-v2" 2 2 2
    (fresh [throttled; throttled; throttled;
            LaunchTemplateVersions [Some "ami-v1"]])
  = (Raise (RetryError (ClientError "Throttling")),
     {| script := [LaunchTemplateVersions [Some "ami-v1"]];
        trace := [checking]
                 ++ failed_lookup "lt-0abc" "1" "Throttling" ++ [Sleep 2]
                 ++ failed_lookup "lt-0abc" "1" "Throttling" ++ [Sleep 2]
                 ++ failed_lookup "lt-0abc" "1" "Throttling" |}).
Proof.
  exact (proj1 (@image_lookup_errors_are_not_retried_again test_asg
                  template_v1 "ami-v2" 2 2 2
                  (fresh [throttled; throttled; throttled;
                          LaunchTemplateVersions [Some "ami-v1"]])
                  eq_refl)
           "Throttling" "Throttling" "Throttling"
           [LaunchTemplateVersions [Some "ami-v1"]] eq_refl).
Defined.

(** ** The wait, on statuses that never end and on answers without status *)

Lemma is_terminal_iff status :
  is_terminal status = true
  <-> status = "Successful" \/ status = "Failed" \/ status = "Cancelled".
Proof.
  unfold is_terminal. cbn [existsb].
  rewrite !orb_true_iff, !String.eqb_eq. intuition discriminate.
Qed.

Lemma poll_exhausts asg_name id pending :
  Forall (fun statuses => in_progress statuses = true) pending ->
  forall fuel s,
    script s = map InstanceRefreshes pending ->
    (List.length pending < fuel)%nat ->
    poll_instance_refresh fuel asg_name id s
    = (Hang,
       {| script := [];
          trace := trace s ++ flat_map (poll_again asg_name id) pending |}).
Proof.
  induction 1 as [| statuses pending Hp _ IH]; intros fuel s Hs Hf;
    (destruct fuel as [| fuel]; [cbn in Hf; lia |]);
    cbn [poll_instance_refresh].
  - unfold bind, client_call. cbn [map] in Hs. rewrite Hs.
    f_equal. rewrite <- Hs. symmetry. apply state_eta.
  - run_call Hs (eq_refl false).
    destruct statuses as [| st tl]; [discriminate |].
    unfold in_progress in Hp. apply negb_true_iff in Hp.
    run_head. rewrite Hp. run_head.
    rewrite IH by (reflexivity || (cbn in Hf; lia)).
    cbn [flat_map poll_again]. same_state.
Qed.

(** What the loop makes of an answer that is not a non-empty list of
    refreshes: [IndexError] for an empty list, [KeyError] otherwise. *)
Lemma poll_until_no_status asg_name id rs rest pending :
  is_error rs = false ->
  (forall status others, rs <> InstanceRefreshes (status :: others)) ->
  Forall (fun statuses => in_progress statuses = true) pending ->
  forall fuel s,
    script s = map InstanceRefreshes pending ++ rs :: rest ->
    (List.length pending < fuel)%nat ->
    poll_instance_refresh fuel asg_name id s
    = (Raise match rs with
             | InstanceRefreshes _ => IndexError
             | _ => KeyError "InstanceRefreshes"
             end,
       {| script := rest;
          trace := trace s ++ flat_map (poll_again asg_name id) pending
                   ++ [Call (DescribeInstanceRefreshes asg_name [id]) rs] |}).
Proof.
  intros He Hrs. induction 1 as [| statuses pending Hp _ IH];
    intros fuel s Hs Hf;
    (destruct fuel as [| fuel]; [cbn in Hf; lia |]);
    cbn [poll_instance_refresh].
  - run_call Hs He.
    destruct rs as [| | | | [| st tl] | | |]; try discriminate;
      try reflexivity.
    now contradiction (Hrs st tl).
  - run_call Hs (eq_refl false).
    destruct statuses as [| st tl]; [discriminate |].
    unfold in_progress in Hp. apply negb_true_iff in Hp.
    run_head. rewrite Hp. run_head.
    rewrite IH by (reflexivity || (cbn in Hf; lia)).
    cbn [flat_map poll_again]. same_state.
Qed.

(** X6.  The wait ends on exactly three statuses, spelled ['Successful'],
    ['Failed'] and ['Cancelled'].  While the status query answers with any
    other status it neither returns nor raises: it has asked for every
    answer there is, logged and slept 10 after each, and is still
    polling. *)
Theorem wait_keeps_polling_on_other_statuses :
  (forall status,
      is_terminal status = true
      <-> status = "Successful" \/ status = "Failed" \/ status = "Cancelled")
  /\
  (forall asg_name id pending s,
      Forall (fun statuses => in_progress statuses = true) pending ->
      script s = map InstanceRefreshes pending ->
      wait_for_instance_refresh asg_name id s
      = (Hang,
         {| script := [];
            trace := trace s ++ [waiting_logged asg_name id]
                     ++ flat_map (poll_again asg_name id) pending |})).
Proof.
  split; [apply is_terminal_iff |].
  intros asg_name id pending s Hp Hs.
  apply retry_Hang. unfold wait_for_instance_refresh_body.
  rewrite bind_log. apply try_Hang.
  erewrite poll_exhausts; eauto.
  - same_state.
  - unfold enough_fuel, emit. cbn [script]. rewrite Hs, length_map. lia.
Qed.

(** A refresh that is rolled back: ['RollbackInProgress'], then
    ['RollbackSuccessful'] for good. *)
Lemma wait_keeps_polling_on_other_statuses_witness :
  wait_for_instance_refresh "test-asg" "refresh-1"
    (fresh [InstanceRefreshes ["RollbackInProgress"];
            InstanceRefreshes ["RollbackSuccessful"];
            InstanceRefreshes ["RollbackSuccessful"]])
  = (Hang,
     {| script := [];
        trace := [waiting_logged "test-asg" "refresh-1"]
                 ++ poll_again "test-asg" "refresh-1" ["RollbackInProgress"]
                 ++ poll_again "test-asg" "refresh-1" ["RollbackSuccessful"]
                 ++ poll_again "test-asg" "refresh-1" ["RollbackSuccessful"]
     |}).
Proof.
  apply (proj2 wait_keeps_polling_on_other_statuses "test-asg" "refresh-1"
           [["RollbackInProgress"]; ["RollbackSuccessful"];
            ["RollbackSuccessful"]]).
  - repeat constructor.
  - reflexivity.
Defined.

(** X7.  When the status query answers with an empty list of refreshes (or
    with no list), the wait raises [IndexError] (or [KeyError]) at that
    query: the error is not retried and not logged by the helper, and the
    rest of the script is left unread. *)
Theorem wait_raises_on_answer_without_status :
  forall asg_name id pending rs rest s,
    Forall (fun statuses => in_progress statuses = true) pending ->
    is_error rs = false ->
    (forall status others, rs <> InstanceRefreshes (status :: others)) ->
    script s = map InstanceRefreshes pending ++ rs :: rest ->
    wait_for_instance_refresh asg_name id s
    = (Raise match rs with
             | InstanceRefreshes _ => IndexError
             | _ => KeyError "InstanceRefreshes"
             end,
       {| script := rest;
          trace := trace s ++ [waiting_logged asg_name id]
                   ++ flat_map (poll_again asg_name id) pending
                   ++ [Call (DescribeInstanceRefreshes asg_name [id]) rs] |}).
Proof.
  intros asg_name id pending rs rest s Hp He Hrs Hs.
  assert (Hc : ClientError_class match rs with
                                 | InstanceRefreshes _ => IndexError
                                 | _ => KeyError "InstanceRefreshes"
                                 end = false)
    by (now destruct rs).
  apply retry_other; [| exact Hc].
  unfold wait_for_instance_refresh_body. rewrite bind_log.
  erewrite try_passed; [| | exact Hc].
  2:{ eapply poll_until_no_status; eauto.
      unfold enough_fuel, emit. cbn [script].
      rewrite Hs, length_app, length_map. cbn. lia. }
  same_state.
Qed.

Lemma wait_raises_on_answer_without_status_witness :
  wait_for_instance_refresh "test-asg" "refresh-9"
    (fresh [InstanceRefreshes ["Pending"]; InstanceRefreshes [];
            InstanceRefreshes ["Successful"]])
  = (Raise IndexError,
     {| script := [InstanceRefreshes ["Successful"]];
        trace := [waiting_logged "test-asg" "refresh-9"]
                 ++ poll_again "test-asg" "refresh-9" ["Pending"]
                 ++ [Call (DescribeInstanceRefreshes "test-asg" ["refresh-9"])
                          (InstanceRefreshes [])] |}).
Proof.
  apply (@wait_raises_on_answer_without_status "test-asg" "refresh-9"
           [["Pending"]] (InstanceRefreshes [])
           [InstanceRefreshes ["Successful"]]).
  - repeat constructor.
  - reflexivity.
  - discriminate.
  - reflexivity.
Defined.

(** ** What a helper never sends *)

Lemma emits_ext (P : event -> Prop) {A} (m m' : M A) :
  (forall s, m' s = m s) -> emits P m -> emits P m'.
Proof. intros H Hm s. rewrite H. apply Hm. Qed.

(** The leaves of a footprint proof: logs and sleeps are not calls. *)
Ltac footprint :=
  emits_auto; try exact I; try (cbn; auto; fail).

Lemma get_current_asg_details_footprint asg_name :
  emits (calls_only (fun rq => rq = DescribeAutoScalingGroups [asg_name]))
        (get_current_asg_details asg_name).
Proof.
  unfold get_current_asg_details, get_current_asg_details_body. footprint.
Qed.

Lemma get_current_ami_id_footprint id version :
  emits (calls_only
           (fun rq => rq = DescribeLaunchTemplateVersions id [version]))
        (get_current_ami_id id version).
Proof. unfold get_current_ami_id, get_current_ami_id_body. footprint. Qed.

Lemma start_instance_refresh_footprint asg_name prefs :
  emits (calls_only
           (fun rq => rq = StartInstanceRefresh asg_name "Rolling" prefs))
        (start_instance_refresh asg_name prefs).
Proof.
  unfold start_instance_refresh, start_instance_refresh_body. footprint.
Qed.

(** X8.  Whatever the control plane answers or fails with, the three
    helpers that make one call send nothing but that call with their own
    arguments: the describe of the one group, the describe of the one
    template version, the start of a rolling refresh of the group with the
    caller's preferences. *)
Theorem single_call_helpers_send_only_their_request :
  (forall asg_name s,
      extends_with
        (calls_only (fun rq => rq = DescribeAutoScalingGroups [asg_name]))
        s (snd (get_current_asg_details asg_name s)))
  /\ (forall id version s,
        extends_with
          (calls_only
             (fun rq => rq = DescribeLaunchTemplateVersions id [version]))
          s (snd (get_current_ami_id id version s)))
  /\ (forall asg_name prefs s,
        extends_with
          (calls_only
             (fun rq => rq = StartInstanceRefresh asg_name "Rolling" prefs))
          s (snd (start_instance_refresh asg_name prefs s))).
Proof.
  split; [| split].
  - intros asg_name. apply get_current_asg_details_footprint.
  - intros id version. apply get_current_ami_id_footprint.
  - intros asg_name prefs. apply start_instance_refresh_footprint.
Qed.

Lemma poll_instance_refresh_footprint fuel asg_name id :
  emits (calls_only (fun rq => rq = DescribeInstanceRefreshes asg_name [id]))
        (poll_instance_refresh fuel asg_name id).
Proof.
  induction fuel as [| fuel IH]; cbn [poll_instance_refresh]; footprint.
Qed.

(** X9.  Whatever the control plane answers or fails with, and however
    long it lasts, [wait_for_instance_refresh] sends nothing but the status
    query of the one refresh of the one group: it never changes
    anything. *)
Theorem wait_sends_only_status_queries :
  forall asg_name id s,
    exists evs,
      trace (snd (wait_for_instance_refresh asg_name id s)) = trace s ++ evs
      /\ Forall (calls_only
                   (fun rq => rq = DescribeInstanceRefreshes asg_name [id]))
                evs
      /\ filter is_mutating_call evs = [].
Proof.
  intros asg_name id s.
  assert (H : emits (calls_only
                       (fun rq => rq = DescribeInstanceRefreshes asg_name [id]))
                (wait_for_instance_refresh asg_name id)).
  { unfold wait_for_instance_refresh, wait_for_instance_refresh_body.
    footprint.
    apply (emits_fuel (fun fuel => poll_instance_refresh fuel _ _)).
    intros fuel. apply poll_instance_refresh_footprint. }
  destruct (H s) as (evs & Ht & F). exists evs. repeat split; auto.
  clear Ht. induction F as [| e evs He _ IH]; [reflexivity |].
  cbn [filter]. rewrite IH.
  destruct e as [rq rs | |]; try reflexivity. cbn in He. now subst rq.
Qed.

(** X10.  Whatever the control plane answers or fails with,
    [update_auto_scaling_group] sends only: the look-up of the image of the
    group's template version; the creation of a version from that version
    with the target image; the update of the group under the name the
    snapshot has, with the target capacities and either no template or a
    version of the group's own template.  For a group without template it
    sends nothing. *)
Theorem update_sends_only_its_requests :
  forall d new_ami_id desired mn mx s,
    extends_with (calls_only (update_request d new_ami_id desired mn mx))
      s (snd (update_auto_scaling_group d new_ami_id desired mn mx s)).
Proof.
  intros d new_ami_id desired mn mx.
  change (emits (calls_only (update_request d new_ami_id desired mn mx))
            (update_auto_scaling_group d new_ami_id desired mn mx)).
  unfold update_auto_scaling_group, update_auto_scaling_group_body.
  apply emits_retry; [intros; exact I |].
  apply emits_bind; [apply emits_log; exact I | intros _].
  apply emits_try; [| intros e; footprint].
  unfold getitem_LaunchTemplate, update_request.
  destruct (LaunchTemplate d) as [lt |];
    [| eapply emits_ext; [intros s; apply bind_raise | apply emits_raise]].
  eapply emits_ext; [intros s; apply bind_ret | cbv zeta].
  apply emits_bind.
  { eapply emits_weaken; [| apply get_current_ami_id_footprint].
    intros [rq rs | |]; cbn; auto. }
  intros current.
  destruct (unchanged d current new_ami_id desired mn mx); [footprint |].
  apply emits_bind; [apply emits_log; exact I | intros _].
  destruct (negb _).
  - eapply emits_ext; [intros s; apply bind_bind |].
    apply emits_bind; [apply emits_log; exact I | intros _].
    eapply emits_ext; [intros s; apply bind_bind |].
    apply emits_bind; [apply emits_client_call; intros rs; cbn; auto |].
    intros rs.
    destruct rs as [| | new_version | | | | |];
      try (eapply emits_ext; [intros s; apply bind_raise | apply emits_raise]).
    eapply emits_ext; [intros s; apply bind_ret |].
    apply emits_bind; [| intros rs; footprint].
    apply emits_client_call. intros rs. cbn. right. right.
    eexists. split; [reflexivity |]. right. now exists new_version.
  - eapply emits_ext; [intros s; apply bind_ret |].
    apply emits_bind; [| intros rs; footprint].
    apply emits_client_call. intros rs. cbn. right. right.
    eexists. split; [reflexivity |]. now left.
Qed.

(** ** Reasoning with an automaton *)

Section Admits.

Variable St : Type.
Variable step : St -> event -> option St.

Lemma reads_app st evs1 evs2 st1 :
  reads step st evs1 = Some st1 ->
  reads step st (evs1 ++ evs2) = reads step st1 evs2.
Proof.
  revert st. induction evs1 as [| e evs1 IH]; intros st; cbn.
  - now intros [= ->].
  - destruct (step st e) as [st' |]; [apply IH | discriminate].
Qed.

Lemma admits_ext {A} P (m m' : M A) Q :
  (forall s, m' s = m s) -> admits step P m Q -> admits step P m' Q.
Proof. intros H Hm s st Hst. rewrite H. now apply Hm. Qed.

Lemma admits_conseq {A} (P P' : St -> Prop) (m : M A)
  (Q Q' : outcome A -> St -> Prop) :
  (forall st, P' st -> P st) -> (forall o st, Q o st -> Q' o st) ->
  admits step P m Q -> admits step P' m Q'.
Proof.
  intros HP HQ Hm s st Hst.
  destruct (Hm s st (HP _ Hst)) as (evs & st' & Ht & Hr & Hq).
  exists evs, st'. auto.
Qed.

Lemma admits_ret {A} (P : St -> Prop) (a : A) Q :
  (forall st, P st -> Q (Return a) st) -> admits step P (ret a) Q.
Proof.
  intros H s st Hst. exists [], st. cbn. rewrite app_nil_r. auto.
Qed.

Lemma admits_raise {A} (P : St -> Prop) e (Q : outcome A -> St -> Prop) :
  (forall st, P st -> Q (Raise e) st) -> admits step P (raise e) Q.
Proof.
  intros H s st Hst. exists [], st. cbn. rewrite app_nil_r. auto.
Qed.

Lemma admits_hang {A} (P : St -> Prop) (Q : outcome A -> St -> Prop) :
  (forall st, P st -> Q Hang st) -> admits step P (fun s => (Hang, s)) Q.
Proof.
  intros H s st Hst. exists [], st. cbn. rewrite app_nil_r. auto.
Qed.

Lemma admits_log (P : St -> Prop) lvl message args Q :
  (forall st, P st ->
     exists st', step st (Log lvl message args) = Some st'
                 /\ Q (Return tt) st') ->
  admits step P (log lvl message args) Q.
Proof.
  intros H s st Hst. destruct (H st Hst) as (st' & Hs & Hq).
  exists [Log lvl message args], st'. cbn. rewrite Hs. auto.
Qed.

Lemma admits_sleep (P : St -> Prop) seconds Q :
  (forall st, P st ->
     exists st', step st (Sleep seconds) = Some st' /\ Q (Return tt) st') ->
  admits step P (sleep seconds) Q.
Proof.
  intros H s st Hst. destruct (H st Hst) as (st' & Hs & Hq).
  exists [Sleep seconds], st'. cbn. rewrite Hs. auto.
Qed.

Lemma admits_client_call (P : St -> Prop) rq Q :
  (forall st, P st -> Q Hang st) ->
  (forall st rs, P st ->
     exists st', step st (Call rq rs) = Some st' /\ Q (outcome_of rs) st') ->
  admits step P (client_call rq) Q.
Proof.
  intros Hh Hc s st Hst. unfold client_call.
  destruct (script s) as [| rs rest].
  - exists [], st. cbn. rewrite app_nil_r. auto.
  - destruct (Hc st rs Hst) as (st' & Hs & Hq).
    exists [Call rq rs], st'.
    destruct rs; cbn in *; rewrite Hs; auto.
Qed.

Lemma admits_bind {A B} (P : St -> Prop) (m : M A) (k : A -> M B) Q R :
  admits step P m Q ->
  (forall a, admits step (Q (Return a)) (k a) R) ->
  (forall e st, Q (Raise e) st -> R (Raise e) st) ->
  (forall st, Q Hang st -> R Hang st) ->
  admits step P (bind m k) R.
Proof.
  intros Hm Hk He Hh s st Hst.
  destruct (Hm s st Hst) as (evs & st1 & Ht & Hr & Hq). unfold bind.
  destruct (m s) as [[a | e |] s1]; cbn [fst snd] in *.
  - destruct (Hk a s1 st1 Hq) as (evs2 & st2 & Ht2 & Hr2 & Hq2).
    exists (evs ++ evs2), st2. rewrite Ht2, Ht, app_assoc.
    erewrite reads_app by exact Hr. auto.
  - exists evs, st1. auto.
  - exists evs, st1. auto.
Qed.

Lemma admits_try {A} (P : St -> Prop) (body : M A) cls handler Q R :
  admits step P body Q ->
  (forall e, cls e = true -> admits step (Q (Raise e)) (handler e) R) ->
  (forall a st, Q (Return a) st -> R (Return a) st) ->
  (forall e st, cls e = false -> Q (Raise e) st -> R (Raise e) st) ->
  (forall st, Q Hang st -> R Hang st) ->
  admits step P (try_except body cls handler) R.
Proof.
  intros Hb Hc Ha He Hh s st Hst.
  destruct (Hb s st Hst) as (evs & st1 & Ht & Hr & Hq). unfold try_except.
  destruct (body s) as [[a | e |] s1]; cbn [fst snd] in *.
  - exists evs, st1. auto.
  - destruct (cls e) eqn:Ecls; cbn [fst snd].
    + destruct (Hc e Ecls s1 st1 Hq) as (evs2 & st2 & Ht2 & Hr2 & Hq2).
      exists (evs ++ evs2), st2. rewrite Ht2, Ht, app_assoc.
      erewrite reads_app by exact Hr. repeat split; auto.
    + exists evs, st1. auto.
  - exists evs, st1. auto.
Qed.

(** The decorator: [I] holds whenever an attempt starts. *)
Lemma admits_retrying {A} (I : St -> Prop) (f : M A) Qf Q budget n :
  admits step I f Qf ->
  (forall a st, Qf (Return a) st -> Q (Return a) st) ->
  (forall st, Qf Hang st -> Q Hang st) ->
  (forall e st, ClientError_class e = false -> Qf (Raise e) st ->
     Q (Raise e) st) ->
  (forall e st, ClientError_class e = true -> Qf (Raise e) st ->
     Q (Raise (RetryError e)) st /\ Q Hang st
     /\ forall seconds,
         exists st', step st (Sleep seconds) = Some st' /\ I st') ->
  admits step I (retrying budget n f) Q.
Proof.
  intros Hf Ha Hh He Hc. revert n.
  induction budget as [| budget IH]; intros n s st Hst;
    destruct (Hf s st Hst) as (evs & st1 & Ht & Hr & Hq);
    cbn [retrying]; unfold retry_if_exception_type;
    destruct (f s) as [[a | e |] s1]; cbn [fst snd] in *;
    try (exists evs, st1; now auto).
  - destruct (ClientError_class e) eqn:Ecls; cbn [negb fst snd];
      [| exists evs, st1; now auto].
    destruct (Hc e st1 Ecls Hq) as (Hq1 & Hq2 & Hsl).
    destruct (stop_after_attempt 3 n); exists evs, st1; auto.
  - destruct (ClientError_class e) eqn:Ecls; cbn [negb fst snd];
      [| exists evs, st1; now auto].
    destruct (Hc e st1 Ecls Hq) as (Hq1 & Hq2 & Hsl).
    destruct (stop_after_attempt 3 n); [exists evs, st1; now auto |].
    destruct (Hsl (wait_exponential 1 2 10 n)) as (st2 & Hs2 & Hi2).
    unfold bind, sleep.
    destruct (IH (S n) (emit (Sleep (wait_exponential 1 2 10 n)) s1) st2 Hi2)
      as (evs3 & st3 & Ht3 & Hr3 & Hq3).
    exists (evs ++ [Sleep (wait_exponential 1 2 10 n)] ++ evs3), st3.
    rewrite Ht3. cbn [emit trace]. rewrite Ht, <- !app_assoc.
    repeat split; auto.
    erewrite reads_app by exact Hr. cbn [app reads]. now rewrite Hs2.
Qed.

Lemma admits_fuel {A} (P : St -> Prop) (loop : nat -> M A) Q :
  (forall fuel, admits step P (loop fuel) Q) ->
  admits step P (fun s => loop (enough_fuel s) s) Q.
Proof. intros H s. apply H. Qed.

End Admits.

(** ** What the reaper terminates *)

Lemma old_instances_stale asg_name listed i :
  In i (old_instances asg_name listed) ->
  existsb (fun j => String.eqb (InstanceId j) (InstanceId i)
                    && stale asg_name j) listed = true.
Proof.
  unfold old_instances. intros H. apply filter_In in H as [Hin Hst].
  apply existsb_exists. exists i. split; [exact Hin |].
  unfold stale. now rewrite String.eqb_refl, Hst.
Qed.

Lemma terminate_each_admitted asg_name listed l :
  (forall i, In i l -> In i (old_instances asg_name listed)) ->
  admits (reaper_step asg_name) (eq listed) (terminate_each l)
         (fun _ => eq listed).
Proof.
  induction l as [| i l IH]; intros Hl; cbn [terminate_each].
  - apply admits_ret. auto.
  - apply admits_bind with (Q := fun _ => eq listed); auto.
    + apply admits_client_call; [auto |].
      intros st rs <-. exists listed. split; [| reflexivity].
      cbn [reaper_step].
      now rewrite (old_instances_stale asg_name listed i
                     (Hl i (or_introl eq_refl))).
    + intros _. apply IH. intros j Hj. apply Hl. now right.
Qed.

Lemma reap_old_instances_admitted fuel asg_name :
  admits (reaper_step asg_name) (fun _ => True)
         (reap_old_instances fuel asg_name) (fun _ _ => True).
Proof.
  induction fuel as [| fuel IH]; cbn [reap_old_instances].
  { apply admits_hang. auto. }
  apply admits_bind
    with (Q := fun o st =>
                 forall l, o = Return (AutoScalingInstances l) -> st = l);
    auto.
  { apply admits_client_call; [discriminate |].
    intros st rs _.
    destruct rs; cbn; eexists; (split; [reflexivity |]);
      intros l'; try discriminate.
    now intros [= ->]. }
  intros rs.
  destruct rs as [| | | | | instances | |];
    try (eapply admits_ext; [intros s; apply bind_raise |];
         apply admits_raise; now auto).
  eapply admits_ext; [intros s; apply bind_ret |].
  apply admits_conseq with (P := eq instances) (Q := fun _ _ => True); auto.
  { intros st H. symmetry. now apply H. }
  destruct (old_instances asg_name instances) as [| i old] eqn:E.
  { apply admits_log. intros st _. now exists st. }
  apply admits_bind with (Q := fun _ => eq instances); auto.
  { apply admits_log. intros st <-. now exists instances. }
  intros _. apply admits_bind with (Q := fun _ => eq instances); auto.
  { apply terminate_each_admitted. intros j Hj. now rewrite E. }
  intros _. apply admits_bind with (Q := fun _ _ => True); auto.
  apply admits_sleep. intros st _. now exists st.
Qed.

(** X11.  Whatever the control plane answers or fails with, and through
    all the attempts of the decorator, [verify_old_instances_termination]
    sends only listings and terminate calls, and every terminate call names
    one instance: an instance of the latest listing answered before it,
    which that listing shows as a member of the group with a life-cycle
    state other than [InService].  It sends no terminate call before a
    listing was answered, and none for an instance of another group. *)
Theorem reaper_terminates_only_stale_instances_of_the_latest_listing :
  forall asg_name s,
    exists evs listed,
      trace (snd (verify_old_instances_termination asg_name s))
      = trace s ++ evs
      /\ reads (reaper_step asg_name) [] evs = Some listed.
Proof.
  intros asg_name s.
  assert (H : admits (reaper_step asg_name) (fun _ => True)
                (verify_old_instances_termination asg_name)
                (fun _ _ => True)).
  { unfold verify_old_instances_termination.
    apply admits_retrying with (Qf := fun _ _ => True); auto.
    - unfold verify_old_instances_termination_body.
      apply admits_bind with (Q := fun _ _ => True); auto.
      { apply admits_log. intros st _. now exists st. }
      intros _. apply admits_try with (Q := fun _ _ => True); auto.
      + apply admits_fuel
          with (loop := fun fuel => reap_old_instances fuel asg_name).
        intros fuel. apply reap_old_instances_admitted.
      + intros e _. apply admits_bind with (Q := fun _ _ => True); auto.
        { apply admits_log. intros st _. now exists st. }
        intros _. apply admits_raise. auto.
    - intros e st _ _. repeat split; auto. intros seconds. now exists st. }
  destruct (H s [] I) as (evs & listed & Ht & Hr & _). now exists evs, listed.
Qed.

(** ** The order of the calls of a run *)

(** The side conditions on the phases. *)
Ltac settled :=
  intros; repeat match goal with Q := _ |- _ => subst Q end;
  cbn in *; subst; auto.

(** A log record or a sleep in a known phase. *)
Ltac passes :=
  first [apply admits_log | apply admits_sleep];
  intros ? <-; eexists; split; reflexivity.

Lemma preferences_eqb_refl p : preferences_eqb p p = true.
Proof.
  unfold preferences_eqb. rewrite !Z.eqb_refl, Bool.eqb_reflx. reflexivity.
Qed.

Lemma get_current_asg_details_protocol cfg :
  admits (protocol_step cfg) (eq Looking)
         (get_current_asg_details (auto_scaling_group cfg))
         (post (fun g ph => ph = Found g) (eq Looking)).
Proof.
  unfold get_current_asg_details.
  apply admits_retrying
    with (Qf := post (fun g ph => ph = Found g) (eq Looking)); auto.
  - unfold get_current_asg_details_body.
    apply admits_bind with (Q := fun _ => eq Looking); auto; [passes |].
    intros _. apply admits_try
      with (Q := post (fun g ph => ph = Found g) (eq Looking)); auto.
    + apply admits_bind
        with (Q := post (fun rs ph =>
                           ph = match rs with
                                | AutoScalingGroups (g :: _) => Found g
                                | _ => Looking
                                end)
                        (eq Looking)); auto.
      * apply admits_client_call; [auto |].
        intros st rs <-. cbn [protocol_step]. rewrite String.eqb_refl.
        eexists. split; [reflexivity |]. now destruct rs.
      * intros rs. destruct rs as [[| g groups] | | | | | | |];
          first [apply admits_ret | apply admits_raise]; settled.
    + intros e _. apply admits_bind with (Q := fun _ => eq Looking); auto.
      * passes.
      * intros _. apply admits_raise. settled.
  - intros e st _ H. cbn in H. subst st. repeat split.
    intros seconds. exists Looking. split; reflexivity.
Qed.

Lemma get_current_ami_id_protocol cfg d id version :
  admits (protocol_step cfg) (eq (Found d)) (get_current_ami_id id version)
         (fun _ => eq (Found d)).
Proof.
  unfold get_current_ami_id.
  apply admits_retrying with (Qf := fun _ => eq (Found d)); auto.
  - unfold get_current_ami_id_body.
    apply admits_bind with (Q := fun _ => eq (Found d)); auto; [passes |].
    intros _. apply admits_try with (Q := fun _ => eq (Found d)); auto.
    + apply admits_bind with (Q := fun _ => eq (Found d)); auto.
      * apply admits_client_call; [auto |].
        intros st rs <-. exists (Found d). split; reflexivity.
      * intros rs. destruct rs as [| [| [image |] l] | | | | | |];
          first [apply admits_ret | apply admits_raise]; settled.
    + intros e _. apply admits_bind with (Q := fun _ => eq (Found d)); auto.
      * passes.
      * intros _. apply admits_raise. settled.
  - intros e st _ <-. repeat split.
    intros seconds. exists (Found d). split; reflexivity.
Qed.

Lemma update_auto_scaling_group_protocol cfg d :
  admits (protocol_step cfg) (eq (Found d))
         (update_auto_scaling_group d (ami_id cfg) (desired_capacity cfg)
                                    (min_size cfg) (max_size cfg))
         (post (fun r ph => match r with
                            | Some _ => ph = Updated
                            | None => ph = Found d
                            end)
               (eq (Found d))).
Proof.
  set (Q := post (fun (r : option version_id) ph =>
                    match r with
                    | Some _ => ph = Updated
                    | None => ph = Found d
                    end)
                 (eq (Found d))).
  unfold update_auto_scaling_group.
  apply admits_retrying with (Qf := Q); auto.
  2:{ intros e st _ H. cbn in H. subst st. repeat split.
      intros seconds. exists (Found d). split; reflexivity. }
  unfold update_auto_scaling_group_body.
  apply admits_bind with (Q := fun _ => eq (Found d)); auto; [passes |].
  intros _. apply admits_try with (Q := Q); auto.
  2:{ intros e _. apply admits_bind with (Q := fun _ => eq (Found d)); auto.
      - apply admits_log. intros st H. cbn in H. subst st.
        exists (Found d). split; reflexivity.
      - intros _. apply admits_raise. settled. }
  unfold getitem_LaunchTemplate.
  destruct (LaunchTemplate d) as [lt |];
    [| eapply admits_ext; [intros s; apply bind_raise |];
       apply admits_raise; now settled].
  eapply admits_ext; [intros s; apply bind_ret | cbv zeta].
  apply admits_bind with (Q := fun _ => eq (Found d)); auto;
    [apply get_current_ami_id_protocol |].
  intros current.
  destruct (unchanged d current (ami_id cfg) (desired_capacity cfg)
                      (min_size cfg) (max_size cfg)).
  { apply admits_bind with (Q := fun _ => eq (Found d)); auto; [passes |].
    intros _. apply admits_ret. settled. }
  apply admits_bind with (Q := fun _ => eq (Found d)); auto; [passes |].
  intros _.
  apply admits_bind with (Q := fun _ => eq (Found d)); auto.
  { destruct (negb _); [| apply admits_ret; settled].
    apply admits_bind with (Q := fun _ => eq (Found d)); auto; [passes |].
    intros _. apply admits_bind with (Q := fun _ => eq (Found d)); auto.
    - apply admits_client_call; [auto |].
      intros st rs <-. cbn [protocol_step]. rewrite String.eqb_refl.
      exists (Found d). split; reflexivity.
    - intros rs. destruct rs;
        first [apply admits_ret | apply admits_raise]; settled. }
  intros params.
  apply admits_bind with (Q := post (fun _ ph => ph = Updated) (eq (Found d)));
    auto.
  - apply admits_client_call; [auto |].
    intros st rs <-. cbn [protocol_step].
    rewrite String.eqb_refl, !Z.eqb_refl. cbn [andb].
    eexists. split; [reflexivity |]. now destruct rs.
  - intros rs. apply admits_ret. settled.
Qed.

Lemma start_instance_refresh_protocol cfg :
  admits (protocol_step cfg) (eq Updated)
         (start_instance_refresh (auto_scaling_group cfg)
                                 (instance_refresh cfg))
         (post (fun id ph => ph = Started id) (eq Updated)).
Proof.
  set (Q := post (fun id ph => ph = Started id) (eq Updated)).
  unfold start_instance_refresh.
  apply admits_retrying with (Qf := Q); auto.
  2:{ intros e st _ H. cbn in H. subst st. repeat split.
      intros seconds. exists Updated. split; reflexivity. }
  unfold start_instance_refresh_body.
  apply admits_bind with (Q := fun _ => eq Updated); auto; [passes |].
  intros _. apply admits_try with (Q := Q); auto.
  2:{ intros e _. apply admits_bind with (Q := fun _ => eq Updated); auto.
      - apply admits_log. intros st H. cbn in H. subst st.
        exists Updated. split; reflexivity.
      - intros _. apply admits_raise. settled. }
  apply admits_bind
    with (Q := post (fun rs ph =>
                       ph = match rs with
                            | InstanceRefreshId id => Started id
                            | _ => Updated
                            end)
                    (eq Updated)); auto.
  - apply admits_client_call; [auto |].
    intros st rs <-. cbn [protocol_step].
    rewrite !String.eqb_refl, preferences_eqb_refl. cbn [andb].
    eexists. split; [reflexivity |]. now destruct rs.
  - intros rs. destruct rs;
      first [apply admits_ret | apply admits_raise]; settled.
Qed.

Lemma poll_instance_refresh_protocol cfg id fuel :
  admits (protocol_step cfg) (eq (Started id))
         (poll_instance_refresh fuel (auto_scaling_group cfg) id)
         (post (fun _ ph => ph = Refreshed) (eq (Started id))).
Proof.
  induction fuel as [| fuel IH]; cbn [poll_instance_refresh].
  { apply admits_hang. settled. }
  apply admits_bind
    with (Q := post (fun rs ph =>
                       ph = match rs with
                            | InstanceRefreshes (status :: _) =>
                                if is_terminal status then Refreshed
                                else Started id
                            | _ => Started id
                            end)
                    (eq (Started id))); auto.
  { apply admits_client_call; [auto |].
    intros st rs <-. cbn [protocol_step]. rewrite !String.eqb_refl.
    cbn [andb]. eexists. split; [reflexivity |]. now destruct rs. }
  intros rs.
  destruct rs as [| | | | [| status l] | | |];
    try (eapply admits_ext; [intros s; apply bind_raise |];
         apply admits_raise; now settled).
  eapply admits_ext; [intros s; apply bind_ret |].
  unfold post at 1. destruct (is_terminal status).
  - apply admits_log. intros st ->. exists Refreshed. split; reflexivity.
  - apply admits_bind with (Q := fun _ => eq (Started id)); auto.
    { apply admits_log. intros st ->. exists (Started id).
      split; reflexivity. }
    intros _. apply admits_bind with (Q := fun _ => eq (Started id)); auto.
    passes.
Qed.

Lemma wait_for_instance_refresh_protocol cfg id :
  admits (protocol_step cfg) (eq (Started id))
         (wait_for_instance_refresh (auto_scaling_group cfg) id)
         (post (fun _ ph => ph = Refreshed) (eq (Started id))).
Proof.
  set (Q := post (fun (_ : unit) ph => ph = Refreshed) (eq (Started id))).
  unfold wait_for_instance_refresh.
  apply admits_retrying with (Qf := Q); auto.
  2:{ intros e st _ H. cbn in H. subst st. repeat split.
      intros seconds. exists (Started id). split; reflexivity. }
  unfold wait_for_instance_refresh_body.
  apply admits_bind with (Q := fun _ => eq (Started id)); auto; [passes |].
  intros _. apply admits_try with (Q := Q); auto.
  - apply admits_fuel
      with (loop := fun fuel =>
                      poll_instance_refresh fuel (auto_scaling_group cfg) id).
    intros fuel. apply poll_instance_refresh_protocol.
  - intros e _. apply admits_bind with (Q := fun _ => eq (Started id)); auto.
    + apply admits_log. intros st H. cbn in H. subst st.
      exists (Started id). split; reflexivity.
    + intros _. apply admits_raise. settled.
Qed.

Lemma terminate_each_protocol cfg l :
  admits (protocol_step cfg) (eq Refreshed) (terminate_each l)
         (fun _ => eq Refreshed).
Proof.
  induction l as [| i l IH]; cbn [terminate_each].
  - apply admits_ret. settled.
  - apply admits_bind with (Q := fun _ => eq Refreshed); auto.
    apply admits_client_call; [auto |].
    intros st rs <-. exists Refreshed. split; reflexivity.
Qed.

Lemma reap_old_instances_protocol cfg asg_name fuel :
  admits (protocol_step cfg) (eq Refreshed)
         (reap_old_instances fuel asg_name) (fun _ => eq Refreshed).
Proof.
  induction fuel as [| fuel IH]; cbn [reap_old_instances].
  { apply admits_hang. settled. }
  apply admits_bind with (Q := fun _ => eq Refreshed); auto.
  { apply admits_client_call; [auto |].
    intros st rs <-. exists Refreshed. split; reflexivity. }
  intros rs. apply admits_bind with (Q := fun _ => eq Refreshed); auto.
  { destruct rs; first [apply admits_ret | apply admits_raise]; settled. }
  intros instances. destruct (old_instances asg_name instances); [passes |].
  apply admits_bind with (Q := fun _ => eq Refreshed); auto; [passes |].
  intros _. apply admits_bind with (Q := fun _ => eq Refreshed); auto;
    [apply terminate_each_protocol |].
  intros _. apply admits_bind with (Q := fun _ => eq Refreshed); auto.
  passes.
Qed.

Lemma verify_old_instances_termination_protocol cfg asg_name :
  admits (protocol_step cfg) (eq Refreshed)
         (verify_old_instances_termination asg_name) (fun _ => eq Refreshed).
Proof.
  unfold verify_old_instances_termination.
  apply admits_retrying with (Qf := fun _ => eq Refreshed); auto.
  2:{ intros e st _ <-. repeat split.
      intros seconds. exists Refreshed. split; reflexivity. }
  unfold verify_old_instances_termination_body.
  apply admits_bind with (Q := fun _ => eq Refreshed); auto; [passes |].
  intros _. apply admits_try with (Q := fun _ => eq Refreshed); auto.
  - apply admits_fuel
      with (loop := fun fuel => reap_old_instances fuel asg_name).
    intros fuel. apply reap_old_instances_protocol.
  - intros e _. apply admits_bind with (Q := fun _ => eq Refreshed); auto.
    + passes.
    + intros _. apply admits_raise. settled.
Qed.

(** A log record in any phase. *)
Ltac passes_anywhere :=
  apply admits_log; intros st _; exists st; split; [reflexivity | exact I].

(** Creating the clients makes no call. *)
Lemma initialize_aws_sdk_protocol cfg region :
  admits (protocol_step cfg) (eq Looking) (initialize_aws_sdk region)
         (fun _ => eq Looking).
Proof.
  assert (Hc : forall service_name,
             admits (protocol_step cfg) (eq Looking)
               (boto3_client service_name region) (fun _ => eq Looking)).
  { intros service_name. unfold boto3_client.
    destruct (validate_region_name region);
      [destruct (String.eqb _ _) |];
      first [apply admits_ret | apply admits_raise]; auto. }
  unfold initialize_aws_sdk.
  apply admits_bind with (Q := fun _ => eq Looking); auto; [passes |].
  intros ?. apply admits_bind with (Q := fun _ => eq Looking); auto.
Qed.

Lemma run_refresh_protocol cfg v :
  admits (protocol_step cfg) (eq Updated) (run_refresh cfg v)
         (fun _ _ => True).
Proof.
  unfold run_refresh.
  apply admits_bind with (Q := fun _ => eq Updated); auto; [passes |].
  intros ?. apply admits_bind
    with (Q := post (fun id ph => ph = Started id) (fun _ => True)); auto.
  { eapply admits_conseq; [| | apply start_instance_refresh_protocol]; auto.
    intros [id | e |] st; cbn; auto. }
  intros id. apply admits_bind with (Q := fun _ => eq (Started id)); auto.
  { apply admits_log. intros st ->. exists (Started id). split; reflexivity. }
  intros ?. apply admits_bind
    with (Q := post (fun _ ph => ph = Refreshed) (fun _ => True)); auto.
  { eapply admits_conseq; [| | apply wait_for_instance_refresh_protocol];
      auto.
    intros [u | e |] st; cbn; auto. }
  intros u. apply admits_bind with (Q := fun _ => eq Refreshed); auto.
  { apply admits_log. intros st ->. exists Refreshed. split; reflexivity. }
  intros ?. apply admits_bind with (Q := fun _ _ => True); auto.
  { eapply admits_conseq;
      [| | apply verify_old_instances_termination_protocol]; auto. }
  intros ?. passes_anywhere.
Qed.

Lemma run_update_protocol cfg d :
  admits (protocol_step cfg) (eq (Found d)) (run_update cfg d)
         (fun o _ => forall e, o <> Raise e).
Proof.
  unfold run_update.
  apply admits_try with (Q := fun _ _ => True); try discriminate.
  - apply admits_bind
      with (Q := post (fun r ph => match r with
                                   | Some _ => ph = Updated
                                   | None => ph = Found d
                                   end)
                      (fun _ => True)); auto.
    { eapply admits_conseq;
        [| | apply update_auto_scaling_group_protocol]; auto.
      intros [r | e |] st; cbn; auto. }
    intros [v |]; unfold post at 1;
      (apply admits_bind with (Q := fun _ _ => True); auto;
       [| intros ?; apply admits_ret; auto]).
    + eapply admits_conseq; [| | apply run_refresh_protocol]; auto.
    + passes_anywhere.
  - intros e _.
    apply admits_bind with (Q := post (fun _ _ => True) (fun _ => False));
      try contradiction.
    + passes_anywhere.
    + intros ?. apply admits_ret. discriminate.
Qed.

Lemma run_retrieve_protocol cfg :
  admits (protocol_step cfg) (eq Looking) (run_retrieve cfg)
         (post (fun r ph => match r with
                            | Some d => ph = Found d
                            | None => True
                            end)
               (eq Looking)).
Proof.
  unfold run_retrieve.
  apply admits_try
    with (Q := post (fun r ph => match r with
                                 | Some d => ph = Found d
                                 | None => True
                                 end)
                    (eq Looking)); auto.
  - apply admits_bind
      with (Q := post (fun g ph => ph = Found g) (eq Looking)); auto;
      [apply get_current_asg_details_protocol |].
    intros g.
    apply admits_bind
      with (Q := post (fun _ ph => ph = Found g) (fun _ => False));
      try contradiction.
    + apply admits_log. intros st ->. exists (Found g). split; reflexivity.
    + intros ?. apply admits_ret. settled.
  - intros e _.
    apply admits_bind with (Q := post (fun _ _ => True) (fun _ => False));
      try contradiction.
    + passes_anywhere.
    + intros ?. apply admits_ret. settled.
Qed.

(** *** What has been answered when a request is sent *)

Lemma reads_app_inv {St} (step : St -> event -> option St) st evs1 evs2 st2 :
  reads step st (evs1 ++ evs2) = Some st2 ->
  exists st1, reads step st evs1 = Some st1
              /\ reads step st1 evs2 = Some st2.
Proof.
  revert st. induction evs1 as [| e evs1 IH]; intros st; cbn.
  - intros H. now exists st.
  - destruct (step st e) as [st' |]; [apply IH | discriminate].
Qed.

Lemma preferences_eqb_eq p q : preferences_eqb p q = true -> p = q.
Proof.
  destruct p, q. unfold preferences_eqb. cbn.
  intros H. repeat (apply andb_prop in H as [H ?]).
  f_equal; try (now apply Z.eqb_eq). now apply Bool.eqb_prop.
Qed.

Lemma opened_mono cfg ph pre e :
  opened cfg ph pre -> opened cfg ph (pre ++ [e]).
Proof.
  destruct ph; cbn; unfold group_found, update_answered, refresh_started,
    terminal_seen; auto.
  - intros (g & l & H). exists g, l. apply in_or_app. now left.
  - intros (n & de & mn & mx & t & rs & H & He).
    exists n, de, mn, mx, t, rs. split; [apply in_or_app; now left | easy].
  - intros H. apply in_or_app. now left.
  - intros (i & st & l & H & Ht).
    exists i, st, l. split; [apply in_or_app; now left | easy].
Qed.

Lemma protocol_step_opened cfg st e ph pre :
  opened cfg st pre -> protocol_step cfg st e = Some ph ->
  opened cfg ph (pre ++ [e]).
Proof.
  intros Ho.
  destruct e as [rq rs | |]; cbn [protocol_step];
    try (intros [= <-]; now apply opened_mono).
  destruct st as [| d | | id |], rq as [names | | | | | | |];
    try discriminate.
  - destruct names as [| name [|]]; try discriminate.
    destruct (String.eqb name _) eqn:E; [| discriminate].
    apply String.eqb_eq in E. subst name. intros [= <-].
    destruct rs as [[| g l] | | | | | | |]; cbn; auto.
    exists g, l. apply in_or_app. right. now left.
  - intros [= <-]. now apply opened_mono.
  - destruct (String.eqb _ _); [| discriminate].
    intros [= <-]. now apply opened_mono.
  - destruct (_ && _ && _ && _); [| discriminate]. intros [= <-].
    destruct rs; try (now apply (opened_mono cfg (Found d)));
      cbn; (do 6 eexists; split; [apply in_or_app; right; now left | easy]).
  - destruct (_ && _ && _) eqn:E; [| discriminate]. intros [= <-].
    apply andb_prop in E as [E Ep]. apply andb_prop in E as [En Es].
    apply String.eqb_eq in En, Es. apply preferences_eqb_eq in Ep. subst.
    destruct rs; try (now apply (opened_mono cfg Updated)).
    cbn. apply in_or_app. right. now left.
  - destruct InstanceRefreshIds as [| id' [|]]; try discriminate.
    destruct (_ && _) eqn:E; [| discriminate]. intros [= <-].
    apply andb_prop in E as [En Ei]. apply String.eqb_eq in En, Ei. subst.
    destruct rs as [| | | | [| status l] | | |];
      try (now apply (opened_mono cfg (Started id))).
    destruct (is_terminal status) eqn:Et;
      [| now apply (opened_mono cfg (Started id))].
    cbn. exists id, status, l. split; [| exact Et].
    apply in_or_app. right. now left.
  - intros [= <-]. now apply opened_mono.
  - intros [= <-]. now apply opened_mono.
Qed.

Lemma protocol_opened cfg pre ph :
  reads (protocol_step cfg) Looking pre = Some ph -> opened cfg ph pre.
Proof.
  revert ph. induction pre as [| e pre IH] using rev_ind; intros ph H.
  - cbn in H. injection H as <-. exact I.
  - apply reads_app_inv in H as (st & Hpre & He). cbn in He.
    destruct (protocol_step cfg st e) as [ph' |] eqn:Es; [| discriminate].
    injection He as <-. eapply protocol_step_opened; eauto.
Qed.

Lemma protocol_step_needs cfg st rq rs ph pre :
  opened cfg st pre -> protocol_step cfg st (Call rq rs) = Some ph ->
  needs cfg rq pre.
Proof.
  intros Ho. cbn [protocol_step].
  destruct st as [| d | | id |], rq as [names | | | | | | |];
    try discriminate; cbn; auto.
  destruct InstanceRefreshIds as [| id' [|]]; try discriminate.
  destruct (_ && _) eqn:E; [| discriminate]. intros _.
  apply andb_prop in E as [En Ei]. apply String.eqb_eq in Ei. subst.
  now exists id.
Qed.

(** X12.  Whatever the configuration and whatever the control plane answers
    or fails with, the calls of [run] come in the order of its stages, each
    stage only after the answer that opens it:
    - first only look-ups of the configured group, until one is answered
      with a group;
    - then only look-ups of template versions, creations of a version with
      the configured image, and updates of the group the snapshot names,
      with the configured capacities, until an update is answered;
    - then only starts of a rolling refresh of the configured group with
      the configured preferences, until one is answered with an id;
    - then only status queries of that refresh, until one shows a terminal
      status;
    - then only listings of instances and terminate calls.
    So, before any request of the update a look-up was answered with a
    group; before a start of the refresh an update call was answered; a
    status query names the id that a start of the refresh was answered
    with; before a listing or a terminate call a status query was answered
    with a terminal status.  An exception leaves [run] only while no group
    has been found. *)
Theorem run_follows_the_order_of_its_stages :
  forall cfg s,
    exists evs ph,
      trace (snd (run cfg s)) = trace s ++ evs
      /\ reads (protocol_step cfg) Looking evs = Some ph
      /\ (forall pre rq rs rest,
            evs = pre ++ Call rq rs :: rest -> needs cfg rq pre)
      /\ (forall e, fst (run cfg s) = Raise e -> ph = Looking).
Proof.
  intros cfg s.
  assert (H : admits (protocol_step cfg) (eq Looking) (run cfg)
                (fun o ph => forall e, o = Raise e -> ph = Looking)).
  { unfold run.
    apply admits_bind
      with (Q := post (fun _ ph => ph = Looking) (fun _ => False));
      try contradiction.
    { apply admits_log. intros st <-. exists Looking. split; reflexivity. }
    intros ?. unfold post at 1.
    apply admits_bind with (Q := fun _ ph => ph = Looking).
    { eapply admits_conseq; [| | apply initialize_aws_sdk_protocol]; auto. }
    2:{ intros e st -> e' _. reflexivity. }
    2:{ discriminate. }
    intros ?.
    apply admits_bind
      with (Q := post (fun r ph => match r with
                                   | Some d => ph = Found d
                                   | None => True
                                   end)
                      (eq Looking)).
    - eapply admits_conseq; [| | apply run_retrieve_protocol]; auto.
    - intros [d |]; unfold post at 1.
      + apply admits_bind with (Q := fun o _ => forall e, o <> Raise e).
        * eapply admits_conseq; [| | apply run_update_protocol]; auto.
        * intros go_on. destruct go_on;
            [apply admits_log | apply admits_ret]; try discriminate.
          intros st _. exists st. split; [reflexivity | discriminate].
        * intros e st H. now elim (H e).
        * discriminate.
      + apply admits_ret. discriminate.
    - intros e st <- e' _. reflexivity.
    - discriminate. }
  destruct (H s Looking eq_refl) as (evs & ph & Ht & Hr & Hq).
  exists evs, ph. repeat split; auto.
  intros pre rq rs rest ->.
  apply reads_app_inv in Hr as (st & Hpre & Hrest). cbn [reads] in Hrest.
  destruct (protocol_step cfg st (Call rq rs)) as [ph' |] eqn:E;
    [| discriminate].
  eapply protocol_step_needs; [| exact E]. now apply protocol_opened.
Qed.

(** ** How many calls a run makes *)

Lemma terminate_each_footprint l :
  emits (calls_only reaper_request) (terminate_each l).
Proof.
  induction l as [| i l IH]; cbn [terminate_each]; footprint.
  cbn. right. now eexists.
Qed.

Lemma verify_old_instances_termination_footprint asg_name :
  emits (calls_only reaper_request)
        (verify_old_instances_termination asg_name).
Proof.
  unfold verify_old_instances_termination,
    verify_old_instances_termination_body.
  footprint.
  apply emits_fuel with (loop := fun fuel => reap_old_instances fuel asg_name).
  intros fuel. induction fuel as [| fuel IH]; cbn [reap_old_instances].
  { apply emits_hang. }
  apply emits_bind; [apply emits_client_call; intros rs; now left |].
  intros rs. apply emits_bind; [footprint |].
  intros instances. destruct (old_instances asg_name instances); footprint.
  apply terminate_each_footprint.
Qed.

Section Counting.

Variable f : event -> bool.
Hypothesis f_log : forall lvl message args, f (Log lvl message args) = false.
Hypothesis f_sleep : forall seconds, f (Sleep seconds) = false.

Lemma at_most_zero {A} (m : M A) :
  emits (fun e => f e = false) m -> at_most f 0 m.
Proof.
  intros H s. destruct (H s) as (evs & Ht & F). exists evs. split; [easy |].
  clear Ht. induction F as [| e evs He _ IH]; cbn; [lia |].
  now rewrite He.
Qed.

Lemma at_most_weaken {A} n n' (m : M A) :
  (n <= n')%nat -> at_most f n m -> at_most f n' m.
Proof.
  intros Hn H s. destruct (H s) as (evs & Ht & Hc). exists evs. split; [easy |].
  lia.
Qed.

Lemma at_most_ext {A} n (m m' : M A) :
  (forall s, m' s = m s) -> at_most f n m -> at_most f n m'.
Proof. intros H Hm s. rewrite H. apply Hm. Qed.

Lemma at_most_client_call rq : at_most f 1 (client_call rq).
Proof.
  intros s. unfold client_call. destruct (script s) as [| rs rest].
  - exists []. cbn. rewrite app_nil_r. split; [reflexivity | lia].
  - exists [Call rq rs]. split; [now destruct rs |].
    cbn. destruct (f _); cbn; lia.
Qed.

Lemma at_most_bind {A B} n1 n2 (m : M A) (k : A -> M B) :
  at_most f n1 m -> (forall a, at_most f n2 (k a)) ->
  at_most f (n1 + n2) (bind m k).
Proof.
  intros Hm Hk s. destruct (Hm s) as (evs & Ht & Hc). unfold bind.
  destruct (m s) as [[a | e |] s1]; cbn [snd] in *;
    try (exists evs; split; [easy | lia]).
  destruct (Hk a s1) as (evs2 & Ht2 & Hc2).
  exists (evs ++ evs2). rewrite Ht2, Ht, app_assoc. split; [reflexivity |].
  rewrite filter_app, length_app. lia.
Qed.

Lemma at_most_try {A} n1 n2 (body : M A) cls handler :
  at_most f n1 body -> (forall e, at_most f n2 (handler e)) ->
  at_most f (n1 + n2) (try_except body cls handler).
Proof.
  intros Hb Hh s. destruct (Hb s) as (evs & Ht & Hc). unfold try_except.
  destruct (body s) as [[a | e |] s1]; cbn [snd] in *;
    try (exists evs; split; [easy | lia]).
  destruct (cls e); [| exists evs; split; [easy | lia]].
  destruct (Hh e s1) as (evs2 & Ht2 & Hc2).
  exists (evs ++ evs2). rewrite Ht2, Ht, app_assoc. split; [reflexivity |].
  rewrite filter_app, length_app. lia.
Qed.

(** From attempt [a] on, the decorator runs the function at most
    [1 + (3 - a)] times. *)
Lemma at_most_retrying {A} n (body : M A) budget a :
  at_most f n body ->
  at_most f ((1 + (3 - a)) * n) (retrying budget a body).
Proof.
  intros Hb. revert a. induction budget as [| budget IH]; intros a s;
    destruct (Hb s) as (evs & Ht & Hc); cbn [retrying];
    destruct (body s) as [[r | e |] s1]; cbn [snd] in *;
    try (exists evs; split; [easy | nia]);
    (destruct (negb _); [exists evs; split; [easy | nia] |]);
    unfold stop_after_attempt;
    (destruct (Nat.leb_spec 3 a) as [Ha | Ha];
     [exists evs; split; [easy | nia] |]).
  - exists evs. split; [easy | nia].
  - unfold bind, sleep.
    destruct (IH (S a) (emit (Sleep (wait_exponential 1 2 10 a)) s1))
      as (evs2 & Ht2 & Hc2).
    exists (evs ++ [Sleep (wait_exponential 1 2 10 a)] ++ evs2).
    rewrite Ht2. cbn [emit trace]. rewrite Ht, <- !app_assoc.
    split; [reflexivity |].
    rewrite !filter_app, !length_app. cbn [filter]. rewrite f_sleep.
    cbn [List.length]. nia.
Qed.

Lemma at_most_retry {A} n (body : M A) :
  at_most f n body -> at_most f (3 * n) (retry body).
Proof. intros H. apply (at_most_retrying 3 1 H). Qed.

End Counting.

Lemma wait_for_instance_refresh_footprint asg_name id :
  emits (calls_only (fun rq => rq = DescribeInstanceRefreshes asg_name [id]))
        (wait_for_instance_refresh asg_name id).
Proof.
  unfold wait_for_instance_refresh, wait_for_instance_refresh_body.
  footprint.
  apply emits_fuel
    with (loop := fun fuel => poll_instance_refresh fuel asg_name id).
  intros fuel. apply poll_instance_refresh_footprint.
Qed.

Section Run_bounds.

Variable f : event -> bool.
Hypothesis f_log : forall lvl message args, f (Log lvl message args) = false.
Hypothesis f_sleep : forall seconds, f (Sleep seconds) = false.

(** The number of events that [f] counts in one call of each kind. *)
Variables G T C U S : nat.
Hypothesis f_calls :
  forall rq rs,
    f (Call rq rs) = true ->
    (1 <= match rq with
          | DescribeAutoScalingGroups _ => G
          | DescribeLaunchTemplateVersions _ _ => T
          | CreateLaunchTemplateVersion _ _ _ => C
          | UpdateAutoScalingGroup _ _ _ _ _ => U
          | StartInstanceRefresh _ _ _ => S
          | _ => 0
          end)%nat.

Lemma client_call_at_most rq :
  at_most f match rq with
            | DescribeAutoScalingGroups _ => G
            | DescribeLaunchTemplateVersions _ _ => T
            | CreateLaunchTemplateVersion _ _ _ => C
            | UpdateAutoScalingGroup _ _ _ _ _ => U
            | StartInstanceRefresh _ _ _ => S
            | _ => 0
            end
          (client_call rq).
Proof.
  intros s. unfold client_call. destruct (script s) as [| rs rest].
  - exists []. cbn. rewrite app_nil_r. split; [reflexivity | lia].
  - exists [Call rq rs]. split; [now destruct rs |].
    cbn. destruct (f (Call rq rs)) eqn:E; cbn; [| lia].
    now apply f_calls in E.
Qed.

(** The parts that make no call. *)
Ltac no_call :=
  apply at_most_zero; emits_auto;
  first [apply f_log | apply f_sleep].

Lemma get_current_asg_details_at_most asg_name :
  at_most f (3 * G) (get_current_asg_details asg_name).
Proof.
  apply at_most_retry; [exact f_sleep |].
  unfold get_current_asg_details_body.
  apply at_most_weaken with (n := (0 + ((G + 0) + 0))%nat); [lia |].
  apply at_most_bind; [no_call | intros _].
  apply at_most_try; [| intros e; no_call].
  apply at_most_bind;
    [apply (client_call_at_most (DescribeAutoScalingGroups [asg_name])) |].
  intros rs. no_call.
Qed.

Lemma get_current_ami_id_at_most id version :
  at_most f (3 * T) (get_current_ami_id id version).
Proof.
  apply at_most_retry; [exact f_sleep |].
  unfold get_current_ami_id_body.
  apply at_most_weaken with (n := (0 + ((T + 0) + 0))%nat); [lia |].
  apply at_most_bind; [no_call | intros _].
  apply at_most_try; [| intros e; no_call].
  apply at_most_bind;
    [apply (client_call_at_most
              (DescribeLaunchTemplateVersions id [version])) |].
  intros rs. no_call.
Qed.

Lemma start_instance_refresh_at_most asg_name prefs :
  at_most f (3 * S) (start_instance_refresh asg_name prefs).
Proof.
  apply at_most_retry; [exact f_sleep |].
  unfold start_instance_refresh_body.
  apply at_most_weaken with (n := (0 + ((S + 0) + 0))%nat); [lia |].
  apply at_most_bind; [no_call | intros _].
  apply at_most_try; [| intros e; no_call].
  apply at_most_bind;
    [apply (client_call_at_most
              (StartInstanceRefresh asg_name "Rolling" prefs)) |].
  intros rs. no_call.
Qed.

Lemma update_auto_scaling_group_at_most d new_ami_id desired mn mx :
  at_most f (3 * (3 * T + C + U))
          (update_auto_scaling_group d new_ami_id desired mn mx).
Proof.
  apply at_most_retry; [exact f_sleep |].
  unfold update_auto_scaling_group_body.
  apply at_most_weaken with (n := (0 + ((3 * T + C + U) + 0))%nat); [lia |].
  apply at_most_bind; [no_call | intros _].
  apply at_most_try; [| intros e; no_call].
  apply at_most_weaken with (n := (0 + (3 * T + (C + U)))%nat); [lia |].
  apply at_most_bind; [no_call | intros lt; cbv zeta].
  apply at_most_bind; [apply get_current_ami_id_at_most | intros current].
  destruct (unchanged d current new_ami_id desired mn mx).
  { apply at_most_weaken with (n := 0%nat); [lia | no_call]. }
  apply at_most_weaken with (n := (0 + (C + (U + 0)))%nat); [lia |].
  apply at_most_bind; [no_call | intros _].
  apply at_most_bind.
  - destruct (negb _);
      [| apply at_most_weaken with (n := 0%nat); [lia | no_call]].
    apply at_most_weaken with (n := (0 + (C + 0))%nat); [lia |].
    apply at_most_bind; [no_call | intros _].
    apply at_most_bind; [| intros rs; no_call].
    apply (client_call_at_most
             (CreateLaunchTemplateVersion (LaunchTemplateId lt) (Version lt)
                                          new_ami_id)).
  - intros params. apply at_most_bind; [| intros rs; no_call].
    apply (client_call_at_most
             (UpdateAutoScalingGroup (AutoScalingGroupName d) desired mn mx
                                     (fst params))).
Qed.

(** The status queries, the listings and the terminate calls are not
    counted. *)
Lemma wait_for_instance_refresh_at_most asg_name id :
  at_most f 0 (wait_for_instance_refresh asg_name id).
Proof.
  apply at_most_zero.
  eapply emits_weaken; [| apply wait_for_instance_refresh_footprint].
  intros [rq rs | |] H; cbn in H; auto. subst rq.
  destruct (f _) eqn:E; [| reflexivity]. apply f_calls in E. lia.
Qed.

Lemma verify_old_instances_termination_at_most asg_name :
  at_most f 0 (verify_old_instances_termination asg_name).
Proof.
  apply at_most_zero.
  eapply emits_weaken; [| apply verify_old_instances_termination_footprint].
  intros [rq rs | |] H; cbn in H; auto.
  destruct (f _) eqn:E; [| reflexivity]. apply f_calls in E.
  destruct H as [-> | [ids ->]]; lia.
Qed.

Lemma run_refresh_at_most cfg v : at_most f (3 * S) (run_refresh cfg v).
Proof.
  unfold run_refresh.
  apply at_most_weaken
    with (n := (0 + (3 * S + (0 + (0 + (0 + (0 + 0))))))%nat); [lia |].
  apply at_most_bind; [no_call | intros _].
  apply at_most_bind; [apply start_instance_refresh_at_most | intros id].
  apply at_most_bind; [no_call | intros _].
  apply at_most_bind; [apply wait_for_instance_refresh_at_most | intros _].
  apply at_most_bind; [no_call | intros _].
  apply at_most_bind;
    [apply verify_old_instances_termination_at_most | intros _].
  no_call.
Qed.

Lemma run_at_most cfg :
  at_most f (3 * G + (3 * (3 * T + C + U) + 3 * S)) (run cfg).
Proof.
  unfold run, initialize_aws_sdk, boto3_client.
  apply at_most_weaken
    with (n := (0 + (0 + (3 * G
                          + ((3 * (3 * T + C + U) + 3 * S) + 0))))%nat);
    [lia |].
  apply at_most_bind; [no_call | intros _].
  apply at_most_bind; [no_call | intros _].
  apply at_most_bind.
  { unfold run_retrieve.
    apply at_most_weaken with (n := (3 * G + 0 + 0)%nat); [lia |].
    apply at_most_try; [| intros e; no_call].
    apply at_most_bind; [apply get_current_asg_details_at_most |].
    intros g. no_call. }
  intros [d |]; [| apply at_most_weaken with (n := 0%nat); [lia | no_call]].
  apply at_most_bind; [| intros go_on; no_call].
  unfold run_update.
  apply at_most_weaken
    with (n := (3 * (3 * T + C + U) + (3 * S + 0) + 0)%nat); [lia |].
  apply at_most_try; [| intros e; no_call].
  apply at_most_bind; [apply update_auto_scaling_group_at_most |].
  intros [v |]; (apply at_most_bind; [| intros ?; no_call]).
  - apply run_refresh_at_most.
  - apply at_most_weaken with (n := 0%nat); [lia | no_call].
Qed.

End Run_bounds.

(** X13.  Whatever the configuration and whatever the control plane answers
    or fails with, one run of [run] makes at most 3 look-ups of the group,
    9 look-ups of a template version (3 attempts of the update, each with 3
    attempts of the look-up), 3 creations of a template version, 3 updates
    of the group and 3 starts of a refresh.  (The status queries, the
    listings and the terminate calls have no such bound: their number
    depends on the answers.) *)
Theorem run_makes_a_bounded_number_of_changes :
  forall cfg s,
    exists evs,
      trace (snd (run cfg s)) = trace s ++ evs
      /\ (List.length (filter is_group_lookup_call evs) <= 3)%nat
      /\ (List.length (filter is_template_lookup_call evs) <= 9)%nat
      /\ (List.length (filter is_create_call evs) <= 3)%nat
      /\ (List.length (filter is_update_call evs) <= 3)%nat
      /\ (List.length (filter is_start_call evs) <= 3)%nat.
Proof.
  intros cfg s.
  destruct (@run_at_most is_group_lookup_call (fun _ _ _ => eq_refl)
              (fun _ => eq_refl) 1 0 0 0 0) with (cfg := cfg) (s := s)
    as (evs & Ht & Hg).
  { intros [] rs; cbn; (discriminate || lia). }
  exists evs. split; [exact Ht |]. split; [exact Hg |].
  destruct (@run_at_most is_template_lookup_call (fun _ _ _ => eq_refl)
              (fun _ => eq_refl) 0 1 0 0 0) with (cfg := cfg) (s := s)
    as (evs' & Ht' & Hc).
  { intros [] rs; cbn; (discriminate || lia). }
  rewrite Ht in Ht'. apply app_inv_head in Ht'. subst evs'.
  split; [exact Hc |]. clear Hc.
  destruct (@run_at_most is_create_call (fun _ _ _ => eq_refl)
              (fun _ => eq_refl) 0 0 1 0 0) with (cfg := cfg) (s := s)
    as (evs' & Ht' & Hc).
  { intros [] rs; cbn; (discriminate || lia). }
  rewrite Ht in Ht'. apply app_inv_head in Ht'. subst evs'.
  split; [exact Hc |]. clear Hc.
  destruct (@run_at_most is_update_call (fun _ _ _ => eq_refl)
              (fun _ => eq_refl) 0 0 0 1 0) with (cfg := cfg) (s := s)
    as (evs' & Ht' & Hc).
  { intros [] rs; cbn; (discriminate || lia). }
  rewrite Ht in Ht'. apply app_inv_head in Ht'. subst evs'.
  split; [exact Hc |]. clear Hc.
  destruct (@run_at_most is_start_call (fun _ _ _ => eq_refl)
              (fun _ => eq_refl) 0 0 0 0 1) with (cfg := cfg) (s := s)
    as (evs' & Ht' & Hc).
  { intros [] rs; cbn; (discriminate || lia). }
  rewrite Ht in Ht'. apply app_inv_head in Ht'. now subst evs'.
Qed.

(** ** The configuration as a mapping *)

(** X14.  With a mapping that has the seven keys, [main] of
    [scripts/deploy_app.py] (the construction of the [Deployment] object,
    then [run] with the group name read from the mapping at each of its
    four uses) behaves, from every state, as [run] on the values of the
    keys: the same outcome, the same calls, log records and sleeps. *)
Theorem deploy_app_with_every_key_is_run :
  forall cfg s, deploy_app (file_of cfg) s = main cfg s.
Proof.
  intros cfg s. unfold deploy_app, main, run, Deployment_run, Deployment_init.
  unfold run_retrieve, run_update, run_refresh, setup_logging, getitem.
  cbn [file_of file_aws_region file_auto_scaling_group file_ami_id
       file_desired_capacity file_min_size file_max_size
       file_instance_refresh].
  repeat (rewrite bind_bind, bind_ret).
  cbn [self_config self_new_ami_id self_desired_capacity self_min_size
       self_max_size self_instance_refresh_config file_auto_scaling_group].
  reflexivity.
Qed.

(** X15.  When the mapping lacks one of the six keys that [__init__]
    reads, [main] ends with the [KeyError] of the first of them that is
    absent, in the order [aws_region], [ami_id], [desired_capacity],
    [min_size], [max_size], [instance_refresh]: the error leaves [main]
    (exit status 1) before any log record is written and before any call
    is made; the script of the control plane is untouched. *)
Theorem deploy_app_without_a_key_of_init :
  forall config key s,
    first_absent (init_keys config) = Some key ->
    deploy_app config s = (Raise (KeyError key), s)
    /\ exit_status (fst (deploy_app config s)) = Some 1.
Proof.
  intros [region group image desired mn mx prefs] key s.
  unfold first_absent, init_keys, deploy_app, Deployment_init, getitem.
  cbn [file_aws_region file_ami_id file_desired_capacity file_min_size
       file_max_size file_instance_refresh].
  destruct region as [region |]; cbn [present find negb snd option_map fst];
    [| intros [= <-]; split; reflexivity].
  destruct image as [image |]; cbn [present find negb snd option_map fst];
    [| intros [= <-]; split; reflexivity].
  destruct desired as [desired |];
    cbn [present find negb snd option_map fst];
    [| intros [= <-]; split; reflexivity].
  destruct mn as [mn |]; cbn [present find negb snd option_map fst];
    [| intros [= <-]; split; reflexivity].
  destruct mx as [mx |]; cbn [present find negb snd option_map fst];
    [| intros [= <-]; split; reflexivity].
  destruct prefs as [prefs |]; cbn [present find negb snd option_map fst];
    [| intros [= <-]; split; reflexivity].
  discriminate.
Qed.

Lemma deploy_app_without_a_key_of_init_witness :
  let config := {| file_aws_region := Some "eu-west-1";
                   file_auto_scaling_group := Some "web";
                   file_ami_id := Some "ami-2";
                   file_desired_capacity := None;
                   file_min_size := Some 1;
                   file_max_size := None;
                   file_instance_refresh := None |} in
  first_absent (init_keys config) = Some "desired_capacity"
  /\ deploy_app config (fresh []) = (Raise (KeyError "desired_capacity"),
                                     fresh [])
  /\ exit_status (fst (deploy_app config (fresh []))) = Some 1.
Proof.
  intros config. split; [reflexivity |].
  apply (deploy_app_without_a_key_of_init config (fresh [])). reflexivity.
Defined.

(** X16.  The key [auto_scaling_group] is not read by [__init__] but by
    [run], inside the [try] block whose handler catches [ValueError] only.
    With a mapping that has the six other keys, a region name for which
    the clients are created, and not this key, [main] writes the two
    records "Starting deployment process" and "Initializing AWS SDK", makes
    no call, and ends with [KeyError('auto_scaling_group')] uncaught: exit
    status 1, no error record of the orchestrator. *)
Theorem deploy_app_without_the_group_key :
  forall config region s,
    file_aws_region config = Some region ->
    host_label region = true ->
    first_absent (init_keys config) = None ->
    file_auto_scaling_group config = None ->
    deploy_app config s
    = (Raise (KeyError "auto_scaling_group"),
       {| script := script s;
          trace := trace s ++ [Log INFO "Starting deployment process" [];
                               Log INFO "Initializing AWS SDK" []] |})
      /\ exit_status (fst (deploy_app config s)) = Some 1.
Proof.
  intros [region' group image desired mn mx prefs] region s.
  unfold first_absent, init_keys.
  cbn [file_aws_region file_ami_id file_desired_capacity file_min_size
       file_max_size file_instance_refresh file_auto_scaling_group].
  intros -> Hregion.
  destruct image as [image |], desired as [desired |], mn as [mn |],
    mx as [mx |], prefs as [prefs |]; try discriminate.
  intros _ ->.
  assert (H : forall r,
             deploy_app
               {| file_aws_region := Some region;
                  file_auto_scaling_group := None;
                  file_ami_id := Some image;
                  file_desired_capacity := Some desired;
                  file_min_size := Some mn;
                  file_max_size := Some mx;
                  file_instance_refresh := Some prefs |} r
             = (Raise (KeyError "auto_scaling_group"),
                {| script := script r;
                   trace := trace r
                            ++ [Log INFO "Starting deployment process" [];
                                Log INFO "Initializing AWS SDK" []] |})).
  { intros r. unfold deploy_app, Deployment_init, Deployment_run,
      getitem, setup_logging.
    cbn [file_aws_region file_ami_id file_desired_capacity file_min_size
         file_max_size file_instance_refresh].
    repeat (rewrite bind_bind, bind_ret). rewrite bind_ret.
    rewrite bind_log. cbn [self_region].
    erewrite bind_Return by (apply initialize_aws_sdk_created; exact Hregion).
    cbn [self_config file_auto_scaling_group].
    unfold bind, try_except, raise. cbn [ValueError_class].
    f_equal. same_state. }
  rewrite H. split; reflexivity.
Qed.

Lemma deploy_app_without_the_group_key_witness :
  let config := {| file_aws_region := Some "eu-west-1";
                   file_auto_scaling_group := None;
                   file_ami_id := Some "ami-2";
                   file_desired_capacity := Some 2;
                   file_min_size := Some 1;
                   file_max_size := Some 3;
                   file_instance_refresh := Some preferences |} in
  deploy_app config (fresh [])
  = (Raise (KeyError "auto_scaling_group"),
     {| script := [];
        trace := [Log INFO "Starting deployment process" [];
                  Log INFO "Initializing AWS SDK" []] |})
    /\ exit_status (fst (deploy_app config (fresh []))) = Some 1.
Proof.
  intros config.
  apply (@deploy_app_without_the_group_key config "eu-west-1" (fresh []));
    reflexivity.
Defined.

(** ** A throttled terminate call *)

Lemma terminate_each_throttled before i after : forall s code rest,
  script s = map (fun _ => Empty) before ++ Error (ClientError code) :: rest ->
  terminate_each (before ++ i :: after) s
  = (Raise (ClientError code),
     {| script := rest;
        trace := trace s ++ terminate_calls before
                 ++ [Call (TerminateInstances [InstanceId i])
                          (Error (ClientError code))] |}).
Proof.
  induction before as [| j before IH]; intros s code rest Hs;
    cbn [app terminate_each].
  - erewrite bind_Raise by (apply client_call_failed; exact Hs).
    reflexivity.
  - run_call Hs (eq_refl false). rewrite (IH _ code rest) by reflexivity.
    cbn [terminate_calls map]. f_equal. same_state.
Qed.

Lemma verify_body_until_clean asg_name stale last rest s :
  Forall (fun listing => old_instances asg_name listing <> []) stale ->
  old_instances asg_name last = [] ->
  script s = flat_map (reap_responses asg_name) stale
             ++ AutoScalingInstances last :: rest ->
  verify_old_instances_termination_body asg_name s
  = (Return tt,
     {| script := rest;
        trace := trace s ++ [verifying_logged asg_name]
                 ++ flat_map (reap_again asg_name) stale
                 ++ reap_last last |}).
Proof.
  intros Hst Hl Hs. unfold verify_old_instances_termination_body.
  rewrite bind_log. apply try_Return.
  erewrite reap_until_clean; eauto.
  - same_state.
  - unfold enough_fuel, emit. cbn [script]. rewrite Hs, length_app.
    pose proof (length_flat_map_reap asg_name stale). cbn. lia.
Qed.

(** X17.  A terminate call that is throttled ends the attempt of the
    reaper: the instances that come after it in the listing get no call
    and the 30 seconds are not slept.  The helper logs the error, the
    decorator sleeps 2, and the helper starts over with its first log line
    and a new listing; the instances it had already asked to terminate get
    a terminate call again for as long as a listing shows them out of
    service. *)
Theorem throttled_terminate_restarts_the_reaper :
  forall asg_name listing before i after code stale last rest s,
    old_instances asg_name listing = before ++ i :: after ->
    Forall (fun l => old_instances asg_name l <> []) stale ->
    old_instances asg_name last = [] ->
    script s = AutoScalingInstances listing
               :: map (fun _ => Empty) before
               ++ Error (ClientError code)
               :: flat_map (reap_responses asg_name) stale
               ++ AutoScalingInstances last :: rest ->
    verify_old_instances_termination asg_name s
    = (Return tt,
       {| script := rest;
          trace := trace s
                   ++ [verifying_logged asg_name;
                       Call DescribeAutoScalingInstances
                            (AutoScalingInstances listing);
                       Log INFO "Waiting for old instances to terminate..." []]
                   ++ terminate_calls before
                   ++ [Call (TerminateInstances [InstanceId i])
                            (Error (ClientError code));
                       Log ERROR "ClientError verifying old instances termination: {e}"
                           [VExn (ClientError code)];
                       Sleep 2;
                       verifying_logged asg_name]
                   ++ flat_map (reap_again asg_name) stale
                   ++ reap_last last |}).
Proof.
  intros asg_name listing before i after code stale last rest s Ho Hst Hl Hs.
  unfold verify_old_instances_termination.
  eapply retry_second_attempt with (code := code).
  - unfold verify_old_instances_termination_body. rewrite bind_log.
    erewrite try_caught with (e := ClientError code); [| | reflexivity].
    2:{ unfold enough_fuel. cbn [reap_old_instances].
        run_call Hs (eq_refl false). rewrite Ho.
        destruct (before ++ i :: after) as [| j old] eqn:E;
          [now destruct before |].
        run_head. rewrite <- E.
        erewrite bind_Raise
          by (apply terminate_each_throttled; cbn [script]; reflexivity).
        reflexivity. }
    rewrite bind_log. unfold raise. reflexivity.
  - erewrite verify_body_until_clean; eauto; [| reflexivity].
    f_equal. same_state.
Qed.

Lemma throttled_terminate_restarts_the_reaper_witness :
  let pending := {| InstanceId := "i-pending";
                    InstanceAutoScalingGroupName := "test-asg";
                    LifecycleState := "Pending" |} in
  let listing := [instance_old; instance_new; pending; instance_other] in
  verify_old_instances_termination "test-asg"
    (fresh [AutoScalingInstances listing; Empty; throttled;
            AutoScalingInstances listing; Empty; Empty;
            AutoScalingInstances [instance_new; instance_other]])
  = (Return tt,
     {| script := [];
        trace :=
          [verifying_logged "test-asg";
           Call DescribeAutoScalingInstances (AutoScalingInstances listing);
           Log INFO "Waiting for old instances to terminate..." [];
           Call (TerminateInstances ["i-old"]) Empty;
           Call (TerminateInstances ["i-pending"]) throttled;
           Log ERROR "ClientError verifying old instances termination: {e}"
               [VExn (ClientError "Throttling")];
           Sleep 2;
           verifying_logged "test-asg";
           Call DescribeAutoScalingInstances (AutoScalingInstances listing);
           Log INFO "Waiting for old instances to terminate..." [];
           Call (TerminateInstances ["i-old"]) Empty;
           Call (TerminateInstances ["i-pending"]) Empty;
           Sleep 30;
           Call DescribeAutoScalingInstances
                (AutoScalingInstances [instance_new; instance_other]);
           Log INFO "Old instances have been terminated" []] |}).
Proof.
  intros pending listing.
  apply (@throttled_terminate_restarts_the_reaper
           "test-asg" listing [instance_old] pending [] "Throttling"
           [listing] [instance_new; instance_other] []
           (fresh [AutoScalingInstances listing; Empty; throttled;
                   AutoScalingInstances listing; Empty; Empty;
                   AutoScalingInstances [instance_new; instance_other]])).
  - reflexivity.
  - constructor; [discriminate | constructor].
  - reflexivity.
  - reflexivity.
Defined.

(** ** What a run waits for *)

Lemma client_call_Hang_inv rq s s1 :
  client_call rq s = (Hang, s1) -> s1 = s /\ script s = [].
Proof.
  unfold client_call. destruct (script s) as [| rs rest] eqn:E.
  - now intros [= <-].
  - destruct rs; discriminate.
Qed.

Lemma blocks_client_call rq : blocks_on_call (client_call rq).
Proof.
  intros s H. destruct (client_call rq s) as [o s1] eqn:E. cbn in *. subst o.
  now apply client_call_Hang_inv in E as [-> ?].
Qed.

Lemma blocks_ret {A} (a : A) : blocks_on_call (ret a).
Proof. intros s. discriminate. Qed.

Lemma blocks_raise {A} e : blocks_on_call (@raise A e).
Proof. intros s. discriminate. Qed.

Lemma blocks_log lvl message args : blocks_on_call (log lvl message args).
Proof. intros s. discriminate. Qed.

Lemma blocks_sleep seconds : blocks_on_call (sleep seconds).
Proof. intros s. discriminate. Qed.

Lemma blocks_bind {A B} (m : M A) (k : A -> M B) :
  blocks_on_call m -> (forall a, blocks_on_call (k a)) ->
  blocks_on_call (bind m k).
Proof.
  intros Hm Hk s. specialize (Hm s). unfold bind.
  destruct (m s) as [[a | e |] s1]; cbn [fst snd] in *;
    [apply Hk | discriminate | auto].
Qed.

Lemma blocks_try {A} (body : M A) cls handler :
  blocks_on_call body -> (forall e, blocks_on_call (handler e)) ->
  blocks_on_call (try_except body cls handler).
Proof.
  intros Hb Hh s. specialize (Hb s). unfold try_except.
  destruct (body s) as [[a | e |] s1]; cbn [fst snd] in *;
    [discriminate | | auto].
  destruct (cls e); [apply Hh | discriminate].
Qed.

(** The decorator stops after the third attempt: it never stops for lack
    of budget. *)
Lemma blocks_retrying {A} (f : M A) budget n :
  (3 <= budget + n)%nat -> blocks_on_call f ->
  blocks_on_call (retrying budget n f).
Proof.
  intros Hn Hf. revert n Hn.
  induction budget as [| budget IH]; intros n Hn s;
    specialize (Hf s); cbn [retrying];
    destruct (f s) as [[a | e |] s1]; cbn [fst snd] in *;
    try discriminate; auto;
    (destruct (negb _); [discriminate |]);
    unfold stop_after_attempt;
    (destruct (Nat.leb_spec 3 n) as [Ha | Ha]; [discriminate |]).
  - lia.
  - unfold bind, sleep. apply IH. lia.
Qed.

Lemma blocks_retry {A} (f : M A) :
  blocks_on_call f -> blocks_on_call (retry f).
Proof. apply blocks_retrying. lia. Qed.

Lemma poll_instance_refresh_blocks asg_name id : forall fuel s,
  (List.length (script s) < fuel)%nat ->
  fst (poll_instance_refresh fuel asg_name id s) = Hang ->
  script (snd (poll_instance_refresh fuel asg_name id s)) = [].
Proof.
  induction fuel as [| fuel IH]; intros s Hf; [lia |].
  cbn [poll_instance_refresh].
  destruct (client_call (DescribeInstanceRefreshes asg_name [id]) s)
    as [[rs | e |] s1] eqn:Ec.
  - assert (Hb : forall k : response -> M unit,
               bind (client_call (DescribeInstanceRefreshes asg_name [id])) k s
               = k rs s1)
      by (intros k; apply bind_Return; exact Ec).
    rewrite !Hb. clear Hb.
    apply client_call_Return_inv in Ec as (rest & Hs & ->).
    rewrite Hs in Hf. cbn [List.length] in Hf.
    destruct rs as [| | | | statuses | | |]; try discriminate.
    destruct statuses as [| status others]; [discriminate |].
    rewrite !bind_ret.
    destruct (is_terminal status); [discriminate |].
    rewrite !bind_log, !bind_sleep. apply IH. cbn [emit script]. lia.
  - unfold bind. rewrite Ec. discriminate.
  - unfold bind. rewrite Ec. intros _.
    now apply client_call_Hang_inv in Ec as [-> ?].
Qed.

Lemma terminate_each_blocks l : blocks_on_call (terminate_each l).
Proof.
  induction l as [| i l IH]; cbn [terminate_each].
  - apply blocks_ret.
  - apply blocks_bind; [apply blocks_client_call | intros _; exact IH].
Qed.

Lemma reap_old_instances_blocks asg_name : forall fuel s,
  (List.length (script s) < fuel)%nat ->
  fst (reap_old_instances fuel asg_name s) = Hang ->
  script (snd (reap_old_instances fuel asg_name s)) = [].
Proof.
  induction fuel as [| fuel IH]; intros s Hf; [lia |].
  cbn [reap_old_instances].
  destruct (client_call DescribeAutoScalingInstances s)
    as [[rs | e |] s1] eqn:Ec.
  - assert (Hb : forall k : response -> M unit,
               bind (client_call DescribeAutoScalingInstances) k s = k rs s1)
      by (intros k; apply bind_Return; exact Ec).
    rewrite !Hb. clear Hb.
    apply client_call_Return_inv in Ec as (rest & Hs & ->).
    rewrite Hs in Hf. cbn [List.length] in Hf.
    destruct rs as [| | | | | listing | |]; try discriminate.
    rewrite !bind_ret.
    destruct (old_instances asg_name listing) as [| i old]; [discriminate |].
    rewrite !bind_log.
    match goal with
    | |- context [bind (terminate_each ?l) _ ?st] =>
        pose proof (terminate_each_script l st) as Hle;
        pose proof (terminate_each_blocks l st) as Hbl;
        destruct (terminate_each l st) as [[u | e |] s3] eqn:Et;
        [assert (Hb : forall k : unit -> M unit,
                    bind (terminate_each l) k st = k u s3)
           by (intros k; apply bind_Return; exact Et) | |]
    end.
    + rewrite !Hb, !bind_sleep. clear Hb.
      cbn [snd emit script] in Hle.
      apply IH. cbn [emit script]. lia.
    + unfold bind at 1 3. rewrite Et. discriminate.
    + unfold bind at 1 3. rewrite Et. intros _. now apply Hbl.
  - unfold bind. rewrite Ec. discriminate.
  - unfold bind. rewrite Ec. intros _.
    now apply client_call_Hang_inv in Ec as [-> ?].
Qed.

(** The steps of a proof that a computation waits only for answers. *)
Ltac blocks_step :=
  lazymatch goal with
  | |- blocks_on_call (bind _ _) => apply blocks_bind; [| intros ?]
  | |- blocks_on_call (ret _) => apply blocks_ret
  | |- blocks_on_call (raise _) => apply blocks_raise
  | |- blocks_on_call (log _ _ _) => apply blocks_log
  | |- blocks_on_call (sleep _) => apply blocks_sleep
  | |- blocks_on_call (client_call _) => apply blocks_client_call
  | |- blocks_on_call (try_except _ _ _) => apply blocks_try; [| intros ?]
  | |- blocks_on_call (retry _) => apply blocks_retry
  | |- blocks_on_call (getitem_LaunchTemplate ?d) =>
      unfold getitem_LaunchTemplate; destruct (LaunchTemplate d)
  | |- blocks_on_call (match ?x with _ => _ end) => destruct x
  end.

Lemma get_current_ami_id_blocks id version :
  blocks_on_call (get_current_ami_id id version).
Proof.
  unfold get_current_ami_id, get_current_ami_id_body. repeat blocks_step.
Qed.

Lemma update_auto_scaling_group_blocks d new_ami_id desired mn mx :
  blocks_on_call (update_auto_scaling_group d new_ami_id desired mn mx).
Proof.
  unfold update_auto_scaling_group, update_auto_scaling_group_body.
  repeat first [apply get_current_ami_id_blocks | blocks_step].
Qed.

Lemma wait_for_instance_refresh_blocks asg_name id :
  blocks_on_call (wait_for_instance_refresh asg_name id).
Proof.
  unfold wait_for_instance_refresh, wait_for_instance_refresh_body.
  repeat blocks_step.
  intros s. apply poll_instance_refresh_blocks, enough_fuel_is_enough.
Qed.

Lemma verify_old_instances_termination_blocks asg_name :
  blocks_on_call (verify_old_instances_termination asg_name).
Proof.
  unfold verify_old_instances_termination,
    verify_old_instances_termination_body.
  repeat blocks_step.
  intros s. apply reap_old_instances_blocks, enough_fuel_is_enough.
Qed.

(** X20.  A run that has neither returned nor raised is waiting for an
    answer of the control plane, and has read every answer there was: each
    iteration of the two [while True] loops makes a call before it sleeps,
    and the decorator gives up after its third attempt.  Nothing but a
    missing answer keeps [run] from ending. *)
Theorem run_waits_only_for_answers :
  forall cfg s,
    fst (run cfg s) = Hang -> script (snd (run cfg s)) = [].
Proof.
  intros cfg.
  change (blocks_on_call (run cfg)).
  unfold run, initialize_aws_sdk, boto3_client, run_retrieve, run_update,
    run_refresh, get_current_asg_details, get_current_asg_details_body,
    start_instance_refresh, start_instance_refresh_body.
  repeat first [ apply update_auto_scaling_group_blocks
               | apply wait_for_instance_refresh_blocks
               | apply verify_old_instances_termination_blocks
               | blocks_step ].
Qed.

Lemma run_waits_only_for_answers_witness :
  fst (run (target "ami-v2" 2) (fresh [AutoScalingGroups [test_asg]])) = Hang
  /\ script (snd (run (target "ami-v2" 2)
                      (fresh [AutoScalingGroups [test_asg]]))) = [].
Proof.
  split; [reflexivity |].
  apply (run_waits_only_for_answers (target "ami-v2" 2)
           (fresh [AutoScalingGroups [test_asg]])).
  reflexivity.
Defined.

(** ** A throttled update, then nothing left to update *)

Lemma get_current_ami_id_answered id version s image_id more rest :
  script s = LaunchTemplateVersions (Some image_id :: more) :: rest ->
  get_current_ami_id id version s
  = (Return image_id,
     {| script := rest;
        trace := trace s ++
          [lookup_logged id version;
           Call (DescribeLaunchTemplateVersions id [version])
                (LaunchTemplateVersions (Some image_id :: more))] |}).
Proof.
  intros Hs. apply retry_Return.
  now rewrite (get_current_ami_id_body_answered id version s Hs eq_refl).
Qed.

(** X18.  When the update call is throttled after the new template version
    was created, the second attempt looks the image up again.  If that
    look-up now resolves to the target image (as a version token like
    ['$Latest'] does once the new version exists) and the capacities are
    already the targets, [update_auto_scaling_group] finds nothing to
    update and returns [None]: [run], which has created its clients and
    retrieved the group, logs "No update required" and its success line and
    returns, although a version was created, no update call was answered
    and no instance refresh was started. *)
Theorem throttled_update_can_end_as_no_update :
  forall cfg s s1 d lt current v1 code more more' rest,
    host_label (aws_region cfg) = true ->
    get_current_asg_details (auto_scaling_group cfg) (started s)
    = (Return d, s1) ->
    LaunchTemplate d = Some lt ->
    DesiredCapacity d = desired_capacity cfg ->
    MinSize d = min_size cfg ->
    MaxSize d = max_size cfg ->
    current <> ami_id cfg ->
    script s1 = LaunchTemplateVersions (Some current :: more)
                :: LaunchTemplateVersion v1
                :: Error (ClientError code)
                :: LaunchTemplateVersions (Some (ami_id cfg) :: more')
                :: rest ->
    let lookup image versions :=
      [lookup_logged (LaunchTemplateId lt) (Version lt);
       Call (DescribeLaunchTemplateVersions (LaunchTemplateId lt)
                                            [Version lt])
            (LaunchTemplateVersions (Some image :: versions))] in
    run cfg s
    = (Return tt,
       {| script := rest;
          trace := trace s1
                   ++ [details_logged d; checking]
                   ++ lookup current more
                   ++ [updating; image_changed;
                       Call (CreateLaunchTemplateVersion
                               (LaunchTemplateId lt) (Version lt)
                               (ami_id cfg))
                            (LaunchTemplateVersion v1);
                       Call (UpdateAutoScalingGroup
                               (AutoScalingGroupName d)
                               (desired_capacity cfg) (min_size cfg)
                               (max_size cfg)
                               (Some {| LaunchTemplateId :=
                                          LaunchTemplateId lt;
                                        Version := str v1 |}))
                            (Error (ClientError code));
                       Log ERROR "ClientError updating Auto Scaling Group: {e}"
                           [VExn (ClientError code)];
                       Sleep 2;
                       checking]
                   ++ lookup (ami_id cfg) more'
                   ++ [no_change; no_update; success_marker] |}).
Proof.
  intros cfg s s1 d lt current v1 code more more' rest
         Hregion Hd Hlt Hde Hmn Hmx Hne Hs lookup.
  erewrite run_no_update;
    [| apply clients_created; exact Hregion | exact Hd |].
  2:{ unfold update_auto_scaling_group.
      eapply retry_second_attempt with (code := code).
      - eapply update_body_update_failed
          with (lt := lt) (current_ami_id := current).
        + exact Hlt.
        + apply get_current_ami_id_answered. cbn [emit script]. exact Hs.
        + exact Hne.
        + reflexivity.
      - erewrite update_body_resolved
          with (lt := lt) (current_ami_id := ami_id cfg);
          [| exact Hlt
           | apply get_current_ami_id_answered; cbn [emit script];
             reflexivity].
        apply try_Return.
        replace (unchanged d (ami_id cfg) (ami_id cfg) (desired_capacity cfg)
                           (min_size cfg) (max_size cfg))
          with true by (symmetry; now apply unchanged_true).
        reflexivity. }
  unfold lookup, no_change, no_update, success_marker. f_equal. same_state.
Qed.

(** The group of the tests with the version token resolving to image v1,
    then, once version 2 exists, to image v2; the capacities stay 1. *)
Lemma throttled_update_can_end_as_no_update_witness :
  let s := fresh [AutoScalingGroups [test_asg];
                  LaunchTemplateVersions [Some "ami-v1"];
                  LaunchTemplateVersion 2;
                  throttled;
                  LaunchTemplateVersions [Some "ami-v2"]] in
  fst (run (target "ami-v2" 1) s) = Return tt
  /\ script (snd (run (target "ami-v2" 1) s)) = []
  /\ filter is_create_call (trace (snd (run (target "ami-v2" 1) s)))
     = [Call (CreateLaunchTemplateVersion "lt-0abc" "1" "ami-v2")
             (LaunchTemplateVersion 2)]
  /\ filter is_start_call (trace (snd (run (target "ami-v2" 1) s))) = []
  /\ last (trace (snd (run (target "ami-v2" 1) s))) checking
     = success_marker.
Proof.
  intros s.
  pose (s1 := snd (get_current_asg_details "test-asg" (started s))).
  assert (Hne : "ami-v1" <> ami_id (target "ami-v2" 1)) by discriminate.
  pose proof (@throttled_update_can_end_as_no_update
                (target "ami-v2" 1) s s1 test_asg template_v1 "ami-v1" 2
                "Throttling" [] [] []
                eq_refl eq_refl eq_refl eq_refl eq_refl eq_refl Hne eq_refl)
    as H.
  cbv zeta in H. rewrite H. repeat split.
Defined.

(** ** A whole deployment *)

Lemma start_instance_refresh_answered asg_name prefs s id rest :
  script s = InstanceRefreshId id :: rest ->
  start_instance_refresh asg_name prefs s
  = (Return id,
     {| script := rest;
        trace := trace s ++
          [starting_refresh asg_name;
           Call (StartInstanceRefresh asg_name "Rolling" prefs)
                (InstanceRefreshId id)] |}).
Proof.
  intros Hs. apply retry_Return.
  now rewrite (start_instance_refresh_body_answered asg_name prefs s Hs
                 eq_refl).
Qed.

(** X19.  The stages of [run] compose.  When the clients are created (the
    region name is a host label), the group is found, its
    template version resolves to an image other than the target, and every
    call is answered (the status queries with any number of non-terminal
    statuses before a terminal one, the listings with any number that show
    old instances before one that shows none), [run] makes, in this order:
    the look-up of the group, the look-up of the image, the creation of a
    version, the update of the group, the start of the refresh, the status
    queries, the listings with their terminate calls; it writes its success
    line last and returns, leaving the rest of the answers unread. *)
Theorem run_deploys_a_new_image :
  forall cfg d lt more current versions v rs id pending status others
         stale last rest s,
    let name := auto_scaling_group cfg in
    host_label (aws_region cfg) = true ->
    LaunchTemplate d = Some lt ->
    current <> ami_id cfg ->
    is_error rs = false ->
    Forall (fun statuses => in_progress statuses = true) pending ->
    is_terminal status = true ->
    Forall (fun listing => old_instances name listing <> []) stale ->
    old_instances name last = [] ->
    script s = [AutoScalingGroups (d :: more);
                LaunchTemplateVersions (Some current :: versions);
                LaunchTemplateVersion v;
                rs;
                InstanceRefreshId id]
               ++ map InstanceRefreshes pending
               ++ InstanceRefreshes (status :: others)
               :: flat_map (reap_responses name) stale
               ++ AutoScalingInstances last :: rest ->
    run cfg s
    = (Return tt,
       {| script := rest;
          trace :=
            trace s
            ++ [Log INFO "Starting deployment process" [];
                Log INFO "Initializing AWS SDK" [];
                retrieving_logged name;
                Call (DescribeAutoScalingGroups [name])
                     (AutoScalingGroups (d :: more));
                details_logged d;
                checking;
                lookup_logged (LaunchTemplateId lt) (Version lt);
                Call (DescribeLaunchTemplateVersions (LaunchTemplateId lt)
                                                     [Version lt])
                     (LaunchTemplateVersions (Some current :: versions));
                updating;
                image_changed;
                Call (CreateLaunchTemplateVersion (LaunchTemplateId lt)
                                                  (Version lt) (ami_id cfg))
                     (LaunchTemplateVersion v);
                Call (UpdateAutoScalingGroup
                        (AutoScalingGroupName d) (desired_capacity cfg)
                        (min_size cfg) (max_size cfg)
                        (Some {| LaunchTemplateId := LaunchTemplateId lt;
                                 Version := str v |}))
                     rs;
                updated_logged (VersionNumber v);
                starting_refresh name;
                Call (StartInstanceRefresh name "Rolling"
                                           (instance_refresh cfg))
                     (InstanceRefreshId id);
                started_logged id;
                waiting_logged name id]
            ++ flat_map (poll_again name id) pending
            ++ poll_last name id status others
            ++ [completed_logged; verifying_logged name]
            ++ flat_map (reap_again name) stale
            ++ reap_last last
            ++ [old_terminated; success_marker] |}).
Proof.
  intros cfg d lt more current versions v rs id pending status others
         stale last rest s name Hregion Hlt Hne Hrs Hp Ht Hst Hl Hs.
  cbn [app] in Hs.
  erewrite run_updated with (d := d) (v := VersionNumber v).
  2:{ apply clients_created. exact Hregion. }
  2:{ apply retry_Return. apply get_current_asg_details_body_found.
      exact Hs. }
  2:{ eapply update_image_changed with (lt := lt) (current_ami_id := current).
      - exact Hlt.
      - apply get_current_ami_id_answered. reflexivity.
      - exact Hne.
      - reflexivity.
      - exact Hrs. }
  unfold run_from_refresh.
  erewrite bind_Return.
  2:{ apply try_Return. unfold run_refresh. run_head.
      erewrite bind_Return
        by (apply start_instance_refresh_answered; reflexivity).
      run_head.
      erewrite bind_Return
        by (apply retry_Return;
            eapply wait_body_until_terminal; [exact Hp | exact Ht |];
            reflexivity).
      run_head.
      erewrite bind_Return
        by (apply retry_Return;
            eapply verify_body_until_clean; [exact Hst | exact Hl |];
            reflexivity).
      run_head. reflexivity. }
  unfold log, retrieving_logged, details_logged, updated_logged,
    started_logged, completed_logged, old_terminated, success_marker,
    started.
  f_equal. same_state.
Qed.

(** The group of the tests, from image v1 to image v2: one status query
    before the terminal one, one listing with an old instance. *)
Lemma run_deploys_a_new_image_witness :
  let s := fresh [AutoScalingGroups [test_asg];
                  LaunchTemplateVersions [Some "ami-v1"];
                  LaunchTemplateVersion 2;
                  Empty;
                  InstanceRefreshId "refresh-1";
                  InstanceRefreshes ["InProgress"];
                  InstanceRefreshes ["Successful"];
                  AutoScalingInstances [instance_old; instance_new];
                  Empty;
                  AutoScalingInstances [instance_new]] in
  let cfg := target "ami-v2" 2 in
  fst (run cfg s) = Return tt
  /\ script (snd (run cfg s)) = []
  /\ filter is_mutating_call (trace (snd (run cfg s)))
     = [Call (CreateLaunchTemplateVersion "lt-0abc" "1" "ami-v2")
             (LaunchTemplateVersion 2);
        Call (UpdateAutoScalingGroup "test-asg" 2 2 2
                (Some {| LaunchTemplateId := "lt-0abc"; Version := "2" |}))
             Empty;
        Call (StartInstanceRefresh "test-asg" "Rolling" preferences)
             (InstanceRefreshId "refresh-1");
        Call (TerminateInstances ["i-old"]) Empty]
  /\ last (trace (snd (run cfg s))) checking = success_marker.
Proof.
  intros s cfg.
  assert (Hne : "ami-v1" <> ami_id cfg) by discriminate.
  assert (Hp : Forall (fun statuses => in_progress statuses = true)
                 [["InProgress"]])
    by (constructor; [reflexivity | constructor]).
  assert (Hst : Forall (fun listing =>
                          old_instances (auto_scaling_group cfg) listing
                          <> [])
                  [[instance_old; instance_new]])
    by (constructor; [discriminate | constructor]).
  pose proof (@run_deploys_a_new_image
                cfg test_asg template_v1 [] "ami-v1" [] 2 Empty "refresh-1"
                [["InProgress"]] "Successful" []
                [[instance_old; instance_new]] [instance_new] [] s
                eq_refl eq_refl Hne eq_refl Hp eq_refl Hst eq_refl eq_refl)
    as H.
  cbv zeta in H. rewrite H. repeat split.
Defined.

(** ** A region name that is not accepted *)

(** X21.  [initialize_aws_sdk] is called before the first [try] block of
    [run].  With a region name that the validation of [botocore] rejects
    (a character other than a letter, a digit or a hyphen, more than 63
    characters, digits only, or a hyphen at either end), the creation of
    the first client raises [InvalidRegionError]: [run] has written its
    two first records and made no call, the exception leaves it uncaught,
    and the interpreter exits with status 1.  No stage is started. *)
Theorem run_with_a_rejected_region_name :
  forall cfg s,
    validate_region_name (aws_region cfg) = false ->
    run cfg s = (Raise (InvalidRegionError (aws_region cfg)), started s)
    /\ halts_raising cfg s (InvalidRegionError (aws_region cfg)) (started s)
    /\ script (snd (run cfg s)) = script s
    /\ filter is_call (trace (started s)) = filter is_call (trace s).
Proof.
  intros cfg s Hv.
  assert (Hrun : run cfg s
                 = (Raise (InvalidRegionError (aws_region cfg)), started s)).
  { apply run_not_created. unfold initialize_aws_sdk, boto3_client.
    rewrite bind_log. unfold bind. now rewrite Hv. }
  split; [exact Hrun |]. split; [now apply halts_raising_intro |].
  rewrite Hrun. split; [reflexivity |].
  unfold started. cbn [emit trace]. rewrite <- app_assoc, filter_app.
  cbn. now rewrite app_nil_r.
Qed.

(** The no-update scenario with the region written ["us east 1"]. *)
Lemma run_with_a_rejected_region_name_witness :
  let cfg := {| aws_region := "us east 1"; auto_scaling_group := "test-asg";
                ami_id := "ami-v1"; desired_capacity := 1; min_size := 1;
                max_size := 1; instance_refresh := preferences |} in
  run cfg scenario_A
  = (Raise (InvalidRegionError "us east 1"),
     {| script := script scenario_A;
        trace := [Log INFO "Starting deployment process" [];
                  Log INFO "Initializing AWS SDK" []] |})
  /\ exit_status (fst (main cfg scenario_A)) = Some 1.
Proof.
  intros cfg.
  destruct (@run_with_a_rejected_region_name cfg scenario_A eq_refl)
    as (Hrun & (_ & Hexit & _) & _).
  split; [exact Hrun | exact Hexit].
Defined.
